(** * TLS pin-mismatch reports of the bridge's API client (pkg/pmapi/tlsreport.go)

    A shallow embedding of [NewTLSReport] and [postCertIssueReport] together
    with the parts of the Go runtime they call: [strconv.Atoi] and
    [strconv.Itoa], [time.Time.Add], [net/http] headers and requests, [logrus]
    entries and [encoding/json] for the [TLSReport] struct.

    Conventions.
    - A Go [string] is a sequence of bytes: it is a [string] of 8-bit [ascii].
    - A Go [int] is the 64-bit integer of the platforms the bridge is built
      for; it is a [Z] and every place where the code can leave the range is
      written out.
    - A Go slice is [option (list A)]: [None] is the nil slice, [Some []] the
      empty, non-nil one.  [encoding/json] tells them apart.
    - Effects are explicit: the clock reading is an argument, and the log, the
      network call and the response body are events of a trace. *)

From Stdlib Require Import ZArith Lia Bool Ascii String.
From stdpp Require Import gmap strings list.

Local Open Scope string_scope.
Local Open Scope list_scope.
Local Open Scope Z_scope.

Set Warnings "-register-all".

(** ** Bytes and strings *)

(** The numeric value of a byte. *)
Definition code (c : ascii) : Z := Z.of_N (N_of_ascii c).

(** The byte with a given value (mod 256, as a Go [byte] conversion). *)
Definition chr (n : Z) : ascii := ascii_of_N (Z.to_N (n mod 256)).

(** The double quote character, by its code. *)
Definition dquote : ascii := chr 34.

(** Go's [[]byte]. *)
Abbreviation bytes := (list ascii).

(** The conversions [[]byte(s)] and [string(b)]. *)
Abbreviation bytes_of := list_ascii_of_string.
Abbreviation string_of := string_of_list_ascii.

(** Go's [len(s)]. *)
Definition len (s : string) : Z := Z.of_nat (String.length s).

(** Go slices: nil or a (possibly empty) backing list. *)
Definition slice (A : Type) : Type := option (list A).

(** Go's [error] values are identified by their message. *)
Definition error : Type := string.

(** A call that returns [(T, error)] with exactly one of them meaningful. *)
Inductive result (A : Type) : Type :=
| Ok (a : A)
| Err (e : error).
Arguments Ok {A} a.
Arguments Err {A} e.

(** ** strconv *)

Module strconv.

(** [strconv.ErrSyntax] and [strconv.ErrRange]. *)
Inductive NumError : Type := ErrSyntax | ErrRange.

Definition intSize : Z := 64.
Definition maxUint64 : Z := 2 ^ 64 - 1.

(** The loop of [ParseUint] for base 10 and bitSize 64.  A byte that is not a
    decimal digit is a syntax error (for base 10 the letter case ends in
    [d >= base] and the default case, both [ErrSyntax]); the range checks are
    made digit by digit, and the first overflow returns [maxVal] at once,
    without looking at the rest of the input. *)
Fixpoint parseUint_loop (s : string) (n : Z) : Z * option NumError :=
  match s with
  | EmptyString => (n, None)
  | String c s' =>
      if (48 <=? code c) && (code c <=? 57) then
        let d := code c - 48 in
        let cutoff := maxUint64 / 10 + 1 in
        let maxVal := maxUint64 in
        if cutoff <=? n then (maxVal, Some ErrRange)
        else
          let n := n * 10 in
          let n1 := (n + d) mod 2 ^ 64 in
          if (n1 <? n) || (maxVal <? n1) then (maxVal, Some ErrRange)
          else parseUint_loop s' n1
      else (0, Some ErrSyntax)
  end.

(** [ParseUint(s, 10, 0)]. *)
Definition ParseUint (s : string) : Z * option NumError :=
  match s with
  | EmptyString => (0, Some ErrSyntax)
  | _ => parseUint_loop s 0
  end.

(** [ParseInt(s, 10, 0)]: the sign is picked off, the magnitude is parsed
    as unsigned, and a magnitude out of the int64 range gives the nearest
    bound together with [ErrRange]. *)
Definition ParseInt (s : string) : Z * option NumError :=
  match s with
  | EmptyString => (0, Some ErrSyntax)
  | String c0 s' =>
      let neg := (code c0 =? 45) in
      let s1 := if (code c0 =? 43) || (code c0 =? 45) then s' else s in
      match ParseUint s1 with
      | (_, Some ErrSyntax) => (0, Some ErrSyntax)
      | (un, _) =>
          let cutoff := 2 ^ (intSize - 1) in
          if negb neg && (cutoff <=? un) then (cutoff - 1, Some ErrRange)
          else if neg && (cutoff <? un) then (- cutoff, Some ErrRange)
          else (if neg then - un else un, None)
      end
  end.

(** The digit loop of the fast path of [Atoi]: [ch -= '0'] is a byte
    subtraction, so a byte below ['0'] wraps to a value above 9. *)
Fixpoint atoi_fast_loop (s : string) (n : Z) : option Z :=
  match s with
  | EmptyString => Some n
  | String ch s' =>
      let ch := (code ch - 48) mod 256 in
      if 9 <? ch then None else atoi_fast_loop s' (n * 10 + ch)
  end.

(** [strconv.Atoi]: the returned int and the returned error ([None] is nil). *)
Definition Atoi (s : string) : Z * option NumError :=
  let sLen := len s in
  if (0 <? sLen) && (sLen <? 19) then
    match s with
    | EmptyString => (0, Some ErrSyntax)
    | String c0 s' =>
        let signed := (code c0 =? 45) || (code c0 =? 43) in
        let digits := if signed then s' else s in
        if signed && (len digits <? 1) then (0, Some ErrSyntax)
        else
          match atoi_fast_loop digits 0 with
          | None => (0, Some ErrSyntax)
          | Some n => (if code c0 =? 45 then - n else n, None)
          end
    end
  else ParseInt s.

(** The decimal digits of a non-negative number, most significant first,
    in front of [acc]. *)
Fixpoint utoa (fuel : nat) (n : Z) (acc : string) : string :=
  match fuel with
  | O => acc
  | S fuel' =>
      let acc' := String (chr (48 + n mod 10)) acc in
      if n <? 10 then acc' else utoa fuel' (n / 10) acc'
  end.

(** [strconv.Itoa] (that is [FormatInt(int64(i), 10)]).  Twenty digits hold
    every 64-bit magnitude. *)
Definition Itoa (i : Z) : string :=
  if i <? 0 then String (chr 45) (utoa 20 (- i) EmptyString)
  else utoa 20 i EmptyString.

End strconv.

(** ** time *)

Module time.

(** A [time.Time] as the wall clock sees it: seconds since the epoch, the
    nanoseconds within the second, and the offset of its location.  The
    monotonic reading that [time.Now] also carries plays no part in
    formatting and is left out.  Go counts the seconds from January 1 of
    the year 1, [unixToInternal] seconds before the epoch, in 64 bits. *)
Record Time : Type := mkTime { sec : Z; nsec : Z; zone : Z }.

Definition unixToInternal : Z := 62135596800.

(** The conversion [int64(...)] of a sum: two's complement wrap-around. *)
Definition int64 (n : Z) : Z := (n + 2 ^ 63) mod 2 ^ 64 - 2 ^ 63.

(** [Time.addSec] on the 64-bit count of seconds [ext]: a sum that
    overflows stops at the largest or the smallest count.  (A reading with
    a monotonic part keeps its seconds in 33 bits and moves them to the
    64-bit count when the sum leaves that range; the result is the same
    count.) *)
Definition addSec (ext d : Z) : Z :=
  let sum := int64 (ext + d) in
  if Bool.eqb (ext <? sum) (0 <? d) then sum
  else if 0 <? d then 2 ^ 63 - 1
  else - (2 ^ 63 - 1).

(** [time.Duration]: a count of nanoseconds. *)
Definition Duration : Type := Z.
Definition Nanosecond : Duration := 1.
Definition Second : Duration := 1000000000 * Nanosecond.

(** [Time.Add].  Go's [/] and [%] truncate towards zero; the seconds are
    added by [addSec]. *)
Definition Add (t : Time) (d : Duration) : Time :=
  let dsec := Z.quot d 1000000000 in
  let ns := nsec t + Z.rem d 1000000000 in
  let '(dsec, ns) :=
    if 1000000000 <=? ns then (dsec + 1, ns - 1000000000)
    else if ns <? 0 then (dsec - 1, ns + 1000000000)
    else (dsec, ns) in
  mkTime (addSec (sec t + unixToInternal) dsec - unixToInternal) ns (zone t).

End time.

(** ** The report *)

(** [TLSReport], field for field.  The JSON names of the struct tags are in
    [json.fieldNames] below. *)
Record TLSReport : Type := mkTLSReport {
  DateTime : string;
  Hostname : string;
  Port : Z;
  EffectiveExpirationDate : string;
  IncludeSubdomains : bool;
  NotedHostname : string;
  ServedCertificateChain : slice string;
  ValidatedCertificateChain : slice string;
  KnownPins : slice string;
  AppVersion : string
}.

(** A pin as the source writes it in a raw string: [pin-sha256=] and the
    base64 digest between double quotes. *)
Definition pin_sha256 (digest : string) : string :=
  String.append "pin-sha256="
    (String dquote (String.append digest (String dquote EmptyString))).

(** [TrustedAPIPins]: the trusted public keys of the API and its proxies. *)
Definition TrustedAPIPins : slice string :=
  Some [pin_sha256 "drtmcR2kFkM8qJClsuWgUzxgBkePfRCkRpqUesyDmeE=";   (* current *)
        pin_sha256 "YRGlaY0jyJ4Jw2/4M8FIftwbDIQfh8Sdro96CeEel54=";   (* hot *)
        pin_sha256 "AfMENBVvOS8MnISprtvyPsjKlPooqh8nMB/pvCrpJpw=";   (* cold *)
        pin_sha256 "EU6TS9MO0L/GsDHvVc9D5fChYLNy5JdGYpJw0ccgetM=";   (* proxy main *)
        pin_sha256 "iKPIHPnDNqdkvOnTClQ8zQAIKG0XavaPkcEo0LBAABA=";   (* proxy backup 1 *)
        pin_sha256 "MSlVrBCdL0hKyczvgYVSRNm88RicyY04Q2y5qrBt0xA=";   (* proxy backup 2 *)
        pin_sha256 "C2UxW0T1Ckl9s+8cXfjXxlEqwAfPM4HiW2y3UdtBeCw="].  (* proxy backup 3 *)

(** [TLSReportURI]. *)
Definition TLSReportURI : string := "https://reports.protonmail.ch/reports/tls".

Section Builder.

(** [Time.Format(time.RFC3339)] belongs to the Go runtime; the builder only
    passes its result on. *)
Variable Format_RFC3339 : time.Time -> string.

(** [NewTLSReport].  [now] is the reading of [time.Now()]; the error of
    [strconv.Atoi] is dropped ([intPort, _ := ...]).  The composite literal
    names nine fields; [DateTime] is not among them and keeps the zero value
    of its type. *)
Definition NewTLSReport (now : time.Time)
    (host port server : string) (certChain knownPins : slice string)
    (appVersion : string) : TLSReport :=
  let intPort := fst (strconv.Atoi port) in
  {| DateTime := EmptyString;
     Hostname := host;
     Port := intPort;
     EffectiveExpirationDate :=
       Format_RFC3339 (time.Add now (365 * 24 * 60 * 60 * time.Second));
     IncludeSubdomains := false;
     NotedHostname := server;
     ValidatedCertificateChain := Some [];
     ServedCertificateChain := certChain;
     KnownPins := knownPins;
     AppVersion := appVersion |}.

End Builder.

(** ** io and io/ioutil *)

Module io.

(** An [io.ReadCloser] as the submitter meets one in a response: the bytes
    that are still to be read, the fault, if there is one, that ends the
    reads before the end of the data ([Some (n, err)]: [n] more bytes can
    be read, and from then on every read returns [err]), and whether
    [Close] has been called. *)
Record ReadCloser : Type := mkReadCloser {
  unread : bytes;
  fault : option (nat * error);
  closed : bool
}.


End io.

Module ioutil.


End ioutil.

(** ** net/http *)

Module http.

Definition StatusOK : Z := 200.

(** [textproto]'s token table: the bytes allowed in a header field name
    (and in a method). *)
Definition validHeaderFieldByte (c : ascii) : bool :=
  let n := code c in
  ((48 <=? n) && (n <=? 57)) || ((65 <=? n) && (n <=? 90)) ||
  ((97 <=? n) && (n <=? 122)) ||
  existsb (Z.eqb n) [33; 35; 36; 37; 38; 39; 42; 43; 45; 46; 94; 95; 96; 124; 126].

Fixpoint all_bytes (p : ascii -> bool) (s : string) : bool :=
  match s with
  | EmptyString => true
  | String c s' => p c && all_bytes p s'
  end.

(** The second loop of [canonicalMIMEHeaderKey]: upper case at the start and
    after each dash, lower case elsewhere. *)
Fixpoint canonicalize (upper : bool) (s : string) : string :=
  match s with
  | EmptyString => EmptyString
  | String c s' =>
      let n := code c in
      let c' :=
        if upper && (97 <=? n) && (n <=? 122) then chr (n - 32)
        else if negb upper && (65 <=? n) && (n <=? 90) then chr (n + 32)
        else c in
      String c' (canonicalize (code c' =? 45) s')
  end.

(** [textproto.CanonicalMIMEHeaderKey]: a key with a byte outside the token
    table is returned unchanged. *)
Definition CanonicalMIMEHeaderKey (s : string) : string :=
  if all_bytes validHeaderFieldByte s then canonicalize true s else s.

(** [http.Header] is [map[string][]string]. *)
Abbreviation Header := (gmap string (list string)).

(** [Header.Add]: append to the values of the canonical key. *)
Definition Add (h : Header) (key value : string) : Header :=
  let key := CanonicalMIMEHeaderKey key in
  <[key := default [] (h !! key) ++ [value]]> h.

(** [Header.Set]: replace the values of the canonical key. *)
Definition Set_ (h : Header) (key value : string) : Header :=
  <[CanonicalMIMEHeaderKey key := [value]]> h.

(** [Header.Get]: the first value of the canonical key, or the empty string. *)
Definition Get (h : Header) (key : string) : string :=
  match h !! CanonicalMIMEHeaderKey key with
  | Some (v :: _) => v
  | _ => EmptyString
  end.

(** The fields of [http.Request] that the report path sets or reads. *)
Record Request : Type := mkRequest {
  Method : string;
  URL : string;
  ReqHeader : Header;
  ReqBody : bytes
}.

(** The fields of [http.Response] that the report path reads.  [Body] is
    the response body as the transport hands it over. *)
Record Response : Type := mkResponse {
  StatusCode : Z;
  Body : io.ReadCloser
}.

(** [validMethod]: a non-empty token. *)
Definition validMethod (method : string) : bool :=
  (0 <? len method) && all_bytes validHeaderFieldByte method.

(** [http.NewRequest].  [url_Parse] is [url.Parse] reduced to its verdict
    ([None]: the URL parses).  The request starts with an empty header. *)
Definition NewRequest (url_Parse : string -> option error)
    (method url : string) (body : bytes) : result Request :=
  let method := match method with EmptyString => "GET" | _ => method end in
  if negb (validMethod method) then Err "net/http: invalid method"
  else
    match url_Parse url with
    | Some err => Err err
    | None => Ok (mkRequest method url ∅ body)
    end.

End http.

(** ** logrus *)

Module logrus.

Inductive Level : Type := ErrorLevel | WarnLevel.

(** The values the report path attaches to log entries. *)
Inductive Value : Type :=
| VError (err : error)
| VInt (n : Z)
| VRequest (req : http.Request)
| VResponse (res : http.Response).

(** A log entry as it is emitted: level, fields in the order they were
    attached, message. *)
Record Entry : Type := mkEntry {
  level : Level;
  Data : list (string * Value);
  Message : string
}.

(** [logrus.ErrorKey]. *)
Definition ErrorKey : string := "error".

End logrus.

(** ** Effects of the submitter *)

(** What [postCertIssueReport] does to the world, in order. *)
Inductive Event : Type :=
| EvLog (e : logrus.Entry)
| EvDo (req : http.Request)          (* (&http.Client{}).Do(req) *)
| EvReadAll (body : io.ReadCloser)   (* _, _ = ioutil.ReadAll(res.Body) *)
| EvClose (body : io.ReadCloser).    (* _ = res.Body.Close() *)


(** A computation yields a value and the events it caused. *)
Definition IO (A : Type) : Type := A * list Event.

Definition ret {A} (a : A) : IO A := (a, []).

Definition bind {A B} (m : IO A) (k : A -> IO B) : IO B :=
  let (a, t1) := m in let (b, t2) := k a in (b, t1 ++ t2).

Definition emit (e : Event) : IO unit := (tt, [e]).

Notation "x <- m ;; k" := (bind m (fun x => k))
  (at level 100, m at next level, right associativity).
Notation "m ;;; k" := (bind m (fun _ => k))
  (at level 100, right associativity).

(** The events of a computation. *)
Definition trace {A} (m : IO A) : list Event := snd m.

(** [logrus.WithField(key, v).Error(msg)] and [.Warn(msg)];
    [logrus.WithError(err)] is [WithField(ErrorKey, err)]. *)
Definition log_Error (key : string) (v : logrus.Value) (msg : string) : IO unit :=
  emit (EvLog (logrus.mkEntry logrus.ErrorLevel [(key, v)] msg)).

Definition log_Warn (key : string) (v : logrus.Value) (msg : string) : IO unit :=
  emit (EvLog (logrus.mkEntry logrus.WarnLevel [(key, v)] msg)).

(** The event of [logrus.WithError(err).Error(msg)]. *)
Definition entry_error (err : error) (msg : string) : Event :=
  EvLog (logrus.mkEntry logrus.ErrorLevel [(logrus.ErrorKey, logrus.VError err)] msg).

Section Submitter.

(** The package constant [Version] (the API version) is declared in
    another file of package pmapi. *)
Variable Version : Z.

(** [json.Marshal] on a report.  The branch on its error is part of the
    code, so the submitter is stated for any marshaller; [json.Marshal]
    below is the one of the Go runtime. *)
Variable Marshal : TLSReport -> result bytes.

(** The verdict of [url.Parse] inside [http.NewRequest]. *)
Variable url_Parse : string -> option error.

(** The outcome of [(&http.Client{}).Do] for a request: the transport. *)
Variable Do : http.Request -> result http.Response.

Definition client_Do (req : http.Request) : IO (result http.Response) :=
  emit (EvDo req) ;;; ret (Do req).

(** Lines 125 to 128: the four header assignments. *)
Definition set_headers (req : http.Request) (report : TLSReport)
    (userAgent : string) : http.Request :=
  let h := http.Add (http.ReqHeader req) "Content-Type" "application/json" in
  let h := http.Set_ h "User-Agent" userAgent in
  let h := http.Set_ h "x-pm-apiversion" (strconv.Itoa Version) in
  let h := http.Set_ h "x-pm-appversion" (AppVersion report) in
  http.mkRequest (http.Method req) (http.URL req) h (http.ReqBody req).

(** The request that reaches the transport for a payload [b]: what
    [http.NewRequest] returns, with the four headers. *)
Definition the_request (b : bytes) (report : TLSReport) (userAgent : string)
    : http.Request :=
  set_headers (http.mkRequest "POST" TLSReportURI ∅ b) report userAgent.

(** [postCertIssueReport].  Every [return] of the Go function is the end of
    a branch here; the function has no result. *)
Definition postCertIssueReport (report : TLSReport) (userAgent : string) : IO unit :=
  match Marshal report with
  | Err err =>
      log_Error logrus.ErrorKey (logrus.VError err) "Failed to marshal TLS report"
  | Ok b =>
      match http.NewRequest url_Parse "POST" TLSReportURI b with
      | Err err =>
          log_Error logrus.ErrorKey (logrus.VError err) "Failed to create http request"
      | Ok req =>
          let req := set_headers req report userAgent in
          log_Warn "request" (logrus.VRequest req) "Reporting TLS mismatch" ;;;
          r <- client_Do req ;;
          match r with
          | Err err =>
              log_Error logrus.ErrorKey (logrus.VError err) "Failed to report TLS mismatch"
          | Ok res =>
              log_Error "response" (logrus.VResponse res) "Reported TLS mismatch" ;;;
              (if negb (http.StatusCode res =? http.StatusOK)
               then log_Error "status" (logrus.VInt http.StatusOK) "StatusCode was not OK"
               else ret tt) ;;;
              emit (EvReadAll (http.Body res)) ;;;
              emit (EvClose (http.Body res))
          end
      end
  end.

End Submitter.

(** ** unicode/utf8 and unicode/utf16 *)

Module utf8.

Definition RuneError : Z := 65533.      (* U+FFFD *)
Definition RuneSelf : Z := 128.
Definition MaxRune : Z := 1114111.      (* U+10FFFF *)

(** The table [first]: for each lead byte, [as] (0xF0) for ASCII, [xx]
    (0xF1) for a byte that starts no rune, and otherwise the index of the
    accept range in the high nibble and the length in the low one. *)
Definition first (p0 : Z) : Z :=
  if p0 <? 128 then 240           (* as *)
  else if p0 <? 194 then 241      (* xx *)
  else if p0 <? 224 then 2        (* s1 *)
  else if p0 =? 224 then 19       (* s2 *)
  else if p0 <? 237 then 3        (* s3 *)
  else if p0 =? 237 then 35       (* s4 *)
  else if p0 <? 240 then 3        (* s3 *)
  else if p0 =? 240 then 52       (* s5 *)
  else if p0 <? 244 then 4        (* s6 *)
  else if p0 =? 244 then 68       (* s7 *)
  else 241.                       (* xx *)

(** [acceptRanges]: the bounds of the second byte. *)
Definition acceptRanges (i : Z) : Z * Z :=
  if i =? 0 then (128, 191)
  else if i =? 1 then (160, 191)
  else if i =? 2 then (128, 159)
  else if i =? 3 then (144, 191)
  else if i =? 4 then (128, 143)
  else (0, 0).

Definition locb : Z := 128.
Definition hicb : Z := 191.

(** [utf8.DecodeRune]: the rune at the start of [p] and its width in
    bytes; [(RuneError, 1)] for a byte sequence that is not UTF-8. *)
Definition DecodeRune (p : bytes) : Z * Z :=
  match p with
  | [] => (RuneError, 0)
  | c0 :: p1 =>
      let p0 := code c0 in
      let x := first p0 in
      if 240 <=? x then
        (if x =? 240 then p0 else RuneError, 1)
      else
        let sz := Z.land x 7 in
        let accept := acceptRanges (Z.shiftr x 4) in
        match p1 with
        | [] => (RuneError, 1)
        | c1 :: p2 =>
            let b1 := code c1 in
            if (b1 <? fst accept) || (snd accept <? b1) then (RuneError, 1)
            else if sz <=? 2 then
              (Z.lor (Z.shiftl (Z.land p0 31) 6) (Z.land b1 63), 2)
            else
              match p2 with
              | [] => (RuneError, 1)
              | c2 :: p3 =>
                  let b2 := code c2 in
                  if (b2 <? locb) || (hicb <? b2) then (RuneError, 1)
                  else if sz <=? 3 then
                    (Z.lor (Z.lor (Z.shiftl (Z.land p0 15) 12)
                                  (Z.shiftl (Z.land b1 63) 6))
                           (Z.land b2 63), 3)
                  else
                    match p3 with
                    | [] => (RuneError, 1)
                    | c3 :: _ =>
                        let b3 := code c3 in
                        if (b3 <? locb) || (hicb <? b3) then (RuneError, 1)
                        else
                          (Z.lor (Z.lor (Z.lor (Z.shiftl (Z.land p0 7) 18)
                                               (Z.shiftl (Z.land b1 63) 12))
                                        (Z.shiftl (Z.land b2 63) 6))
                                 (Z.land b3 63), 4)
                    end
              end
        end
  end.

(** [utf8.EncodeRune]: the bytes of a rune; a rune out of range or in the
    surrogate range is written as U+FFFD.  [chr] is the conversion
    [byte(...)]. *)
Definition EncodeRune (r : Z) : bytes :=
  let enc3 r :=
    [chr (Z.lor 224 (Z.shiftr r 12));
     chr (Z.lor 128 (Z.land (code (chr (Z.shiftr r 6))) 63));
     chr (Z.lor 128 (Z.land (code (chr r)) 63))] in
  if (0 <=? r) && (r <=? 127) then [chr r]
  else if (0 <=? r) && (r <=? 2047) then
    [chr (Z.lor 192 (Z.shiftr r 6));
     chr (Z.lor 128 (Z.land (code (chr r)) 63))]
  else if (r <? 0) || (MaxRune <? r) || ((55296 <=? r) && (r <=? 57343)) then
    enc3 RuneError
  else if r <=? 65535 then enc3 r
  else
    [chr (Z.lor 240 (Z.shiftr r 18));
     chr (Z.lor 128 (Z.land (code (chr (Z.shiftr r 12))) 63));
     chr (Z.lor 128 (Z.land (code (chr (Z.shiftr r 6))) 63));
     chr (Z.lor 128 (Z.land (code (chr r)) 63))].

(** [utf8.ValidString]: no position decodes to [(RuneError, 1)].  [skip]
    counts the bytes still to pass over of the rune decoded last. *)
Fixpoint valid_from (skip : nat) (p : bytes) : bool :=
  match p with
  | [] => true
  | c :: p' =>
      match skip with
      | S k => valid_from k p'
      | O =>
          let (r, size) := DecodeRune p in
          if (r =? RuneError) && (size =? 1) then false
          else valid_from (Z.to_nat size - 1) p'
      end
  end.

Definition ValidString (s : string) : bool := valid_from 0 (bytes_of s).

(** A string coerced to valid UTF-8, as [encoding/json] documents it: each
    byte that starts no rune becomes U+FFFD, everything else stays. *)
Fixpoint coerce_from (skip : nat) (p : bytes) : bytes :=
  match p with
  | [] => []
  | c :: p' =>
      match skip with
      | S k => c :: coerce_from k p'
      | O =>
          let (r, size) := DecodeRune p in
          if (r =? RuneError) && (size =? 1) then
            chr 239 :: chr 191 :: chr 189 :: coerce_from 0 p'
          else c :: coerce_from (Z.to_nat size - 1) p'
      end
  end.

Definition ToValidUTF8 (s : string) : string :=
  string_of (coerce_from 0 (bytes_of s)).

End utf8.

Module utf16.

Definition IsSurrogate (r : Z) : bool := (55296 <=? r) && (r <? 57344).

(** [utf16.DecodeRune]: the code point of a surrogate pair, U+FFFD for
    anything that is not one. *)
Definition DecodeRune (r1 r2 : Z) : Z :=
  if (55296 <=? r1) && (r1 <? 56320) && (56320 <=? r2) && (r2 <? 57344)
  then Z.lor (Z.shiftl (r1 - 55296) 10) (r2 - 56320) + 65536
  else 65533.

End utf16.

(** ** encoding/json, for [TLSReport] *)

(** The encoder and the decoder of the Go release the repository was
    written for, cut down to the kinds of the ten fields: string, int,
    bool and [[]string].  Bytes are named by their codes: 34 is the double
    quote, 44 the comma, 45 the minus sign, 48 to 57 the digits, 58 the
    colon, 91 and 93 the brackets, 92 the backslash, 123 and 125 the
    braces. *)

Module json.

(** *** Encoding *)

(** [hex]: the digits of the escapes. *)
Definition hex (n : Z) : ascii :=
  nth (Z.to_nat n) (bytes_of "0123456789abcdef") (chr 48).

(** [htmlSafeSet]: the ASCII bytes written as they are when HTML escaping
    is on, which it is for [Marshal]. *)
Definition htmlSafe (b : Z) : bool :=
  (32 <=? b) && (b <? 128) &&
  negb ((b =? 34) || (b =? 92) || (b =? 60) || (b =? 62) || (b =? 38)).

Definition backslash : ascii := chr 92.

(** The switch of [encodeState.string] on an ASCII byte outside the safe
    set: a backslash, and then the byte itself for a backslash or a quote,
    a letter for newline, carriage return and tab, and [u00] with two hex
    digits for the rest (the control bytes and, with HTML escaping, the
    three bytes [<], [>] and [&]). *)
Definition escape (c : ascii) : bytes :=
  let b := code c in
  backslash ::
  (if (b =? 92) || (b =? 34) then [c]
   else if b =? 10 then bytes_of "n"
   else if b =? 13 then bytes_of "r"
   else if b =? 9 then bytes_of "t"
   else bytes_of "u00" ++ [hex (Z.shiftr b 4); hex (Z.land b 15)]).

(** The loop of [encodeState.string] between the quotes.  [skip] counts
    the bytes still to pass over of the rune handled last ([i += size]).
    An ASCII byte outside the safe set is escaped; a byte that starts no
    valid rune is replaced by the escape of U+FFFD; U+2028 and U+2029 are
    escaped; every other rune is copied. *)
Fixpoint string_body (skip : nat) (s : bytes) : bytes :=
  match s with
  | [] => []
  | c :: s' =>
      match skip with
      | S k => string_body k s'
      | O =>
          let b := code c in
          if b <? utf8.RuneSelf then
            if htmlSafe b then c :: string_body 0 s'
            else escape c ++ string_body 0 s'
          else
            let (r, size) := utf8.DecodeRune s in
            if (r =? utf8.RuneError) && (size =? 1) then
              backslash :: bytes_of "ufffd" ++ string_body 0 s'
            else if (r =? 8232) || (r =? 8233) then
              backslash :: bytes_of "u202" ++ [hex (Z.land r 15)]
              ++ string_body (Z.to_nat size - 1) s'
            else
              take (Z.to_nat size) s ++ string_body (Z.to_nat size - 1) s'
      end
  end.

(** [encodeState.string]. *)
Definition encode_string (s : string) : bytes :=
  dquote :: string_body 0 (bytes_of s) ++ [dquote].

Definition encode_int (n : Z) : bytes := bytes_of (strconv.Itoa n).

Definition encode_bool (b : bool) : bytes :=
  bytes_of (if b then "true" else "false").

(** The elements of an array or the members of an object, with commas. *)
Fixpoint join_comma (l : list bytes) : bytes :=
  match l with
  | [] => []
  | [x] => x
  | x :: l' => x ++ chr 44 :: join_comma l'
  end.

(** A [[]string]: [null] for the nil slice, an array otherwise. *)
Definition encode_slice (v : slice string) : bytes :=
  match v with
  | None => bytes_of "null"
  | Some l => chr 91 :: join_comma (map encode_string l) ++ [chr 93]
  end.

(** The JSON names of the ten fields, from the struct tags, in the order
    of the struct. *)
Definition fieldNames : list string :=
  ["date-time"; "hostname"; "port"; "effective-expiration-date";
   "include-subdomains"; "noted-hostname"; "served-certificate-chain";
   "validated-certificate-chain"; "known-pins"; "app-version"].

(** The encoded value of each field, in the order of the struct. *)
Definition fieldValues (r : TLSReport) : list bytes :=
  [encode_string (DateTime r); encode_string (Hostname r);
   encode_int (Port r); encode_string (EffectiveExpirationDate r);
   encode_bool (IncludeSubdomains r); encode_string (NotedHostname r);
   encode_slice (ServedCertificateChain r);
   encode_slice (ValidatedCertificateChain r);
   encode_slice (KnownPins r); encode_string (AppVersion r)].

(** One member: the quoted name, a colon, the value. *)
Definition member (name : string) (v : bytes) : bytes :=
  dquote :: bytes_of name ++ dquote :: chr 58 :: v.

(** The struct encoder. *)
Definition encode_struct (r : TLSReport) : bytes :=
  chr 123 :: join_comma (zip_with member fieldNames (fieldValues r)) ++ [chr 125].

(** [json.Marshal] on a [TLSReport]: no field has a type that the encoder
    refuses, so the error is always nil. *)
Definition Marshal (r : TLSReport) : result bytes := Ok (encode_struct r).

(** *** Scanning *)

(** A JSON text as the scanner sees it. *)
Inductive value : Type :=
| JNull
| JBool (b : bool)
| JNumber (lit : bytes)               (* the literal, not yet converted *)
| JString (s : bytes)                 (* unquoted *)
| JArray (elems : list value)
| JObject (members : list (bytes * value)).

(** [isSpace]. *)
Definition isSpace (c : ascii) : bool :=
  let b := code c in (b =? 32) || (b =? 9) || (b =? 13) || (b =? 10).

Fixpoint skip_space (s : bytes) : bytes :=
  match s with
  | c :: s' => if isSpace c then skip_space s' else s
  | [] => []
  end.

Definition isDigit (c : ascii) : bool := (48 <=? code c) && (code c <=? 57).

Definition isHex (c : ascii) : bool :=
  let b := code c in
  ((48 <=? b) && (b <=? 57)) || ((97 <=? b) && (b <=? 102)) ||
  ((65 <=? b) && (b <=? 70)).

(** [stateInString] and its escape states, after the opening quote: the
    bytes up to the closing quote, and what follows it.  A control byte, an
    unknown escape and a [\u] without four hex digits are syntax errors. *)
Fixpoint scan_string (s : bytes) : option (bytes * bytes) :=
  match s with
  | [] => None
  | c :: s1 =>
      let b := code c in
      if b =? 34 then Some ([], s1)
      else if b =? 92 then
        match s1 with
        | [] => None
        | e :: s2 =>
            let x := code e in
            if existsb (Z.eqb x) [98; 102; 110; 114; 116; 92; 47; 34] then
              match scan_string s2 with
              | Some (raw, rest) => Some (c :: e :: raw, rest)
              | None => None
              end
            else if x =? 117 then
              match s2 with
              | h1 :: h2 :: h3 :: h4 :: s6 =>
                  if isHex h1 && isHex h2 && isHex h3 && isHex h4 then
                    match scan_string s6 with
                    | Some (raw, rest) =>
                        Some (c :: e :: h1 :: h2 :: h3 :: h4 :: raw, rest)
                    | None => None
                    end
                  else None
              | _ => None
              end
            else None
        end
      else if b <? 32 then None
      else
        match scan_string s1 with
        | Some (raw, rest) => Some (c :: raw, rest)
        | None => None
        end
  end.

(** A run of digits and what follows it. *)
Fixpoint scan_digits (s : bytes) : bytes * bytes :=
  match s with
  | c :: s' =>
      if isDigit c then let (ds, rest) := scan_digits s' in (c :: ds, rest)
      else ([], s)
  | [] => ([], [])
  end.

(** [stateE], [stateESign], [stateE0]: an optional exponent. *)
Definition scan_exponent (lit s : bytes) : option (bytes * bytes) :=
  match s with
  | e :: s1 =>
      if (code e =? 101) || (code e =? 69) then
        let (sign, s2) :=
          match s1 with
          | c :: s2 => if (code c =? 43) || (code c =? 45) then ([c], s2) else ([], s1)
          | [] => ([], s1)
          end in
        match scan_digits s2 with
        | ([], _) => None
        | (ds, rest) => Some (lit ++ e :: sign ++ ds, rest)
        end
      else Some (lit, s)
  | [] => Some (lit, s)
  end.

(** [stateDot], [stateDot0]: an optional fraction, then the exponent. *)
Definition scan_fraction (lit s : bytes) : option (bytes * bytes) :=
  match s with
  | d :: s1 =>
      if code d =? 46 then
        match scan_digits s1 with
        | ([], _) => None
        | (ds, rest) => scan_exponent (lit ++ d :: ds) rest
        end
      else scan_exponent lit s
  | [] => scan_exponent lit s
  end.

(** [stateNeg], [state0], [state1]: a number literal and what follows. *)
Definition scan_number (s : bytes) : option (bytes * bytes) :=
  let (sign, s1) :=
    match s with
    | c :: s' => if code c =? 45 then ([c], s') else ([], s)
    | [] => ([], s)
    end in
  match s1 with
  | c :: s2 =>
      if code c =? 48 then scan_fraction (sign ++ [c]) s2
      else if isDigit c then
        let (ds, rest) := scan_digits s2 in scan_fraction (sign ++ c :: ds) rest
      else None
  | [] => None
  end.

(** [getu4]: the code unit of a [\uXXXX] at the start of [s], or -1. *)
Definition hexval (c : ascii) : option Z :=
  let b := code c in
  if (48 <=? b) && (b <=? 57) then Some (b - 48)
  else if (97 <=? b) && (b <=? 102) then Some (b - 97 + 10)
  else if (65 <=? b) && (b <=? 70) then Some (b - 65 + 10)
  else None.

Definition getu4 (s : bytes) : Z :=
  match s with
  | c0 :: c1 :: h1 :: h2 :: h3 :: h4 :: _ =>
      if (code c0 =? 92) && (code c1 =? 117) then
        match hexval h1, hexval h2, hexval h3, hexval h4 with
        | Some a, Some b, Some c, Some d => ((a * 16 + b) * 16 + c) * 16 + d
        | _, _, _, _ => -1
        end
      else -1
  | _ => -1
  end.

(** The first loop of [unquoteBytes]: the longest prefix without a
    backslash, a quote, a control byte or a byte that starts no rune, and
    the rest. *)
Fixpoint split_usual (skip : nat) (s : bytes) : bytes * bytes :=
  match s with
  | [] => ([], [])
  | c :: s' =>
      match skip with
      | S k => let (p, r) := split_usual k s' in (c :: p, r)
      | O =>
          let b := code c in
          if (b =? 92) || (b =? 34) || (b <? 32) then ([], s)
          else if b <? utf8.RuneSelf then
            let (p, r) := split_usual 0 s' in (c :: p, r)
          else
            let (rr, size) := utf8.DecodeRune s in
            if (rr =? utf8.RuneError) && (size =? 1) then ([], s)
            else let (p, r) := split_usual (Z.to_nat size - 1) s' in (c :: p, r)
      end
  end.

(** The second loop of [unquoteBytes]: escapes are replaced, and what is
    not UTF-8 is coerced to U+FFFD.  [skip] counts the bytes still to pass
    over of the escape or rune handled last. *)
Fixpoint unquote_rest (skip : nat) (s : bytes) : option bytes :=
  match s with
  | [] => Some []
  | c :: s' =>
      match skip with
      | S k => unquote_rest k s'
      | O =>
          let b := code c in
          if b =? 92 then
            match s' with
            | [] => None
            | e :: _ =>
                let x := code e in
                let simple (out : ascii) :=
                  match unquote_rest 1 s' with
                  | Some t => Some (out :: t)
                  | None => None
                  end in
                if existsb (Z.eqb x) [34; 92; 47; 39] then simple e
                else if x =? 98 then simple (chr 8)
                else if x =? 102 then simple (chr 12)
                else if x =? 110 then simple (chr 10)
                else if x =? 114 then simple (chr 13)
                else if x =? 116 then simple (chr 9)
                else if x =? 117 then
                  let rr := getu4 s in
                  if rr <? 0 then None
                  else
                    let rr1 := getu4 (drop 6 s) in
                    let dec := utf16.DecodeRune rr rr1 in
                    if utf16.IsSurrogate rr && negb (dec =? 65533) then
                      match unquote_rest 11 s' with
                      | Some t => Some (utf8.EncodeRune dec ++ t)
                      | None => None
                      end
                    else
                      let rr := if utf16.IsSurrogate rr then 65533 else rr in
                      match unquote_rest 5 s' with
                      | Some t => Some (utf8.EncodeRune rr ++ t)
                      | None => None
                      end
                else None
            end
          else if (b =? 34) || (b <? 32) then None
          else if b <? utf8.RuneSelf then
            match unquote_rest 0 s' with
            | Some t => Some (c :: t)
            | None => None
            end
          else
            let (rr, size) := utf8.DecodeRune s in
            match unquote_rest (Z.to_nat size - 1) s' with
            | Some t => Some (utf8.EncodeRune rr ++ t)
            | None => None
            end
      end
  end.

(** [unquoteBytes], on the bytes between the quotes. *)
Definition unquote (s : bytes) : option bytes :=
  match split_usual 0 s with
  | (_, []) => Some s
  | (p, r) =>
      match unquote_rest 0 r with
      | Some t => Some (p ++ t)
      | None => None
      end
  end.

(** A string literal after its opening quote: scanned, then unquoted. *)
Definition parse_string (s : bytes) : option (bytes * bytes) :=
  match scan_string s with
  | Some (raw, rest) =>
      match unquote raw with
      | Some t => Some (t, rest)
      | None => None
      end
  | None => None
  end.

(** What follows a given run of bytes, when the text starts with it. *)
Fixpoint strip_prefix (p s : bytes) : option bytes :=
  match p, s with
  | [], _ => Some s
  | c :: p', d :: s' => if code c =? code d then strip_prefix p' s' else None
  | _ :: _, [] => None
  end.

(** [stateT], [stateF], [stateN] and the states behind them: the three
    literal names. *)
Definition parse_name (s : bytes) : option (value * bytes) :=
  match strip_prefix (bytes_of "true") s with
  | Some rest => Some (JBool true, rest)
  | None =>
      match strip_prefix (bytes_of "false") s with
      | Some rest => Some (JBool false, rest)
      | None =>
          match strip_prefix (bytes_of "null") s with
          | Some rest => Some (JNull, rest)
          | None => None
          end
      end
  end.

(** One value and what follows it.  [fuel] bounds the nesting and the
    number of elements; [parse] gives more than any text can use. *)
Fixpoint parse_value (fuel : nat) (s : bytes) : option (value * bytes) :=
  match fuel with
  | O => None
  | S fuel =>
      match skip_space s with
      | [] => None
      | c :: s1 =>
          let b := code c in
          if b =? 123 then
            match skip_space s1 with
            | [] => None
            | c1 :: s2 =>
                if code c1 =? 125 then Some (JObject [], s2)
                else
                  match parse_members fuel (c1 :: s2) with
                  | Some (ms, rest) => Some (JObject ms, rest)
                  | None => None
                  end
            end
          else if b =? 91 then
            match skip_space s1 with
            | [] => None
            | c1 :: s2 =>
                if code c1 =? 93 then Some (JArray [], s2)
                else
                  match parse_elements fuel (c1 :: s2) with
                  | Some (vs, rest) => Some (JArray vs, rest)
                  | None => None
                  end
            end
          else if b =? 34 then
            match parse_string s1 with
            | Some (t, rest) => Some (JString t, rest)
            | None => None
            end
          else if (b =? 45) || isDigit c then
            match scan_number (c :: s1) with
            | Some (lit, rest) => Some (JNumber lit, rest)
            | None => None
            end
          else parse_name (c :: s1)
      end
  end

with parse_elements (fuel : nat) (s : bytes) : option (list value * bytes) :=
  match fuel with
  | O => None
  | S fuel =>
      match parse_value fuel s with
      | None => None
      | Some (v, rest) =>
          match skip_space rest with
          | [] => None
          | c :: s1 =>
              if code c =? 44 then
                match parse_elements fuel s1 with
                | Some (vs, rest') => Some (v :: vs, rest')
                | None => None
                end
              else if code c =? 93 then Some ([v], s1)
              else None
          end
      end
  end

with parse_members (fuel : nat) (s : bytes) : option (list (bytes * value) * bytes) :=
  match fuel with
  | O => None
  | S fuel =>
      match skip_space s with
      | [] => None
      | q :: s1 =>
          if code q =? 34 then
            match parse_string s1 with
            | None => None
            | Some (key, s2) =>
                match skip_space s2 with
                | [] => None
                | colon :: s3 =>
                    if code colon =? 58 then
                      match parse_value fuel s3 with
                      | None => None
                      | Some (v, s4) =>
                          match skip_space s4 with
                          | [] => None
                          | c :: s5 =>
                              if code c =? 44 then
                                match parse_members fuel s5 with
                                | Some (ms, rest) => Some ((key, v) :: ms, rest)
                                | None => None
                                end
                              else if code c =? 125 then Some ([(key, v)], s5)
                              else None
                          end
                      end
                    else None
                end
            end
          else None
      end
  end.

(** [checkValid]: one value, with nothing but space after it. *)
Definition parse (data : bytes) : option value :=
  match parse_value (2 * length data + 2) data with
  | Some (v, rest) =>
      match skip_space rest with
      | [] => Some v
      | _ :: _ => None
      end
  | None => None
  end.

(** *** Decoding into a [TLSReport] *)

(** What [Unmarshal] can return: a [SyntaxError] from [checkValid], or the
    first [UnmarshalTypeError] met while storing ([Value] describes the
    JSON value that did not fit). *)
Inductive UnmarshalError : Type :=
| SyntaxError
| UnmarshalTypeError (Value : string).

(** [caseMask]: clears the bit that tells the two cases of a letter apart. *)
Definition caseMask : Z := 223.

Definition upper_of (c : ascii) : Z := Z.land (code c) caseMask.

(** The fold functions of fold.go.  [s] is the name of the field, [t] the
    key read from the text. *)
Fixpoint simpleLetterEqualFold (s t : bytes) : bool :=
  match s, t with
  | [], [] => true
  | sb :: s', tb :: t' => (upper_of sb =? upper_of tb) && simpleLetterEqualFold s' t'
  | _, _ => false
  end.

Fixpoint asciiEqualFold (s t : bytes) : bool :=
  match s, t with
  | [], [] => true
  | sb :: s', tb :: t' =>
      if code sb =? code tb then asciiEqualFold s' t'
      else if (65 <=? upper_of sb) && (upper_of sb <=? 90) then
        (upper_of sb =? upper_of tb) && asciiEqualFold s' t'
      else false
  | _, _ => false
  end.

(** [equalFoldRight] also lets the Kelvin sign (U+212A) stand for a [k]
    and the long s (U+017F) for an [s]. *)
Fixpoint equalFoldRight (s t : bytes) : bool :=
  match s with
  | [] => match t with [] => true | _ :: _ => false end
  | sb :: s' =>
      match t with
      | [] => false
      | tb :: t' =>
          if code tb <? utf8.RuneSelf then
            if code sb =? code tb then equalFoldRight s' t'
            else if (65 <=? upper_of sb) && (upper_of sb <=? 90) then
              (upper_of sb =? upper_of tb) && equalFoldRight s' t'
            else false
          else
            let (tr, size) := utf8.DecodeRune t in
            let ok :=
              if upper_of sb =? 83 then tr =? 383
              else if upper_of sb =? 75 then tr =? 8490
              else false in
            ok && equalFoldRight s' (drop (Z.to_nat size) t)
      end
  end.

Inductive folder : Type :=
| BytesEqualFold | EqualFoldRight | AsciiEqualFold | SimpleLetterEqualFold.

(** [foldFunc]: the cheapest fold function that is right for a name. *)
Definition foldFunc (s : bytes) : folder :=
  if existsb (fun c => utf8.RuneSelf <=? code c) s then BytesEqualFold
  else if existsb (fun c => (upper_of c =? 75) || (upper_of c =? 83)) s
  then EqualFoldRight
  else if existsb (fun c => (upper_of c <? 65) || (90 <? upper_of c)) s
  then AsciiEqualFold
  else SimpleLetterEqualFold.

(** [bytes.EqualFold] is the choice for a name with a byte outside ASCII
    only; none of the ten names has one, and it is not modelled. *)
Definition equalFold (name key : bytes) : bool :=
  match foldFunc name with
  | BytesEqualFold => false
  | EqualFoldRight => equalFoldRight name key
  | AsciiEqualFold => asciiEqualFold name key
  | SimpleLetterEqualFold => simpleLetterEqualFold name key
  end.

(** The position of the first name that satisfies [p]. *)
Fixpoint find_index (p : bytes -> bool) (names : list string) (i : nat) : option nat :=
  match names with
  | [] => None
  | n :: names' => if p (bytes_of n) then Some i else find_index p names' (S i)
  end.

(** The field a key stands for: the one with exactly that name, or else
    the first one that equals it under its fold function. *)
Definition find_field (key : bytes) : option nat :=
  match find_index (fun n => bool_decide (n = key)) fieldNames 0 with
  | Some i => Some i
  | None => find_index (fun n => equalFold n key) fieldNames 0
  end.

(** The decoder while it fills a report.  A slice is a window on a backing
    array: [spare] holds, for each slice field, the elements of the array
    behind its length, which a later array for the same key uncovers. *)
Record decodeState : Type := mkState {
  target : TLSReport;
  spareServed : list string;
  spareValidated : list string;
  spareKnown : list string;
  savedError : option UnmarshalError
}.

(** [saveError]: the first error is the one reported. *)
Definition saveError (old new : option UnmarshalError) : option UnmarshalError :=
  match old with
  | Some _ => old
  | None => new
  end.

(** [literalStore] and the default cases of [array] and [object] for a
    field of kind string: null stores nothing. *)
Definition store_string (v : value) (old : string) : string * option UnmarshalError :=
  match v with
  | JString s => (string_of s, None)
  | JNull => (old, None)
  | JBool _ => (old, Some (UnmarshalTypeError "bool"))
  | JNumber _ => (old, Some (UnmarshalTypeError "number"))
  | JArray _ => (old, Some (UnmarshalTypeError "array"))
  | JObject _ => (old, Some (UnmarshalTypeError "object"))
  end.

(** For a field of kind int: the literal goes through [strconv.ParseInt]. *)
Definition store_int (v : value) (old : Z) : Z * option UnmarshalError :=
  match v with
  | JNumber lit =>
      match strconv.ParseInt (string_of lit) with
      | (n, None) => (n, None)
      | (_, Some _) =>
          (old, Some (UnmarshalTypeError (String.append "number " (string_of lit))))
      end
  | JNull => (old, None)
  | JString _ => (old, Some (UnmarshalTypeError "string"))
  | JBool _ => (old, Some (UnmarshalTypeError "bool"))
  | JArray _ => (old, Some (UnmarshalTypeError "array"))
  | JObject _ => (old, Some (UnmarshalTypeError "object"))
  end.

(** For a field of kind bool. *)
Definition store_bool (v : value) (old : bool) : bool * option UnmarshalError :=
  match v with
  | JBool b => (b, None)
  | JNull => (old, None)
  | JString _ => (old, Some (UnmarshalTypeError "string"))
  | JNumber _ => (old, Some (UnmarshalTypeError "number"))
  | JArray _ => (old, Some (UnmarshalTypeError "array"))
  | JObject _ => (old, Some (UnmarshalTypeError "object"))
  end.

(** The loop of [decodeState.array] on a slice with backing array [b] and
    length [n], at element [i]: the array grows when [i] reaches its
    capacity, the length when [i] reaches it, and the element is decoded
    in place.  The result is the array, the length and the final [i]. *)
Fixpoint store_elements (es : list value) (i : nat) (b : list string) (n : nat)
    (err : option UnmarshalError) : list string * nat * nat * option UnmarshalError :=
  match es with
  | [] => (b, n, i, err)
  | v :: es' =>
      let cap := length b in
      let b :=
        if (cap <=? i)%nat then
          let newcap := (cap + cap / 2)%nat in
          let newcap := if (newcap <? 4)%nat then 4%nat else newcap in
          take n b ++ replicate (newcap - n)%nat EmptyString
        else b in
      let n := if (n <=? i)%nat then S i else n in
      let (x, e) := store_string v (nth i b EmptyString) in
      store_elements es' (S i) (<[i := x]> b) n (saveError err e)
  end.

(** For a field of kind [[]string], with the spare elements behind it. *)
Definition store_slice (v : value) (old : slice string) (spare : list string)
    : slice string * list string * option UnmarshalError :=
  match v with
  | JNull => (None, [], None)
  | JArray es =>
      let visible := default [] old in
      match store_elements es 0 (visible ++ spare) (length visible) None with
      | (b, n, i, err) =>
          let n := if (i <? n)%nat then i else n in
          if (i =? 0)%nat then (Some [], [], err)
          else (Some (take n b), drop n b, err)
      end
  | JString _ => (old, spare, Some (UnmarshalTypeError "string"))
  | JBool _ => (old, spare, Some (UnmarshalTypeError "bool"))
  | JNumber _ => (old, spare, Some (UnmarshalTypeError "number"))
  | JObject _ => (old, spare, Some (UnmarshalTypeError "object"))
  end.

(** [d.value] on field number [i] of the struct. *)
Definition store_field (i : nat) (v : value) (st : decodeState) : decodeState :=
  let r := target st in
  let upd (r' : TLSReport) (e : option UnmarshalError) :=
    mkState r' (spareServed st) (spareValidated st) (spareKnown st)
            (saveError (savedError st) e) in
  match i with
  | 0%nat => let (x, e) := store_string v (DateTime r) in
      upd (mkTLSReport x (Hostname r) (Port r) (EffectiveExpirationDate r)
             (IncludeSubdomains r) (NotedHostname r) (ServedCertificateChain r)
             (ValidatedCertificateChain r) (KnownPins r) (AppVersion r)) e
  | 1%nat => let (x, e) := store_string v (Hostname r) in
      upd (mkTLSReport (DateTime r) x (Port r) (EffectiveExpirationDate r)
             (IncludeSubdomains r) (NotedHostname r) (ServedCertificateChain r)
             (ValidatedCertificateChain r) (KnownPins r) (AppVersion r)) e
  | 2%nat => let (x, e) := store_int v (Port r) in
      upd (mkTLSReport (DateTime r) (Hostname r) x (EffectiveExpirationDate r)
             (IncludeSubdomains r) (NotedHostname r) (ServedCertificateChain r)
             (ValidatedCertificateChain r) (KnownPins r) (AppVersion r)) e
  | 3%nat => let (x, e) := store_string v (EffectiveExpirationDate r) in
      upd (mkTLSReport (DateTime r) (Hostname r) (Port r) x
             (IncludeSubdomains r) (NotedHostname r) (ServedCertificateChain r)
             (ValidatedCertificateChain r) (KnownPins r) (AppVersion r)) e
  | 4%nat => let (x, e) := store_bool v (IncludeSubdomains r) in
      upd (mkTLSReport (DateTime r) (Hostname r) (Port r) (EffectiveExpirationDate r)
             x (NotedHostname r) (ServedCertificateChain r)
             (ValidatedCertificateChain r) (KnownPins r) (AppVersion r)) e
  | 5%nat => let (x, e) := store_string v (NotedHostname r) in
      upd (mkTLSReport (DateTime r) (Hostname r) (Port r) (EffectiveExpirationDate r)
             (IncludeSubdomains r) x (ServedCertificateChain r)
             (ValidatedCertificateChain r) (KnownPins r) (AppVersion r)) e
  | 6%nat =>
      match store_slice v (ServedCertificateChain r) (spareServed st) with
      | (x, sp, e) =>
          mkState (mkTLSReport (DateTime r) (Hostname r) (Port r)
                     (EffectiveExpirationDate r) (IncludeSubdomains r)
                     (NotedHostname r) x (ValidatedCertificateChain r)
                     (KnownPins r) (AppVersion r))
                  sp (spareValidated st) (spareKnown st)
                  (saveError (savedError st) e)
      end
  | 7%nat =>
      match store_slice v (ValidatedCertificateChain r) (spareValidated st) with
      | (x, sp, e) =>
          mkState (mkTLSReport (DateTime r) (Hostname r) (Port r)
                     (EffectiveExpirationDate r) (IncludeSubdomains r)
                     (NotedHostname r) (ServedCertificateChain r) x
                     (KnownPins r) (AppVersion r))
                  (spareServed st) sp (spareKnown st)
                  (saveError (savedError st) e)
      end
  | 8%nat =>
      match store_slice v (KnownPins r) (spareKnown st) with
      | (x, sp, e) =>
          mkState (mkTLSReport (DateTime r) (Hostname r) (Port r)
                     (EffectiveExpirationDate r) (IncludeSubdomains r)
                     (NotedHostname r) (ServedCertificateChain r)
                     (ValidatedCertificateChain r) x (AppVersion r))
                  (spareServed st) (spareValidated st) sp
                  (saveError (savedError st) e)
      end
  | 9%nat => let (x, e) := store_string v (AppVersion r) in
      upd (mkTLSReport (DateTime r) (Hostname r) (Port r) (EffectiveExpirationDate r)
             (IncludeSubdomains r) (NotedHostname r) (ServedCertificateChain r)
             (ValidatedCertificateChain r) (KnownPins r) x) e
  | _ => st
  end.

(** The loop of [decodeState.object] on a struct: each member in the order
    of the text; a key that names no field is passed over. *)
Fixpoint store_members (ms : list (bytes * value)) (st : decodeState) : decodeState :=
  match ms with
  | [] => st
  | (key, v) :: ms' =>
      store_members ms'
        (match find_field key with
         | Some i => store_field i v st
         | None => st
         end)
  end.

(** [d.value] on the struct itself. *)
Definition store_struct (v : value) (st : decodeState) : decodeState :=
  let fail (what : string) :=
    mkState (target st) (spareServed st) (spareValidated st) (spareKnown st)
            (saveError (savedError st) (Some (UnmarshalTypeError what))) in
  match v with
  | JObject ms => store_members ms st
  | JNull => st
  | JArray _ => fail "array"
  | JString _ => fail "string"
  | JNumber _ => fail "number"
  | JBool _ => fail "bool"
  end.

(** The zero value of [TLSReport]. *)
Definition zero : TLSReport :=
  mkTLSReport EmptyString EmptyString 0 EmptyString false EmptyString
              None None None EmptyString.

(** [var r TLSReport; err := json.Unmarshal(data, &r)]: the report and the
    error.  A text that is not JSON leaves the report untouched. *)
Definition Unmarshal (data : bytes) : TLSReport * option UnmarshalError :=
  match parse data with
  | None => (zero, Some SyntaxError)
  | Some v =>
      let st := store_struct v (mkState zero [] [] [] None) in
      (target st, savedError st)
  end.

End json.

(** ** Views of the model used by the statements *)

(** The digits of a string, read as a number in front of which [k] stands. *)
Fixpoint dval (s : string) (k : Z) : Z :=
  match s with
  | EmptyString => k
  | String c s' => dval s' (k * 10 + (code c - 48))
  end.


(** A string of decimal digits. *)
Fixpoint all_digits (s : string) : bool :=
  match s with
  | EmptyString => true
  | String c s' => (48 <=? code c) && (code c <=? 57) && all_digits s'
  end.

(** What can follow a number in an object or an array. *)
Definition ends_number (c : ascii) : Prop := code c = 44 \/ code c = 125 \/ code c = 93.

(** The value that the parser builds for an encoded string. *)
Definition parsed_string (s : string) : json.value :=
  json.JString (utf8.coerce_from 0 (bytes_of s)).

(** The value that the parser builds for an encoded slice. *)
Definition parsed_slice (v : slice string) : json.value :=
  match v with
  | None => json.JNull
  | Some l => json.JArray (map parsed_string l)
  end.

(** The members that the parser builds for a report. *)
Definition parsed_members (r : TLSReport) : list (bytes * json.value) :=
  [(bytes_of "date-time", parsed_string (DateTime r));
   (bytes_of "hostname", parsed_string (Hostname r));
   (bytes_of "port", json.JNumber (json.encode_int (Port r)));
   (bytes_of "effective-expiration-date", parsed_string (EffectiveExpirationDate r));
   (bytes_of "include-subdomains", json.JBool (IncludeSubdomains r));
   (bytes_of "noted-hostname", parsed_string (NotedHostname r));
   (bytes_of "served-certificate-chain", parsed_slice (ServedCertificateChain r));
   (bytes_of "validated-certificate-chain", parsed_slice (ValidatedCertificateChain r));
   (bytes_of "known-pins", parsed_slice (KnownPins r));
   (bytes_of "app-version", parsed_string (AppVersion r))].

(** The number of elements in the three slices of a report. *)
Definition elements (r : TLSReport) : nat :=
  length (default [] (ServedCertificateChain r))
  + length (default [] (ValidatedCertificateChain r))
  + length (default [] (KnownPins r)).

(** The report with every string coerced to valid UTF-8. *)
Definition coerce_report (r : TLSReport) : TLSReport :=
  mkTLSReport (utf8.ToValidUTF8 (DateTime r)) (utf8.ToValidUTF8 (Hostname r))
    (Port r) (utf8.ToValidUTF8 (EffectiveExpirationDate r))
    (IncludeSubdomains r) (utf8.ToValidUTF8 (NotedHostname r))
    (option_map (map utf8.ToValidUTF8) (ServedCertificateChain r))
    (option_map (map utf8.ToValidUTF8) (ValidatedCertificateChain r))
    (option_map (map utf8.ToValidUTF8) (KnownPins r))
    (utf8.ToValidUTF8 (AppVersion r)).

(** The strings of a report other than [DateTime] are valid UTF-8. *)
Definition valid_utf8 (r : TLSReport) : bool :=
  utf8.ValidString (Hostname r) &&
  utf8.ValidString (EffectiveExpirationDate r) &&
  utf8.ValidString (NotedHostname r) &&
  forallb utf8.ValidString (default [] (ServedCertificateChain r)) &&
  forallb utf8.ValidString (default [] (ValidatedCertificateChain r)) &&
  forallb utf8.ValidString (default [] (KnownPins r)) &&
  utf8.ValidString (AppVersion r).

(** A string that starts with a minus sign. *)
Definition starts_with_minus (s : string) : bool :=
  match s with
  | EmptyString => false
  | String c _ => code c =? 45
  end.

(** A sign byte: [+] or [-]. *)
Definition is_sign (c : ascii) : bool := (code c =? 43) || (code c =? 45).

(** A decimal numeral as [strconv.Atoi] reads one: an optional sign in
    front of at least one digit. *)
Definition is_decimal (s : string) : bool :=
  match s with
  | EmptyString => false
  | String c s' =>
      if is_sign c then (0 <? len s') && all_digits s'
      else all_digits s
  end.

(** Kinds of events. *)
Definition is_Do (e : Event) : bool :=
  match e with EvDo _ => true | _ => false end.
Definition is_ReadAll (e : Event) : bool :=
  match e with EvReadAll _ => true | _ => false end.
Definition is_Close (e : Event) : bool :=
  match e with EvClose _ => true | _ => false end.

(** How many events of a kind a run has. *)
Fixpoint count (p : Event -> bool) (t : list Event) : nat :=
  match t with
  | [] => O
  | e :: t' => ((if p e then 1 else 0) + count p t')%nat
  end.

(** The log entries of a run, in the order they were emitted. *)
Fixpoint logged (t : list Event) : list logrus.Entry :=
  match t with
  | [] => []
  | EvLog e :: t' => e :: logged t'
  | _ :: t' => logged t'
  end.

(** A byte that can stand in a line of text inside HTML: no control byte
    and none of [<], [>] and [&]. *)
Definition wire_safe (c : ascii) : bool :=
  (32 <=? code c) && negb ((code c =? 60) || (code c =? 62) || (code c =? 38)).

(** An ASCII byte. *)
Definition is_ascii (c : ascii) : bool := code c <? 128.

(** The code of the lower-case form of an ASCII letter; other codes stay. *)
Definition lower (n : Z) : Z := if (65 <=? n) && (n <=? 90) then n + 32 else n.

(** Two strings that differ at most in the case of their ASCII letters. *)
Fixpoint same_fold (s t : string) : bool :=
  match s, t with
  | EmptyString, EmptyString => true
  | String c s', String d t' =>
      (lower (code c) =? lower (code d)) && same_fold s' t'
  | _, _ => false
  end.

(** ** Examples *)

(** The pin of the scenario: [pin-sha256="AAA="], quotes included. *)
Definition example_pin : string :=
  String.append "pin-sha256="
    (String dquote (String.append "AAA=" (String dquote EmptyString))).

(** A formatter that always answers with the same RFC 3339 text, and a
    clock reading. *)
Definition example_format : time.Time -> string := fun _ => "2021-01-01T00:00:00Z".
Definition example_now : time.Time := time.mkTime 1577836800 0 0.

(** The report of the scenario. *)
Definition example_report : TLSReport :=
  NewTLSReport example_format example_now "mail.example.com" "443" "example.com"
    (Some ["PEM1"]) (Some [example_pin]) "1.0.0".

(** A report whose host name is the single byte 0xFF, which is not UTF-8. *)
Definition latin1_report : TLSReport :=
  NewTLSReport example_format example_now (String (chr 255) EmptyString) "443"
    "example.com" (Some ["PEM1"]) (Some [example_pin]) "1.0.0".

(** Outcomes of the calls that can fail, for the examples. *)
Definition marshal_fails : TLSReport -> result bytes :=
  fun _ => Err "json: unsupported value".
Definition url_parses : string -> option error := fun _ => None.
Definition url_rejected : string -> option error :=
  fun _ => Some "parse: invalid URI for request".
Definition transport_down : http.Request -> result http.Response :=
  fun _ => Err "dial tcp: connection refused".
Definition example_response : http.Response :=
  http.mkResponse 503
    (io.mkReadCloser (bytes_of "Service Unavailable") None false).
Definition transport_answers : http.Request -> result http.Response :=
  fun _ => Ok example_response.

(** A report whose host name is the single byte 0xFE, which is not UTF-8
    either. *)
Definition latin1_report_fe : TLSReport :=
  NewTLSReport example_format example_now (String (chr 254) EmptyString) "443"
    "example.com" (Some ["PEM1"]) (Some [example_pin]) "1.0.0".

(** A transport that answers 200 with an empty body. *)
Definition ok_response : http.Response :=
  http.mkResponse 200 (io.mkReadCloser [] None false).
Definition transport_ok : http.Request -> result http.Response :=
  fun _ => Ok ok_response.


(** A formatter that writes the seconds of an instant in decimal, and a
    clock reading less than a year before the last second that a
    [time.Time] can hold. *)
Definition seconds_format : time.Time -> string :=
  fun t => strconv.Itoa (time.sec t).
Definition late_now : time.Time :=
  time.mkTime (2 ^ 63 - 1 - time.unixToInternal - 1000) 0 0.

(** * Properties *)

(** ** The builder *)

Section BuilderFacts.

Variable Format_RFC3339 : time.Time -> string.
Variable now : time.Time.

(** Adding 365 days moves the seconds by 365×24×3600, or to the last
    second that a [time.Time] can hold when the sum lies beyond it, and
    leaves the nanoseconds and the zone alone. *)
Lemma Add_365_days (t : time.Time) :
  0 <= time.nsec t < 1000000000 ->
  - 2 ^ 63 <= time.sec t + time.unixToInternal < 2 ^ 63 ->
  time.Add t (365 * 24 * 60 * 60 * time.Second)
  = time.mkTime
      (Z.min (time.sec t + 365 * 24 * 3600) (2 ^ 63 - 1 - time.unixToInternal))
      (time.nsec t) (time.zone t).
Proof.
  intros Hns Hsec. unfold time.Add.
  change (365 * 24 * 60 * 60 * time.Second) with 31536000000000000.
  change (Z.quot 31536000000000000 1000000000) with 31536000.
  change (Z.rem 31536000000000000 1000000000) with 0.
  rewrite Z.add_0_r.
  destruct (Z.leb_spec 1000000000 (time.nsec t)); [lia|].
  destruct (Z.ltb_spec (time.nsec t) 0); [lia|].
  f_equal. unfold time.addSec, time.int64, time.unixToInternal in Hsec |- *.
  change (2 ^ 63) with 9223372036854775808 in Hsec |- *.
  change (2 ^ 64) with 18446744073709551616.
  change (0 <? 31536000) with true.
  destruct (Z.ltb_spec (time.sec t + 62135596800 + 31536000) 9223372036854775808)
    as [Hfit|Hover].
  - rewrite Z.mod_small by lia.
    destruct (Z.ltb_spec (time.sec t + 62135596800)
                (time.sec t + 62135596800 + 31536000 + 9223372036854775808
                 - 9223372036854775808)); [|lia].
    cbn [Bool.eqb]. lia.
  - replace ((time.sec t + 62135596800 + 31536000 + 9223372036854775808)
             mod 18446744073709551616)
      with (time.sec t + 62135596800 + 31536000 + 9223372036854775808
            - 18446744073709551616)
      by (Z.div_mod_to_equations; lia).
    destruct (Z.ltb_spec (time.sec t + 62135596800)
                (time.sec t + 62135596800 + 31536000 + 9223372036854775808
                 - 18446744073709551616 - 9223372036854775808)); [lia|].
    cbn [Bool.eqb]. lia.
Qed.

(** C1.  The report that [NewTLSReport] returns has the empty string in
    [DateTime], whatever the inputs and the clock: the composite literal
    does not set the field.  The claim asks for the current time there. *)
Theorem NewTLSReport_DateTime_unset
    (host port server : string) (certChain knownPins : slice string)
    (appVersion : string) :
  DateTime (NewTLSReport Format_RFC3339 now host port server certChain
                         knownPins appVersion) = EmptyString.
Proof. reflexivity. Qed.

(** C2.  [NewTLSReport] is total, and [EffectiveExpirationDate] is the
    formatted instant 365×24×3600 seconds after the clock reading; but
    [DateTime], from which the claim measures, is the empty string and
    holds no instant. *)
Theorem NewTLSReport_expiry_from_clock
    (host port server : string) (certChain knownPins : slice string)
    (appVersion : string) :
  let r := NewTLSReport Format_RFC3339 now host port server certChain
                        knownPins appVersion in
  EffectiveExpirationDate r
  = Format_RFC3339 (time.Add now (365 * 24 * 3600 * time.Second))
  /\ DateTime r = EmptyString.
Proof. split; reflexivity. Qed.

(** C9.  [IncludeSubdomains] is false and [ValidatedCertificateChain] is
    the empty, non-nil slice, for every input. *)
Theorem NewTLSReport_fixed_fields
    (host port server : string) (certChain knownPins : slice string)
    (appVersion : string) :
  let r := NewTLSReport Format_RFC3339 now host port server certChain
                        knownPins appVersion in
  IncludeSubdomains r = false /\ ValidatedCertificateChain r = Some [].
Proof. split; reflexivity. Qed.

End BuilderFacts.

(** C5.  The scenario of the specification, for every clock reading: each
    argument is copied into its field and the port is parsed to 443. *)
Theorem NewTLSReport_scenario
    (Format_RFC3339 : time.Time -> string) (now : time.Time) :
  let r := NewTLSReport Format_RFC3339 now "mail.example.com" "443"
             "example.com" (Some ["PEM1"]) (Some [example_pin]) "1.0.0" in
  Hostname r = "mail.example.com" /\ Port r = 443 /\
  NotedHostname r = "example.com" /\
  ServedCertificateChain r = Some ["PEM1"] /\
  KnownPins r = Some [example_pin] /\
  AppVersion r = "1.0.0" /\
  IncludeSubdomains r = false /\
  ValidatedCertificateChain r = Some [].
Proof. repeat split; reflexivity. Qed.

(** *** The port *)

Lemma ParseInt_syntax (s : string) :
  snd (strconv.ParseInt s) = Some strconv.ErrSyntax ->
  fst (strconv.ParseInt s) = 0.
Proof.
  unfold strconv.ParseInt. destruct s as [|c0 s']; [reflexivity|].
  destruct (strconv.ParseUint _) as [un [[]|]]; [reflexivity| |];
    repeat (destruct (_ && _); simpl; try discriminate).
Qed.

(** With a range error [ParseInt] returns the bound on the side of the
    sign. *)
Lemma ParseInt_range (s : string) :
  snd (strconv.ParseInt s) = Some strconv.ErrRange ->
  fst (strconv.ParseInt s) = if starts_with_minus s then - 2 ^ 63 else 2 ^ 63 - 1.
Proof.
  unfold strconv.ParseInt. destruct s as [|c0 s']; [discriminate|].
  cbn [starts_with_minus].
  destruct (strconv.ParseUint _) as [un [[]|]]; [discriminate| |];
    (destruct (code c0 =? 45); cbn [negb andb];
     [destruct (_ <? un); [reflexivity|discriminate]
     |destruct (_ <=? un); [reflexivity|discriminate]]).
Qed.

(** [Atoi] returns 0 with a syntax error. *)
Lemma Atoi_syntax (s : string) :
  snd (strconv.Atoi s) = Some strconv.ErrSyntax -> fst (strconv.Atoi s) = 0.
Proof.
  unfold strconv.Atoi. destruct (_ && _).
  - destruct s as [|c0 s']; [reflexivity|].
    destruct (_ && _); [reflexivity|].
    destruct (strconv.atoi_fast_loop _ _); [discriminate|reflexivity].
  - apply ParseInt_syntax.
Qed.

(** With a range error [Atoi] returns the bound on the side of the sign. *)
Lemma Atoi_range (s : string) :
  snd (strconv.Atoi s) = Some strconv.ErrRange ->
  fst (strconv.Atoi s) = if starts_with_minus s then - 2 ^ 63 else 2 ^ 63 - 1.
Proof.
  unfold strconv.Atoi. destruct (_ && _).
  - destruct s as [|c0 s']; [discriminate|].
    destruct (_ && _); [discriminate|].
    destruct (strconv.atoi_fast_loop _ _); discriminate.
  - apply ParseInt_range.
Qed.

(** A string that starts with neither a sign nor a digit, such as "abc",
    is a syntax error on both paths of [Atoi]. *)
Lemma Atoi_first_byte (c : ascii) (s : string) :
  (code c <? 48) || (57 <? code c) = true -> code c <> 43 -> code c <> 45 ->
  strconv.Atoi (String c s) = (0, Some strconv.ErrSyntax).
Proof.
  intros Hc H43 H45.
  assert (Hrange : 0 <= code c < 256).
  { unfold code. pose proof (N_ascii_bounded c). lia. }
  assert (Hnd : (48 <=? code c) && (code c <=? 57) = false).
  { apply orb_prop in Hc as [H|H]; [apply Z.ltb_lt in H|apply Z.ltb_lt in H].
    - destruct (Z.leb_spec 48 (code c)); [lia|reflexivity].
    - destruct (Z.leb_spec (code c) 57); [lia|apply andb_false_r]. }
  unfold strconv.Atoi.
  destruct (Z.eqb_spec (code c) 45); [contradiction|].
  destruct (Z.eqb_spec (code c) 43); [contradiction|].
  destruct ((0 <? len (String c s)) && (len (String c s) <? 19)).
  - cbn [orb andb strconv.atoi_fast_loop].
    replace (9 <? (code c - 48) mod 256) with true; [reflexivity|].
    symmetry. apply Z.ltb_lt.
    apply orb_prop in Hc as [H|H]; apply Z.ltb_lt in H.
    + Z.div_mod_to_equations. lia.
    + rewrite Z.mod_small by lia. lia.
  - unfold strconv.ParseInt.
    destruct (Z.eqb_spec (code c) 45); [contradiction|].
    destruct (Z.eqb_spec (code c) 43); [contradiction|].
    cbn [orb strconv.ParseUint strconv.parseUint_loop]. rewrite Hnd. reflexivity.
Qed.

(** C4, as the claim states it, fails: a port whose digits overflow before
    the first letter is no integer for [Atoi], and the report carries the
    largest int, not 0. *)
Lemma NewTLSReport_port_counterexample :
  let port := "99999999999999999999abc" in
  let r := NewTLSReport example_format example_now
             "mail.example.com" port "example.com" None None "1.0.0" in
  snd (strconv.Atoi port) = Some strconv.ErrRange /\
  Port r = 9223372036854775807 /\ Port r <> 0.
Proof.
  split; [vm_compute; reflexivity|].
  split; [vm_compute; reflexivity|]. vm_compute. discriminate.
Qed.

(** C4, amended.  When [Atoi] reports a syntax error for the port, the
    report has port 0; when it reports a range error, the port is the
    bound of the int range on the side of the sign: -2^63 for a port that
    starts with a minus sign, 2^63-1 for any other.  A port that starts
    with neither a sign nor a digit, such as "abc", is a syntax error.
    The builder returns a report in every case: it has no error result. *)
Theorem NewTLSReport_port_unparsed
    (Format_RFC3339 : time.Time -> string) (now : time.Time)
    (host port server : string) (certChain knownPins : slice string)
    (appVersion : string) :
  let r := NewTLSReport Format_RFC3339 now host port server certChain
                        knownPins appVersion in
  (snd (strconv.Atoi port) = Some strconv.ErrSyntax -> Port r = 0) /\
  (snd (strconv.Atoi port) = Some strconv.ErrRange ->
   Port r = if starts_with_minus port then - 2 ^ 63 else 2 ^ 63 - 1) /\
  (forall c s, port = String c s ->
     (code c <? 48) || (57 <? code c) = true -> code c <> 43 -> code c <> 45 ->
     snd (strconv.Atoi port) = Some strconv.ErrSyntax /\ Port r = 0).
Proof.
  split; [|split].
  - apply Atoi_syntax.
  - apply Atoi_range.
  - intros c s -> Hc H43 H45. cbn [NewTLSReport Port].
    rewrite Atoi_first_byte by assumption. split; reflexivity.
Qed.

(** The port "abc" of the specification's example, and a port that
    overflows on each side. *)
Lemma NewTLSReport_port_unparsed_witness :
  Port (NewTLSReport example_format example_now
          "mail.example.com" "abc" "example.com" None None "1.0.0") = 0 /\
  Port (NewTLSReport example_format example_now
          "mail.example.com" "-99999999999999999999" "example.com" None None
          "1.0.0") = - 9223372036854775808 /\
  Port (NewTLSReport example_format example_now
          "mail.example.com" "99999999999999999999" "example.com" None None
          "1.0.0") = 9223372036854775807 /\
  (snd (strconv.Atoi "abc") = Some strconv.ErrSyntax /\
   Port (NewTLSReport example_format example_now
           "mail.example.com" "abc" "example.com" None None "1.0.0") = 0).
Proof.
  split; [|split; [|split]].
  - apply (proj1 (NewTLSReport_port_unparsed example_format example_now
                    "mail.example.com" "abc" "example.com" None None "1.0.0")).
    reflexivity.
  - apply (proj1 (proj2 (NewTLSReport_port_unparsed example_format example_now
                    "mail.example.com" "-99999999999999999999" "example.com"
                    None None "1.0.0"))).
    vm_compute. reflexivity.
  - apply (proj1 (proj2 (NewTLSReport_port_unparsed example_format example_now
                    "mail.example.com" "99999999999999999999" "example.com"
                    None None "1.0.0"))).
    vm_compute. reflexivity.
  - apply (proj2 (proj2 (NewTLSReport_port_unparsed example_format example_now
                    "mail.example.com" "abc" "example.com" None None "1.0.0"))
             "a"%char "bc" eq_refl).
    + reflexivity.
    + discriminate.
    + discriminate.
Defined.

(** ** Bytes *)

Lemma code_range (c : ascii) : 0 <= code c < 256.
Proof.
  unfold code. pose proof (N_ascii_bounded c). lia.
Qed.

Lemma chr_code (c : ascii) : chr (code c) = c.
Proof.
  unfold chr, code. pose proof (N_ascii_bounded c).
  rewrite Z.mod_small by lia. rewrite N2Z.id. apply ascii_N_embedding.
Qed.

Lemma code_chr (n : Z) : 0 <= n < 256 -> code (chr n) = n.
Proof.
  intros H. unfold chr, code. rewrite Z.mod_small by lia.
  rewrite N_ascii_embedding by lia. lia.
Qed.

(** ** Decimal numbers *)



Lemma dval_mono (s : string) (k : Z) :
  all_digits s = true -> 0 <= k -> k <= dval s k.
Proof.
  revert k. induction s as [|c s IH]; intros k Hd Hk; simpl in *; [lia|].
  apply andb_prop in Hd as [Hc Hd]. apply andb_prop in Hc as [H1 H2].
  specialize (IH (k * 10 + (code c - 48)) Hd). lia.
Qed.

(** On digits that stay in range, the loop of [ParseUint] computes [dval]. *)
Lemma parseUint_loop_digits (s : string) (k : Z) :
  all_digits s = true -> 0 <= k -> dval s k <= strconv.maxUint64 ->
  strconv.parseUint_loop s k = (dval s k, None).
Proof.
  revert k. induction s as [|c s IH]; intros k Hd Hk Hmax; simpl in *; [reflexivity|].
  apply andb_prop in Hd as [Hc Hd]. rewrite Hc.
  apply andb_prop in Hc as [H1 H2].
  pose proof (dval_mono s (k * 10 + (code c - 48)) Hd ltac:(lia)) as Hm.
  change strconv.maxUint64 with 18446744073709551615 in *.
  change (18446744073709551615 / 10 + 1) with 1844674407370955162.
  change (2 ^ 64) with 18446744073709551616.
  destruct (Z.leb_spec 1844674407370955162 k); [lia|].
  rewrite Z.mod_small by lia.
  destruct (Z.ltb_spec (k * 10 + (code c - 48)) (k * 10)); [lia|].
  destruct (Z.ltb_spec 18446744073709551615 (k * 10 + (code c - 48))); [lia|].
  simpl. apply IH; [exact Hd|lia|exact Hmax].
Qed.

(** So does the fast path of [Atoi]. *)
Lemma atoi_fast_loop_digits (s : string) (k : Z) :
  all_digits s = true -> strconv.atoi_fast_loop s k = Some (dval s k).
Proof.
  revert k. induction s as [|c s IH]; intros k Hd; simpl in *; [reflexivity|].
  apply andb_prop in Hd as [Hc Hd]. apply andb_prop in Hc as [H1 H2].
  rewrite Z.mod_small by lia.
  destruct (Z.ltb_spec 9 (code c - 48)); [lia|]. apply IH, Hd.
Qed.

Lemma digit_code (n : Z) : 0 <= n -> code (chr (48 + n mod 10)) = 48 + n mod 10.
Proof.
  intros H. apply code_chr. pose proof (Z.mod_pos_bound n 10). lia.
Qed.

(** [utoa] writes digits only. *)
Lemma utoa_all_digits (fuel : nat) (n : Z) (acc : string) :
  0 <= n -> all_digits acc = true -> all_digits (strconv.utoa fuel n acc) = true.
Proof.
  revert n acc. induction fuel as [|f IH]; intros n acc Hn Hacc; simpl; [exact Hacc|].
  assert (Hd : all_digits (String (chr (48 + n mod 10)) acc) = true).
  { simpl. rewrite digit_code by lia. pose proof (Z.mod_pos_bound n 10).
    rewrite Hacc. destruct (Z.leb_spec 48 (48 + n mod 10)); [|lia].
    destruct (Z.leb_spec (48 + n mod 10) 57); [reflexivity|lia]. }
  destruct (n <? 10); [exact Hd|].
  apply IH; [apply Z.div_pos; lia|exact Hd].
Qed.

(** [utoa] writes the number it is given, when it has fuel for its digits. *)
Lemma utoa_dval (fuel : nat) (n : Z) (acc : string) :
  0 <= n < 10 ^ Z.of_nat fuel ->
  dval (strconv.utoa fuel n acc) 0 = dval acc n.
Proof.
  revert n acc. induction fuel as [|f IH]; intros n acc Hn.
  - simpl in Hn. assert (n = 0) by lia. subst. reflexivity.
  - simpl strconv.utoa.
    assert (Hstep : dval (String (chr (48 + n mod 10)) acc) (n / 10) = dval acc n).
    { simpl. rewrite digit_code by lia. f_equal.
      pose proof (Z.div_mod n 10). lia. }
    destruct (Z.ltb_spec n 10) as [Hlt|Hge].
    + simpl. rewrite digit_code by lia. f_equal. rewrite Z.mod_small by lia. lia.
    + rewrite IH; [exact Hstep|].
      rewrite Nat2Z.inj_succ, Z.pow_succ_r in Hn by lia.
      split; [apply Z.div_pos; lia|].
      apply Z.div_lt_upper_bound; lia.
Qed.

(** The shape of what [utoa] writes: the single digit 0, or a digit other
    than 0 followed by more. *)
Lemma utoa_head (fuel : nat) (n : Z) (acc : string) :
  0 <= n < 10 ^ Z.of_nat (S fuel) ->
  exists c s, strconv.utoa (S fuel) n acc = String c s /\
    (n = 0 -> c = chr 48 /\ s = acc) /\ (0 < n -> 49 <= code c <= 57).
Proof.
  revert n acc. induction fuel as [|f IH]; intros n acc Hn.
  - change (10 ^ Z.of_nat 1) with 10 in Hn. simpl.
    destruct (Z.ltb_spec n 10); [|lia].
    exists (chr (48 + n mod 10)), acc. rewrite digit_code by lia.
    rewrite Z.mod_small by lia.
    split; [reflexivity|]. split; [intros ->; split; reflexivity|lia].
  - cbn [strconv.utoa]. destruct (Z.ltb_spec n 10) as [Hlt|Hge].
    + exists (chr (48 + n mod 10)), acc. rewrite digit_code by lia.
      rewrite Z.mod_small by lia.
      split; [reflexivity|]. split; [intros ->; split; reflexivity|lia].
    + rewrite Nat2Z.inj_succ, Z.pow_succ_r in Hn by lia.
      destruct (IH (n / 10) (String (chr (48 + n mod 10)) acc)) as (c & s & Heq & _ & Hpos).
      { split; [apply Z.div_pos; lia|]. apply Z.div_lt_upper_bound; lia. }
      exists c, s. cbn [strconv.utoa] in Heq. rewrite Heq.
      split; [reflexivity|]. split; [lia|].
      intros _. apply Hpos. apply Z.div_str_pos. lia.
Qed.

(** [ParseInt] reads back what [Itoa] writes, on the whole int range. *)
Lemma ParseInt_Itoa (n : Z) :
  - 2 ^ 63 <= n < 2 ^ 63 -> strconv.ParseInt (strconv.Itoa n) = (n, None).
Proof.
  intros Hn. change (2 ^ 63) with 9223372036854775808 in Hn.
  unfold strconv.Itoa. destruct (Z.ltb_spec n 0) as [Hneg|Hpos].
  - unfold strconv.ParseInt.
    replace (code (chr 45) =? 45) with true by reflexivity.
    replace (code (chr 45) =? 43) with false by reflexivity.
    cbn [orb].
    destruct (utoa_head 19 (- n) EmptyString) as (c & s & Heq & _ & _).
    { change (10 ^ Z.of_nat 20) with 100000000000000000000. lia. }
    unfold strconv.ParseUint. rewrite Heq, <- Heq.
    rewrite parseUint_loop_digits.
    + rewrite utoa_dval by (change (10 ^ Z.of_nat 20) with 100000000000000000000; lia).
      cbn [dval negb andb]. change (2 ^ (strconv.intSize - 1)) with 9223372036854775808.
      destruct (Z.ltb_spec 9223372036854775808 (- n)); [lia|].
      f_equal. lia.
    + apply utoa_all_digits; [lia|reflexivity].
    + lia.
    + rewrite utoa_dval by (change (10 ^ Z.of_nat 20) with 100000000000000000000; lia).
      cbn [dval]. change strconv.maxUint64 with 18446744073709551615. lia.
  - destruct (utoa_head 19 n EmptyString) as (c & s & Heq & H0 & Hp).
    { change (10 ^ Z.of_nat 20) with 100000000000000000000. lia. }
    assert (Hc : 48 <= code c <= 57).
    { destruct (Z.eq_dec n 0) as [->|Hne].
      - destruct (H0 eq_refl) as [-> _]. rewrite code_chr; lia.
      - specialize (Hp ltac:(lia)). lia. }
    unfold strconv.ParseInt. rewrite Heq.
    destruct (Z.eqb_spec (code c) 45); [lia|].
    destruct (Z.eqb_spec (code c) 43); [lia|].
    cbn [orb negb andb]. unfold strconv.ParseUint. rewrite <- Heq.
    rewrite parseUint_loop_digits.
    + rewrite utoa_dval by (change (10 ^ Z.of_nat 20) with 100000000000000000000; lia).
      cbn [dval]. change (2 ^ (strconv.intSize - 1)) with 9223372036854775808.
      destruct (Z.leb_spec 9223372036854775808 n); [lia|]. reflexivity.
    + apply utoa_all_digits; [lia|reflexivity].
    + lia.
    + rewrite utoa_dval by (change (10 ^ Z.of_nat 20) with 100000000000000000000; lia).
      cbn [dval]. change strconv.maxUint64 with 18446744073709551615. lia.
Qed.

(** So does [Atoi], on either of its paths. *)
Lemma Atoi_Itoa (n : Z) :
  - 2 ^ 63 <= n < 2 ^ 63 -> strconv.Atoi (strconv.Itoa n) = (n, None).
Proof.
  intros Hn. unfold strconv.Atoi.
  destruct (_ && _); [|apply ParseInt_Itoa, Hn].
  change (2 ^ 63) with 9223372036854775808 in Hn.
  unfold strconv.Itoa. destruct (Z.ltb_spec n 0) as [Hneg|Hpos].
  - replace (code (chr 45) =? 45) with true by reflexivity. cbn [orb andb].
    destruct (utoa_head 19 (- n) EmptyString) as (c & s & Heq & _ & _).
    { change (10 ^ Z.of_nat 20) with 100000000000000000000. lia. }
    rewrite Heq at 1. unfold len at 1. cbn [String.length].
    destruct (Z.ltb_spec (Z.of_nat (S (String.length s))) 1); [lia|].
    rewrite atoi_fast_loop_digits by (apply utoa_all_digits; [lia|reflexivity]).
    rewrite utoa_dval by (change (10 ^ Z.of_nat 20) with 100000000000000000000; lia).
    cbn [dval]. f_equal. lia.
  - destruct (utoa_head 19 n EmptyString) as (c & s & Heq & H0 & Hp).
    { change (10 ^ Z.of_nat 20) with 100000000000000000000. lia. }
    assert (Hc : 48 <= code c <= 57).
    { destruct (Z.eq_dec n 0) as [->|Hne].
      - destruct (H0 eq_refl) as [-> _]. rewrite code_chr; lia.
      - specialize (Hp ltac:(lia)). lia. }
    rewrite Heq.
    destruct (Z.eqb_spec (code c) 45); [lia|].
    destruct (Z.eqb_spec (code c) 43); [lia|].
    cbn [orb andb]. rewrite <- Heq.
    rewrite atoi_fast_loop_digits by (apply utoa_all_digits; [lia|reflexivity]).
    rewrite utoa_dval by (change (10 ^ Z.of_nat 20) with 100000000000000000000; lia).
    reflexivity.
Qed.

(** ** The submitter *)

(** The canonical forms of the four header names. *)
Lemma canonical_Content_Type :
  http.CanonicalMIMEHeaderKey "Content-Type" = "Content-Type".
Proof. reflexivity. Qed.

Lemma canonical_User_Agent :
  http.CanonicalMIMEHeaderKey "User-Agent" = "User-Agent".
Proof. reflexivity. Qed.

Lemma canonical_apiversion :
  http.CanonicalMIMEHeaderKey "x-pm-apiversion" = "X-Pm-Apiversion".
Proof. reflexivity. Qed.

Lemma canonical_appversion :
  http.CanonicalMIMEHeaderKey "x-pm-appversion" = "X-Pm-Appversion".
Proof. reflexivity. Qed.

(** With the method POST, [http.NewRequest] fails exactly when the URL
    does not parse. *)
Lemma NewRequest_POST (url_Parse : string -> option error) (url : string) (b : bytes) :
  http.NewRequest url_Parse "POST" url b
  = match url_Parse url with
    | Some err => Err err
    | None => Ok (http.mkRequest "POST" url ∅ b)
    end.
Proof. reflexivity. Qed.

Section SubmitterFacts.

Variable Version : Z.
Variable Marshal : TLSReport -> result bytes.
Variable url_Parse : string -> option error.
Variable Do : http.Request -> result http.Response.

(** The header of the request, entry by entry. *)
Lemma the_request_header (b : bytes) (report : TLSReport) (userAgent : string) :
  http.ReqHeader (the_request Version b report userAgent)
  = <["X-Pm-Appversion" := [AppVersion report]]>
      (<["X-Pm-Apiversion" := [strconv.Itoa Version]]>
         (<["User-Agent" := [userAgent]]>
            (<["Content-Type" := ["application/json"]]> ∅))).
Proof.
  unfold the_request, set_headers, http.Set_, http.Add.
  cbn [http.ReqHeader].
  rewrite canonical_Content_Type, canonical_User_Agent, canonical_apiversion,
    canonical_appversion.
  rewrite lookup_empty. reflexivity.
Qed.

(** The run of the submitter on a report and a user agent. *)
Abbreviation run report userAgent :=
  (postCertIssueReport Version Marshal url_Parse Do report userAgent).


(** The events of a run, by the outcome of the three calls that can fail. *)
Lemma postCertIssueReport_trace (report : TLSReport) (userAgent : string) :
  trace (run report userAgent)
  = match Marshal report with
    | Err err => [entry_error err "Failed to marshal TLS report"]
    | Ok b =>
        match url_Parse TLSReportURI with
        | Some err => [entry_error err "Failed to create http request"]
        | None =>
            let req := the_request Version b report userAgent in
            EvLog (logrus.mkEntry logrus.WarnLevel
                     [("request", logrus.VRequest req)] "Reporting TLS mismatch")
            :: EvDo req
            :: match Do req with
               | Err err => [entry_error err "Failed to report TLS mismatch"]
               | Ok res =>
                   EvLog (logrus.mkEntry logrus.ErrorLevel
                            [("response", logrus.VResponse res)]
                            "Reported TLS mismatch")
                   :: (if negb (http.StatusCode res =? http.StatusOK)
                       then [EvLog (logrus.mkEntry logrus.ErrorLevel
                                      [("status", logrus.VInt http.StatusOK)]
                                      "StatusCode was not OK")]
                       else [])
                   ++ [EvReadAll (http.Body res); EvClose (http.Body res)]
               end
        end
    end.
Proof.
  unfold postCertIssueReport. destruct (Marshal report) as [b|err]; [|reflexivity].
  rewrite NewRequest_POST. destruct (url_Parse TLSReportURI) as [err|]; [reflexivity|].
  fold (the_request Version b report userAgent).
  unfold trace, client_Do, log_Warn, log_Error, bind, emit, ret. cbn.
  destruct (Do (the_request Version b report userAgent)) as [res|err]; [|reflexivity].
  cbn. destruct (negb _); reflexivity.
Qed.

(** C3.  The submitter returns unit, and each of the three failures ends
    the run with one error entry that carries the error: nothing is sent
    when the report cannot be marshalled or the request cannot be built,
    and after a failed transport call nothing is read or sent again. *)
Theorem postCertIssueReport_absorbs_errors (report : TLSReport) (userAgent : string) :
  fst (run report userAgent) = tt /\
  (forall err, Marshal report = Err err ->
     trace (run report userAgent)
     = [entry_error err "Failed to marshal TLS report"]) /\
  (forall b err, Marshal report = Ok b -> url_Parse TLSReportURI = Some err ->
     trace (run report userAgent)
     = [entry_error err "Failed to create http request"]) /\
  (forall b err, Marshal report = Ok b -> url_Parse TLSReportURI = None ->
     Do (the_request Version b report userAgent) = Err err ->
     trace (run report userAgent)
     = [EvLog (logrus.mkEntry logrus.WarnLevel
                 [("request", logrus.VRequest (the_request Version b report userAgent))]
                 "Reporting TLS mismatch");
        EvDo (the_request Version b report userAgent);
        entry_error err "Failed to report TLS mismatch"]).
Proof.
  split; [destruct (fst _); reflexivity|].
  rewrite postCertIssueReport_trace.
  split; [|split].
  - intros err ->. reflexivity.
  - intros b err -> ->. reflexivity.
  - intros b err -> -> H. cbn zeta. rewrite H. reflexivity.
Qed.


(** C8.  Every request that the submitter hands to the transport is a
    POST to [TLSReportURI] whose header has exactly four entries, each with
    one value: the JSON content type, the user agent of the caller, the
    API version in decimal, and the application version of the report.
    Such a request is handed over whenever marshalling and URL parsing
    succeed, and its body is the marshalled report.  The API version
    header is the same for every report and user agent, and [Atoi] reads
    it back as the integer [Version]. *)
Theorem postCertIssueReport_request
    (report : TLSReport) (userAgent : string) :
  (forall req, In (EvDo req) (trace (run report userAgent)) ->
     http.Method req = "POST" /\ http.URL req = TLSReportURI /\
     Marshal report = Ok (http.ReqBody req) /\
     http.ReqHeader req !! "Content-Type" = Some ["application/json"] /\
     http.ReqHeader req !! "User-Agent" = Some [userAgent] /\
     http.ReqHeader req !! "X-Pm-Apiversion" = Some [strconv.Itoa Version] /\
     http.ReqHeader req !! "X-Pm-Appversion" = Some [AppVersion report] /\
     dom (http.ReqHeader req)
     = ({["Content-Type"; "User-Agent"; "X-Pm-Apiversion"; "X-Pm-Appversion"]}
        : gset string) /\
     http.Get (http.ReqHeader req) "Content-Type" = "application/json" /\
     http.Get (http.ReqHeader req) "User-Agent" = userAgent /\
     http.Get (http.ReqHeader req) "x-pm-apiversion" = strconv.Itoa Version /\
     http.Get (http.ReqHeader req) "x-pm-appversion" = AppVersion report) /\
  (forall b, Marshal report = Ok b -> url_Parse TLSReportURI = None ->
     In (EvDo (the_request Version b report userAgent)) (trace (run report userAgent))) /\
  (- 2 ^ 63 <= Version < 2 ^ 63 ->
   strconv.Atoi (strconv.Itoa Version) = (Version, None)).
Proof.
  split; [|split; [|apply Atoi_Itoa]]; rewrite postCertIssueReport_trace.
  - intros req Hin.
    assert (exists b, Marshal report = Ok b /\ req = the_request Version b report userAgent)
      as (b & HM & ->).
    { destruct (Marshal report) as [b|err].
      - exists b. split; [reflexivity|].
        destruct (url_Parse TLSReportURI).
        + destruct Hin as [H|[]]; discriminate H.
        + cbn zeta in Hin. destruct Hin as [H|[H|Hin]]; [discriminate H|congruence|].
          destruct (Do _) as [res|err].
          * destruct Hin as [H|Hin]; [discriminate H|].
            apply in_app_or in Hin. destruct Hin as [Hin|Hin].
            -- destruct (negb _); [destruct Hin as [H|[]]; discriminate H|destruct Hin].
            -- destruct Hin as [H|[H|[]]]; discriminate H.
          * destruct Hin as [H|[]]; discriminate H.
      - destruct Hin as [H|[]]; discriminate H. }
    unfold http.Get.
    rewrite canonical_Content_Type, canonical_User_Agent, canonical_apiversion,
      canonical_appversion.
    rewrite the_request_header.
    repeat split; try exact HM.
    all: try (repeat rewrite dom_insert_L; rewrite dom_empty_L; set_solver).
    all: repeat (first [rewrite lookup_insert_eq | rewrite lookup_insert_ne by discriminate]);
      reflexivity.
  - intros b -> ->. cbn zeta. right. left. reflexivity.
Qed.

(** C10.  The diagnostic for a status other than 200 carries the constant
    200 in its "status" field: every entry with that message has exactly
    this field, such an entry is logged for every response whose status is
    not 200, and so its field never holds the status of the response. *)
Theorem postCertIssueReport_status_field
    (report : TLSReport) (userAgent : string) :
  (forall e, In (EvLog e) (trace (run report userAgent)) ->
     logrus.Message e = "StatusCode was not OK" ->
     logrus.Data e = [("status", logrus.VInt 200)]) /\
  (forall b res, Marshal report = Ok b -> url_Parse TLSReportURI = None ->
     Do (the_request Version b report userAgent) = Ok res ->
     http.StatusCode res <> 200 ->
     In (EvLog (logrus.mkEntry logrus.ErrorLevel [("status", logrus.VInt 200)]
                  "StatusCode was not OK"))
        (trace (run report userAgent)) /\
     forall e, In (EvLog e) (trace (run report userAgent)) ->
       logrus.Message e = "StatusCode was not OK" ->
       ~ In ("status", logrus.VInt (http.StatusCode res)) (logrus.Data e)).
Proof.
  assert (Hall : forall e, In (EvLog e) (trace (run report userAgent)) ->
     logrus.Message e = "StatusCode was not OK" ->
     logrus.Data e = [("status", logrus.VInt 200)]).
  { rewrite postCertIssueReport_trace. intros e Hin Hmsg.
    destruct (Marshal report) as [b|err].
    - destruct (url_Parse TLSReportURI).
      + destruct Hin as [H|[]]. injection H as <-. discriminate Hmsg.
      + cbn zeta in Hin. destruct Hin as [H|[H|Hin]];
          [injection H as <-; discriminate Hmsg|discriminate H|].
        destruct (Do _) as [res|err].
        * destruct Hin as [H|Hin]; [injection H as <-; discriminate Hmsg|].
          apply in_app_or in Hin. destruct Hin as [Hin|Hin].
          -- destruct (negb _); [|destruct Hin].
             destruct Hin as [H|[]]. injection H as <-. reflexivity.
          -- destruct Hin as [H|[H|[]]]; discriminate H.
        * destruct Hin as [H|[]]. injection H as <-. discriminate Hmsg.
    - destruct Hin as [H|[]]. injection H as <-. discriminate Hmsg. }
  split; [exact Hall|].
  intros b res HM HU HD Hne. split.
  - rewrite postCertIssueReport_trace, HM, HU. cbn zeta. rewrite HD.
    destruct (Z.eqb_spec (http.StatusCode res) http.StatusOK) as [Heq|_];
      [contradiction|].
    cbn [negb]. right. right. right. left. reflexivity.
  - intros e Hin Hmsg Hfield. rewrite (Hall e Hin Hmsg) in Hfield.
    destruct Hfield as [H|[]]. injection H as H. apply Hne. symmetry. exact H.
Qed.

End SubmitterFacts.

(** ** UTF-8 *)

(** Bits that do not overlap add up. *)
Lemma lor_shiftl_add (a b n : Z) :
  0 <= n -> 0 <= b < 2 ^ n -> Z.lor (Z.shiftl a n) b = a * 2 ^ n + b.
Proof.
  intros Hn Hb. rewrite <- Z.shiftl_mul_pow2 by exact Hn.
  rewrite <- Z.add_lor_land.
  replace (Z.land (Z.shiftl a n) b) with 0; [lia|].
  symmetry. apply Z.bits_inj'. intros i Hi.
  rewrite Z.land_spec, Z.bits_0.
  destruct (Z.lt_ge_cases i n) as [Hlt|Hge].
  - rewrite Z.shiftl_spec_low by exact Hlt. reflexivity.
  - destruct (Z.eq_dec b 0) as [->|Hne].
    + rewrite Z.bits_0. apply andb_false_r.
    + rewrite (Z.bits_above_log2 b i); [apply andb_false_r|lia|].
      apply Z.log2_lt_pow2; [lia|].
      apply Z.lt_le_trans with (2 ^ n); [lia|].
      apply Z.pow_le_mono_r; lia.
Qed.

Lemma land_63 (a : Z) : Z.land a 63 = a mod 64.
Proof. apply (Z.land_ones a 6). lia. Qed.

Lemma land_31 (a : Z) : Z.land a 31 = a mod 32.
Proof. apply (Z.land_ones a 5). lia. Qed.

Lemma land_15 (a : Z) : Z.land a 15 = a mod 16.
Proof. apply (Z.land_ones a 4). lia. Qed.

Lemma land_7 (a : Z) : Z.land a 7 = a mod 8.
Proof. apply (Z.land_ones a 3). lia. Qed.

(** The rune of two, three and four bytes, in arithmetic. *)
Lemma rune2_arith (b0 b1 : Z) :
  Z.lor (Z.shiftl (Z.land b0 31) 6) (Z.land b1 63) = b0 mod 32 * 64 + b1 mod 64.
Proof.
  rewrite land_31, land_63. apply (lor_shiftl_add _ _ 6); [lia|].
  apply Z.mod_pos_bound. lia.
Qed.

Lemma rune3_arith (b0 b1 b2 : Z) :
  Z.lor (Z.lor (Z.shiftl (Z.land b0 15) 12) (Z.shiftl (Z.land b1 63) 6))
        (Z.land b2 63)
  = b0 mod 16 * 4096 + b1 mod 64 * 64 + b2 mod 64.
Proof.
  rewrite land_15, !land_63.
  pose proof (Z.mod_pos_bound b1 64 ltac:(lia)).
  pose proof (Z.mod_pos_bound b2 64 ltac:(lia)).
  rewrite (Z.shiftl_mul_pow2 (b1 mod 64)) by lia.
  rewrite (lor_shiftl_add _ _ 12) by (change (2 ^ 6) with 64; change (2 ^ 12) with 4096; lia).
  replace (b0 mod 16 * 2 ^ 12 + b1 mod 64 * 2 ^ 6)
    with (Z.shiftl (b0 mod 16 * 64 + b1 mod 64) 6)
    by (rewrite Z.shiftl_mul_pow2 by lia; change (2 ^ 6) with 64;
        change (2 ^ 12) with 4096; lia).
  rewrite (lor_shiftl_add _ _ 6) by (change (2 ^ 6) with 64; lia).
  change (2 ^ 6) with 64. lia.
Qed.

Lemma rune4_arith (b0 b1 b2 b3 : Z) :
  Z.lor (Z.lor (Z.lor (Z.shiftl (Z.land b0 7) 18) (Z.shiftl (Z.land b1 63) 12))
               (Z.shiftl (Z.land b2 63) 6))
        (Z.land b3 63)
  = b0 mod 8 * 262144 + b1 mod 64 * 4096 + b2 mod 64 * 64 + b3 mod 64.
Proof.
  rewrite land_7, !land_63.
  pose proof (Z.mod_pos_bound b1 64 ltac:(lia)).
  pose proof (Z.mod_pos_bound b2 64 ltac:(lia)).
  pose proof (Z.mod_pos_bound b3 64 ltac:(lia)).
  rewrite (Z.shiftl_mul_pow2 (b1 mod 64)) by lia.
  rewrite (lor_shiftl_add _ _ 18)
    by (change (2 ^ 12) with 4096; change (2 ^ 18) with 262144; lia).
  rewrite (Z.shiftl_mul_pow2 (b2 mod 64)) by lia.
  replace (b0 mod 8 * 2 ^ 18 + b1 mod 64 * 2 ^ 12)
    with (Z.shiftl (b0 mod 8 * 64 + b1 mod 64) 12)
    by (rewrite Z.shiftl_mul_pow2 by lia; change (2 ^ 12) with 4096;
        change (2 ^ 18) with 262144; lia).
  rewrite (lor_shiftl_add _ _ 12)
    by (change (2 ^ 6) with 64; change (2 ^ 12) with 4096; lia).
  replace ((b0 mod 8 * 64 + b1 mod 64) * 2 ^ 12 + b2 mod 64 * 2 ^ 6)
    with (Z.shiftl ((b0 mod 8 * 64 + b1 mod 64) * 64 + b2 mod 64) 6)
    by (rewrite Z.shiftl_mul_pow2 by lia; change (2 ^ 6) with 64;
        change (2 ^ 12) with 4096; lia).
  rewrite (lor_shiftl_add _ _ 6) by (change (2 ^ 6) with 64; lia).
  change (2 ^ 6) with 64. lia.
Qed.

Lemma code_chr_mod (n : Z) : code (chr n) = n mod 256.
Proof.
  unfold chr. pose proof (Z.mod_pos_bound n 256 ltac:(lia)).
  unfold code. rewrite N_ascii_embedding by lia. lia.
Qed.

(** The bytes that [EncodeRune] writes, in arithmetic. *)
Lemma cont_byte (x : Z) :
  chr (Z.lor 128 (Z.land (code (chr x)) 63)) = chr (128 + x mod 64).
Proof.
  rewrite code_chr_mod, land_63. f_equal.
  pose proof (Z.mod_pos_bound (x mod 256) 64 ltac:(lia)).
  rewrite (lor_shiftl_add 2 _ 6 ltac:(lia)) by (change (2 ^ 6) with 64; lia).
  change (2 * 2 ^ 6) with 128. f_equal.
  Z.div_mod_to_equations. lia.
Qed.

Lemma lead_byte (k a n y : Z) :
  0 <= n -> k = a * 2 ^ n -> 0 <= y < 2 ^ n -> Z.lor k y = k + y.
Proof.
  intros Hn -> Hy. rewrite <- (lor_shiftl_add a y n) by assumption.
  rewrite Z.shiftl_mul_pow2 by assumption. reflexivity.
Qed.

(** [EncodeRune] on the three ranges of runes that take more than one byte. *)
Lemma EncodeRune_2 (r : Z) :
  128 <= r <= 2047 ->
  utf8.EncodeRune r = [chr (192 + r / 64); chr (128 + r mod 64)].
Proof.
  intros Hr. unfold utf8.EncodeRune.
  destruct (Z.leb_spec r 127); [lia|]. rewrite andb_false_r.
  destruct (Z.leb_spec 0 r); [|lia]. destruct (Z.leb_spec r 2047); [|lia].
  cbn [andb]. rewrite cont_byte, Z.shiftr_div_pow2 by lia. change (2 ^ 6) with 64.
  rewrite (lead_byte 192 6 5) by (try reflexivity; try lia;
    change (2 ^ 5) with 32; Z.div_mod_to_equations; lia).
  reflexivity.
Qed.

Lemma EncodeRune_3 (r : Z) :
  2048 <= r <= 65535 -> ~ 55296 <= r <= 57343 ->
  utf8.EncodeRune r
  = [chr (224 + r / 4096); chr (128 + r / 64 mod 64); chr (128 + r mod 64)].
Proof.
  intros Hr Hs. unfold utf8.EncodeRune, utf8.MaxRune.
  destruct (Z.leb_spec r 127); [lia|]. rewrite andb_false_r.
  destruct (Z.leb_spec r 2047); [lia|]. rewrite andb_false_r.
  destruct (Z.ltb_spec r 0); [lia|]. destruct (Z.ltb_spec 1114111 r); [lia|].
  replace ((55296 <=? r) && (r <=? 57343)) with false
    by (destruct (Z.leb_spec 55296 r); destruct (Z.leb_spec r 57343); try reflexivity; lia).
  cbn [orb]. destruct (Z.leb_spec r 65535); [|lia].
  rewrite !cont_byte, !Z.shiftr_div_pow2 by lia.
  change (2 ^ 6) with 64. change (2 ^ 12) with 4096.
  rewrite (lead_byte 224 14 4) by (try reflexivity; try lia;
    change (2 ^ 4) with 16; Z.div_mod_to_equations; lia).
  reflexivity.
Qed.

Lemma EncodeRune_4 (r : Z) :
  65536 <= r <= 1114111 ->
  utf8.EncodeRune r
  = [chr (240 + r / 262144); chr (128 + r / 4096 mod 64);
     chr (128 + r / 64 mod 64); chr (128 + r mod 64)].
Proof.
  intros Hr. unfold utf8.EncodeRune, utf8.MaxRune.
  destruct (Z.leb_spec r 127); [lia|]. rewrite andb_false_r.
  destruct (Z.leb_spec r 2047); [lia|]. rewrite andb_false_r.
  destruct (Z.ltb_spec r 0); [lia|]. destruct (Z.ltb_spec 1114111 r); [lia|].
  destruct (Z.leb_spec 55296 r); [|lia].
  destruct (Z.leb_spec r 57343); [lia|]. cbn [orb andb].
  destruct (Z.leb_spec r 65535); [lia|].
  rewrite !cont_byte, !Z.shiftr_div_pow2 by lia.
  change (2 ^ 6) with 64. change (2 ^ 12) with 4096. change (2 ^ 18) with 262144.
  rewrite (lead_byte 240 30 3) by (try reflexivity; try lia;
    change (2 ^ 3) with 8; Z.div_mod_to_equations; lia).
  reflexivity.
Qed.
Ltac closed_eval H :=
  repeat match type of H with
  | context [utf8.acceptRanges ?a] =>
      let v := eval vm_compute in (utf8.acceptRanges a) in
      progress change (utf8.acceptRanges a) with v in H
  | context [Z.land ?a 7 <=? ?b] =>
      let v := eval vm_compute in (Z.land a 7 <=? b) in
      progress change (Z.land a 7 <=? b) with v in H
  | context [?a <=? ?a'] =>
      lazymatch a with context [code _] => fail | _ => idtac end;
      lazymatch a' with context [code _] => fail | _ => idtac end;
      let v := eval vm_compute in (a <=? a') in
      progress change (a <=? a') with v in H
  | context [?a =? ?a'] =>
      lazymatch a with context [code _] => fail | _ => idtac end;
      lazymatch a' with context [code _] => fail | _ => idtac end;
      let v := eval vm_compute in (a =? a') in
      progress change (a =? a') with v in H
  end;
  cbv beta iota zeta delta [fst snd utf8.locb utf8.hicb] in H.

(** The next byte of a rune: present, and within its bounds. *)
Ltac next_byte H p c p' :=
  destruct p as [|c p']; [inversion H; subst; discriminate|];
  pose proof (code_range c);
  match type of H with
  | context [code c <? ?lo] =>
      destruct (Z.ltb_spec (code c) lo); [inversion H; subst; discriminate|]
  end;
  match type of H with
  | context [?hi <? code c] =>
      destruct (Z.ltb_spec hi (code c)); [inversion H; subst; discriminate|]
  end;
  cbn [orb] in H.

Ltac bytes_eq := repeat f_equal; Z.div_mod_to_equations; lia.

Lemma DecodeRune_valid (c0 : ascii) (p1 : bytes) (r size : Z) :
  utf8.DecodeRune (c0 :: p1) = (r, size) ->
  (r =? utf8.RuneError) && (size =? 1) = false ->
  utf8.EncodeRune r = take (Z.to_nat size) (c0 :: p1) /\
  1 <= size <= 4 /\ (Z.to_nat size <= length (c0 :: p1))%nat /\
  (128 <= code c0 ->
   2 <= size /\
   Forall (fun c => 128 <= code c) (take (Z.to_nat size) (c0 :: p1))) /\
  (code c0 < 128 -> r = code c0 /\ size = 1).
Proof.
  intros H Hv. unfold utf8.DecodeRune in H.
  pose proof (code_range c0) as R0.
  unfold utf8.first in H.
  assert (two : forall c1 p2, 194 <= code c0 < 224 -> 128 <= code c1 <= 191 ->
    let r := code c0 mod 32 * 64 + code c1 mod 64 in
    utf8.EncodeRune r = take (Z.to_nat 2) (c0 :: c1 :: p2) /\
    1 <= 2 <= 4 /\ (Z.to_nat 2 <= length (c0 :: c1 :: p2))%nat /\
    (128 <= code c0 -> 2 <= 2 /\
     Forall (fun c => 128 <= code c) (take (Z.to_nat 2) (c0 :: c1 :: p2))) /\
    (code c0 < 128 -> r = code c0 /\ 2 = 1)).
  { intros c1 p2 ? ? r'. subst r'.
    change (take (Z.to_nat 2) (c0 :: c1 :: p2)) with [c0; c1].
    split; [|split; [lia|split; [cbn; lia|split; [|lia]]]].
    - rewrite EncodeRune_2 by (Z.div_mod_to_equations; lia).
      replace [c0; c1] with [chr (code c0); chr (code c1)]
        by (rewrite !chr_code; reflexivity).
      bytes_eq.
    - intros _. split; [lia|]. repeat constructor; lia. }
  assert (three : forall c1 c2 p3, 224 <= code c0 < 240 ->
    128 <= code c1 <= 191 -> 128 <= code c2 <= 191 ->
    (code c0 = 224 -> 160 <= code c1) -> (code c0 = 237 -> code c1 <= 159) ->
    let r := code c0 mod 16 * 4096 + code c1 mod 64 * 64 + code c2 mod 64 in
    utf8.EncodeRune r = take (Z.to_nat 3) (c0 :: c1 :: c2 :: p3) /\
    1 <= 3 <= 4 /\ (Z.to_nat 3 <= length (c0 :: c1 :: c2 :: p3))%nat /\
    (128 <= code c0 -> 2 <= 3 /\
     Forall (fun c => 128 <= code c) (take (Z.to_nat 3) (c0 :: c1 :: c2 :: p3))) /\
    (code c0 < 128 -> r = code c0 /\ 3 = 1)).
  { intros c1 c2 p3 ? ? ? ? ? r'. subst r'.
    change (take (Z.to_nat 3) (c0 :: c1 :: c2 :: p3)) with [c0; c1; c2].
    split; [|split; [lia|split; [cbn; lia|split; [|lia]]]].
    - rewrite EncodeRune_3 by (Z.div_mod_to_equations; lia).
      replace [c0; c1; c2] with [chr (code c0); chr (code c1); chr (code c2)]
        by (rewrite !chr_code; reflexivity).
      bytes_eq.
    - intros _. split; [lia|]. repeat constructor; lia. }
  assert (four : forall c1 c2 c3 p4, 240 <= code c0 < 245 ->
    128 <= code c1 <= 191 -> 128 <= code c2 <= 191 -> 128 <= code c3 <= 191 ->
    (code c0 = 240 -> 144 <= code c1) -> (code c0 = 244 -> code c1 <= 143) ->
    let r := code c0 mod 8 * 262144 + code c1 mod 64 * 4096
             + code c2 mod 64 * 64 + code c3 mod 64 in
    utf8.EncodeRune r = take (Z.to_nat 4) (c0 :: c1 :: c2 :: c3 :: p4) /\
    1 <= 4 <= 4 /\ (Z.to_nat 4 <= length (c0 :: c1 :: c2 :: c3 :: p4))%nat /\
    (128 <= code c0 -> 2 <= 4 /\
     Forall (fun c => 128 <= code c)
            (take (Z.to_nat 4) (c0 :: c1 :: c2 :: c3 :: p4))) /\
    (code c0 < 128 -> r = code c0 /\ 4 = 1)).
  { intros c1 c2 c3 p4 ? ? ? ? ? ? r'. subst r'.
    change (take (Z.to_nat 4) (c0 :: c1 :: c2 :: c3 :: p4)) with [c0; c1; c2; c3].
    split; [|split; [lia|split; [cbn; lia|split; [|lia]]]].
    - rewrite EncodeRune_4 by (Z.div_mod_to_equations; lia).
      replace [c0; c1; c2; c3]
        with [chr (code c0); chr (code c1); chr (code c2); chr (code c3)]
        by (rewrite !chr_code; reflexivity).
      bytes_eq.
    - intros _. split; [lia|]. repeat constructor; lia. }
  destruct (Z.ltb_spec (code c0) 128).
  { closed_eval H. inversion H; subst. cbn.
    split; [|split; [lia|split; [lia|split; [lia|split; reflexivity]]]].
    unfold utf8.EncodeRune.
    destruct (Z.leb_spec 0 (code c0)); [|lia].
    destruct (Z.leb_spec (code c0) 127); [|lia]. cbn [andb].
    rewrite chr_code. reflexivity. }
  destruct (Z.ltb_spec (code c0) 194).
  { closed_eval H. inversion H; subst. discriminate. }
  destruct (Z.ltb_spec (code c0) 224).
  { closed_eval H. next_byte H p1 c1 p2.
    rewrite rune2_arith in H. inversion H; subst. apply two; lia. }
  destruct (Z.eqb_spec (code c0) 224).
  { closed_eval H. next_byte H p1 c1 p2. next_byte H p2 c2 p3.
    rewrite rune3_arith in H. inversion H; subst. apply three; lia. }
  destruct (Z.ltb_spec (code c0) 237).
  { closed_eval H. next_byte H p1 c1 p2. next_byte H p2 c2 p3.
    rewrite rune3_arith in H. inversion H; subst. apply three; lia. }
  destruct (Z.eqb_spec (code c0) 237).
  { closed_eval H. next_byte H p1 c1 p2. next_byte H p2 c2 p3.
    rewrite rune3_arith in H. inversion H; subst. apply three; lia. }
  destruct (Z.ltb_spec (code c0) 240).
  { closed_eval H. next_byte H p1 c1 p2. next_byte H p2 c2 p3.
    rewrite rune3_arith in H. inversion H; subst. apply three; lia. }
  destruct (Z.eqb_spec (code c0) 240).
  { closed_eval H. next_byte H p1 c1 p2. next_byte H p2 c2 p3.
    next_byte H p3 c3 p4.
    rewrite rune4_arith in H. inversion H; subst. apply four; lia. }
  destruct (Z.ltb_spec (code c0) 244).
  { closed_eval H. next_byte H p1 c1 p2. next_byte H p2 c2 p3.
    next_byte H p3 c3 p4.
    rewrite rune4_arith in H. inversion H; subst. apply four; lia. }
  destruct (Z.eqb_spec (code c0) 244).
  { closed_eval H. next_byte H p1 c1 p2. next_byte H p2 c2 p3.
    next_byte H p3 c3 p4.
    rewrite rune4_arith in H. inversion H; subst. apply four; lia. }
  closed_eval H. inversion H; subst. discriminate.
Qed.
(** A valid rune is decoded from its own bytes alone. *)
Lemma DecodeRune_prefix (c0 : ascii) (p1 q : bytes) (r size : Z) :
  utf8.DecodeRune (c0 :: p1) = (r, size) ->
  (r =? utf8.RuneError) && (size =? 1) = false ->
  utf8.DecodeRune (take (Z.to_nat size) (c0 :: p1) ++ q) = (r, size).
Proof.
  intros H Hv.
  destruct p1 as [|c1 [|c2 [|c3 p4]]]; unfold utf8.DecodeRune in *;
  repeat match type of H with
         | context [if ?b then _ else _] => destruct b eqn:?
         end;
  inversion H; subst; try discriminate;
  change (Z.to_nat 1) with 1%nat; change (Z.to_nat 2) with 2%nat;
  change (Z.to_nat 3) with 3%nat; change (Z.to_nat 4) with 4%nat;
  cbn [take firstn app];
  repeat match goal with
         | E : ?b = _ |- context [if ?b then _ else _] => rewrite E
         end;
  try reflexivity.
Qed.

(** ** JSON strings *)

(** The scanner passes over an escape, and the decoder gives the byte back. *)
Lemma scan_string_escape (c : ascii) (Y : bytes) :
  (code c <? 128) = true -> json.htmlSafe (code c) = false ->
  json.scan_string (json.escape c ++ Y)
  = match json.scan_string Y with
    | Some (raw, rest) => Some (json.escape c ++ raw, rest)
    | None => None
    end.
Proof.
  destruct c as [[] [] [] [] [] [] [] []]; intros H1 H2;
    try discriminate H1; try discriminate H2; reflexivity.
Qed.

Lemma unquote_rest_escape (c : ascii) (X : bytes) :
  (code c <? 128) = true -> json.htmlSafe (code c) = false ->
  json.unquote_rest 0 (json.escape c ++ X)
  = match json.unquote_rest 0 X with
    | Some t => Some (c :: t)
    | None => None
    end.
Proof.
  destruct c as [[] [] [] [] [] [] [] []]; intros H1 H2;
    try discriminate H1; try discriminate H2; reflexivity.
Qed.

(** A safe byte is no quote, no backslash and no control byte. *)
Lemma htmlSafe_plain (b : Z) :
  json.htmlSafe b = true -> b <> 34 /\ b <> 92 /\ 32 <= b < 128.
Proof.
  unfold json.htmlSafe. intros H.
  apply andb_prop in H as [H H3]. apply andb_prop in H as [H1 H2].
  apply negb_true_iff in H3. apply orb_false_elim in H3 as [H3 _].
  apply orb_false_elim in H3 as [H3 _]. apply orb_false_elim in H3 as [H3 _].
  apply orb_false_elim in H3 as [H3 H4]. lia.
Qed.

(** The scanner passes over bytes that are not ASCII. *)
Lemma scan_string_high (pre Y : bytes) :
  Forall (fun c => 128 <= code c) pre ->
  json.scan_string (pre ++ Y)
  = match json.scan_string Y with
    | Some (raw, rest) => Some (pre ++ raw, rest)
    | None => None
    end.
Proof.
  induction 1 as [|c pre Hc _ IH]; cbn [app].
  - destruct (json.scan_string Y) as [[raw rest]|]; reflexivity.
  - cbn [json.scan_string].
    destruct (Z.eqb_spec (code c) 34); [lia|].
    destruct (Z.eqb_spec (code c) 92); [lia|].
    destruct (Z.ltb_spec (code c) 32); [lia|].
    rewrite IH. destruct (json.scan_string Y) as [[raw rest]|]; reflexivity.
Qed.

(** Passing over the bytes of a rune or an escape. *)
Lemma unquote_rest_skip (pre X : bytes) :
  json.unquote_rest (length pre) (pre ++ X) = json.unquote_rest 0 X.
Proof.
  induction pre as [|c pre IH]; [reflexivity|]. cbn [length app].
  destruct X; cbn [json.unquote_rest]; exact IH.
Qed.

(** An ASCII byte is a rune of its own. *)
Lemma DecodeRune_ascii (c : ascii) (s : bytes) :
  code c < 128 -> utf8.DecodeRune (c :: s) = (code c, 1).
Proof.
  intros H. unfold utf8.DecodeRune, utf8.first.
  destruct (Z.ltb_spec (code c) 128); [reflexivity|lia].
Qed.

(** The escapes of U+FFFD, U+2028 and U+2029, scanned and decoded. *)
Lemma scan_string_fffd (Y : bytes) :
  json.scan_string (json.backslash :: bytes_of "ufffd" ++ Y)
  = match json.scan_string Y with
    | Some (raw, rest) => Some (json.backslash :: bytes_of "ufffd" ++ raw, rest)
    | None => None
    end.
Proof. reflexivity. Qed.

Lemma unquote_rest_fffd (X : bytes) :
  json.unquote_rest 0 (json.backslash :: bytes_of "ufffd" ++ X)
  = match json.unquote_rest 0 X with
    | Some t => Some (chr 239 :: chr 191 :: chr 189 :: t)
    | None => None
    end.
Proof. reflexivity. Qed.

Lemma scan_string_202x (r : Z) (Y : bytes) :
  r = 8232 \/ r = 8233 ->
  json.scan_string (json.backslash :: bytes_of "u202" ++ [json.hex (Z.land r 15)] ++ Y)
  = match json.scan_string Y with
    | Some (raw, rest) =>
        Some (json.backslash :: bytes_of "u202" ++ [json.hex (Z.land r 15)] ++ raw, rest)
    | None => None
    end.
Proof. intros [->| ->]; reflexivity. Qed.

Lemma unquote_rest_202x (r : Z) (X : bytes) :
  r = 8232 \/ r = 8233 ->
  json.unquote_rest 0 (json.backslash :: bytes_of "u202" ++ [json.hex (Z.land r 15)] ++ X)
  = match json.unquote_rest 0 X with
    | Some t => Some (utf8.EncodeRune r ++ t)
    | None => None
    end.
Proof. intros [->| ->]; reflexivity. Qed.

(** The cases of a rune that is not ASCII. *)
Lemma rune_cases (r size : Z) :
  ((r =? utf8.RuneError) && (size =? 1) = true) \/
  ((r =? utf8.RuneError) && (size =? 1) = false /\ (r = 8232 \/ r = 8233)) \/
  ((r =? utf8.RuneError) && (size =? 1) = false /\ (r =? 8232) || (r =? 8233) = false).
Proof.
  destruct ((r =? utf8.RuneError) && (size =? 1)); [left; reflexivity|right].
  destruct (Z.eqb_spec r 8232); [left; split; [reflexivity|left; assumption]|].
  destruct (Z.eqb_spec r 8233); [left; split; [reflexivity|right; assumption]|].
  right. split; reflexivity.
Qed.

(** What the encoder writes between the quotes is a string literal for the
    scanner, up to the closing quote. *)
Lemma scan_string_body (s : bytes) (k : nat) (rest : bytes) :
  json.scan_string (json.string_body k s ++ dquote :: rest)
  = Some (json.string_body k s, rest).
Proof.
  revert k. induction s as [|c s IH]; intros k.
  - destruct k; reflexivity.
  - destruct k as [|k]; [|apply IH]. cbn [json.string_body].
    destruct (Z.ltb_spec (code c) utf8.RuneSelf) as [Hlt|Hge].
    + destruct (json.htmlSafe (code c)) eqn:Hsafe.
      * apply htmlSafe_plain in Hsafe. cbn [app json.scan_string].
        destruct (Z.eqb_spec (code c) 34); [lia|].
        destruct (Z.eqb_spec (code c) 92); [lia|].
        destruct (Z.ltb_spec (code c) 32); [lia|].
        rewrite IH. reflexivity.
      * rewrite <- app_assoc, scan_string_escape, IH; [reflexivity| |exact Hsafe].
        apply Z.ltb_lt. exact Hlt.
    + destruct (utf8.DecodeRune (c :: s)) as [r size] eqn:HD.
      destruct (rune_cases r size) as [Hv|[[Hv Hr]|[Hv Hr]]]; rewrite Hv.
      * change (json.backslash :: bytes_of "ufffd" ++ json.string_body 0 s)
          with ((json.backslash :: bytes_of "ufffd") ++ json.string_body 0 s).
        change (((json.backslash :: bytes_of "ufffd") ++ json.string_body 0 s)
                  ++ dquote :: rest)
          with (json.backslash :: bytes_of "ufffd"
                  ++ (json.string_body 0 s ++ dquote :: rest)).
        rewrite scan_string_fffd, IH. reflexivity.
      * replace ((r =? 8232) || (r =? 8233)) with true
          by (destruct Hr as [->| ->]; reflexivity).
        change ((json.backslash :: bytes_of "u202" ++ [json.hex (Z.land r 15)]
                   ++ json.string_body (Z.to_nat size - 1) s) ++ dquote :: rest)
          with (json.backslash :: bytes_of "u202" ++ [json.hex (Z.land r 15)]
                   ++ (json.string_body (Z.to_nat size - 1) s ++ dquote :: rest)).
        rewrite scan_string_202x by exact Hr. rewrite IH. reflexivity.
      * rewrite Hr. rewrite <- app_assoc, scan_string_high, IH; [reflexivity|].
        apply (DecodeRune_valid _ _ _ _ HD Hv). unfold utf8.RuneSelf in Hge. lia.
Qed.

(** Bytes passed over are copied by the coercion. *)
Lemma coerce_from_skip (s : bytes) (k : nat) :
  utf8.coerce_from k s = take k s ++ utf8.coerce_from 0 (drop k s).
Proof.
  revert k. induction s as [|c s IH]; intros k.
  - destruct k; reflexivity.
  - destruct k as [|k]; [reflexivity|].
    cbn [utf8.coerce_from take firstn drop skipn app]. rewrite IH. reflexivity.
Qed.

(** The coercion leaves valid UTF-8 alone. *)
Lemma coerce_from_valid (s : bytes) (k : nat) :
  utf8.valid_from k s = true -> utf8.coerce_from k s = s.
Proof.
  revert k. induction s as [|c s IH]; intros k H; [destruct k; reflexivity|].
  destruct k as [|k]; cbn [utf8.coerce_from utf8.valid_from] in *.
  - destruct (utf8.DecodeRune (c :: s)) as [r size].
    destruct ((r =? utf8.RuneError) && (size =? 1)); [discriminate|].
    rewrite IH by exact H. reflexivity.
  - rewrite IH by exact H. reflexivity.
Qed.

(** Decoding what the encoder wrote between the quotes gives the string
    back, coerced to valid UTF-8. *)
Lemma unquote_rest_body (s : bytes) (k : nat) :
  json.unquote_rest 0 (json.string_body k s)
  = Some (utf8.coerce_from 0 (drop k s)).
Proof.
  revert k. induction s as [|c s IH]; intros k.
  - destruct k; reflexivity.
  - destruct k as [|k]; [|apply IH].
    cbn [json.string_body drop skipn utf8.coerce_from].
    destruct (Z.ltb_spec (code c) utf8.RuneSelf) as [Hlt|Hge].
    + unfold utf8.RuneSelf in Hlt. rewrite DecodeRune_ascii by exact Hlt.
      replace ((code c =? utf8.RuneError) && (1 =? 1)) with false
        by (unfold utf8.RuneError; destruct (Z.eqb_spec (code c) 65533);
            [lia|reflexivity]).
      change (Z.to_nat 1 - 1)%nat with 0%nat.
      destruct (json.htmlSafe (code c)) eqn:Hsafe.
      * apply htmlSafe_plain in Hsafe. cbn [json.unquote_rest].
        destruct (Z.eqb_spec (code c) 92); [lia|].
        destruct (Z.eqb_spec (code c) 34); [lia|].
        destruct (Z.ltb_spec (code c) 32); [lia|].
        destruct (Z.ltb_spec (code c) utf8.RuneSelf); [|unfold utf8.RuneSelf in *; lia].
        cbn [orb]. rewrite (IH 0%nat). reflexivity.
      * rewrite unquote_rest_escape, (IH 0%nat); [reflexivity| |exact Hsafe].
        apply Z.ltb_lt. exact Hlt.
    + unfold utf8.RuneSelf in Hge.
      destruct (utf8.DecodeRune (c :: s)) as [r size] eqn:HD.
      destruct (rune_cases r size) as [Hv|[[Hv Hr]|[Hv Hr]]]; rewrite Hv.
      * rewrite unquote_rest_fffd, (IH 0%nat). reflexivity.
      * replace ((r =? 8232) || (r =? 8233)) with true
          by (destruct Hr as [->| ->]; reflexivity).
        rewrite unquote_rest_202x by exact Hr. rewrite IH.
        destruct (DecodeRune_valid _ _ _ _ HD Hv) as (Henc & Hsz & Hlen & _).
        rewrite Henc, (coerce_from_skip s (Z.to_nat size - 1)).
        replace (take (Z.to_nat size) (c :: s))
          with (c :: take (Z.to_nat size - 1) s); [reflexivity|].
        destruct (Z.to_nat size) as [|n] eqn:E; [lia|].
        cbn [take firstn]. rewrite Nat.sub_1_r. reflexivity.
      * rewrite Hr.
        destruct (DecodeRune_valid _ _ _ _ HD Hv) as (Henc & Hsz & Hlen & _).
        destruct (Z.to_nat size) as [|n] eqn:E; [lia|].
        cbn [take firstn app]. replace (S n - 1)%nat with n by lia.
        cbn [json.unquote_rest].
        destruct (Z.eqb_spec (code c) 92); [lia|].
        destruct (Z.eqb_spec (code c) 34); [lia|].
        destruct (Z.ltb_spec (code c) 32); [lia|].
        destruct (Z.ltb_spec (code c) utf8.RuneSelf); [unfold utf8.RuneSelf in *; lia|].
        cbn [orb].
        pose proof (DecodeRune_prefix c s (json.string_body n s) r size HD Hv) as HP.
        rewrite E in HP. cbn [take firstn app] in HP. rewrite HP.
        rewrite E. replace (S n - 1)%nat with n by lia.
        cbn [length] in Hlen.
        replace n with (length (take n s)) at 1 by (rewrite length_take; lia).
        rewrite unquote_rest_skip, IH, Henc, (coerce_from_skip s n).
        cbn [take firstn app]. reflexivity.
Qed.

(** The first loop of [unquoteBytes] only saves work: on the prefix that
    it passes over, the second loop is the identity. *)
Lemma split_usual_spec (E : bytes) (k : nat) (p r : bytes) :
  json.split_usual k E = (p, r) ->
  p ++ r = E /\ take k p = take k E /\
  json.unquote_rest k E
  = match json.unquote_rest 0 r with
    | Some t => Some (drop k p ++ t)
    | None => None
    end.
Proof.
  revert k p r. induction E as [|c E IH]; intros k p r H.
  - destruct k; inversion H; subst; repeat split; reflexivity.
  - destruct k as [|k]; cbn [json.split_usual] in H.
    + assert (Hstop : (p, r) = ([], c :: E) ->
              p ++ r = c :: E /\ take 0 p = take 0 (c :: E) /\
              json.unquote_rest 0 (c :: E)
              = match json.unquote_rest 0 r with
                | Some t => Some (drop 0 p ++ t)
                | None => None
                end).
      { intros Heq. inversion Heq; subst. repeat split.
        cbn [drop skipn app].
        destruct (json.unquote_rest 0 (c :: E)); reflexivity. }
      destruct ((code c =? 92) || (code c =? 34) || (code c <? 32)) eqn:Hsp;
        [apply Hstop; symmetry; exact H|].
      cbn [json.unquote_rest].
      apply orb_false_elim in Hsp as [Hsp H32].
      apply orb_false_elim in Hsp as [H92 H34].
      rewrite H92, H34, H32. cbn [orb].
      destruct (code c <? utf8.RuneSelf) eqn:Hself.
      * destruct (json.split_usual 0 E) as [p' r'] eqn:HS.
        inversion H; subst. destruct (IH _ _ _ HS) as (Happ & _ & Hun).
        repeat split; [cbn [app]; rewrite Happ; reflexivity|].
        rewrite Hun. cbn [drop skipn app]. change (drop 0 p') with p'.
        destruct (json.unquote_rest 0 r); reflexivity.
      * destruct (utf8.DecodeRune (c :: E)) as [rr size] eqn:HD.
        destruct ((rr =? utf8.RuneError) && (size =? 1)) eqn:Hv.
        { destruct (Hstop (eq_sym H)) as (? & ? & Hun).
          repeat split; try assumption.
          rewrite <- Hun. cbn [json.unquote_rest].
          rewrite H92, H34, H32, Hself, HD. reflexivity. }
        destruct (json.split_usual (Z.to_nat size - 1) E) as [p' r'] eqn:HS.
        inversion H; subst.
        destruct (IH _ _ _ HS) as (Happ & Htake & Hun).
        repeat split; [cbn [app]; rewrite Happ; reflexivity|].
        rewrite Hun. cbn [drop skipn].
        destruct (json.unquote_rest 0 r); [|reflexivity].
        destruct (DecodeRune_valid _ _ _ _ HD Hv) as (Henc & Hsz & Hlen & _).
        rewrite Henc. f_equal.
        destruct (Z.to_nat size) as [|n] eqn:En; [lia|].
        replace (S n - 1)%nat with n in * by lia.
        cbn [take firstn app]. rewrite <- Htake. f_equal.
        rewrite app_assoc, take_drop. reflexivity.
    + destruct (json.split_usual k E) as [p' r'] eqn:HS.
      inversion H; subst. destruct (IH _ _ _ HS) as (Happ & Htake & Hun).
      repeat split.
      * cbn [app]. rewrite Happ. reflexivity.
      * cbn [take firstn]. rewrite Htake. reflexivity.
      * cbn [json.unquote_rest drop skipn]. exact Hun.
Qed.

(** So [unquoteBytes] is its second loop. *)
Lemma unquote_unquote_rest (E : bytes) : json.unquote E = json.unquote_rest 0 E.
Proof.
  unfold json.unquote. destruct (json.split_usual 0 E) as [p r] eqn:HS.
  destruct (split_usual_spec _ _ _ _ HS) as (Happ & _ & Hun).
  rewrite Hun. change (drop 0 p) with p.
  destruct r as [|c r]; [|reflexivity].
  cbn [json.unquote_rest]. rewrite app_nil_r in Happ. subst.
  rewrite app_nil_r. reflexivity.
Qed.

(** A string literal written by the encoder is read back as the string
    coerced to valid UTF-8, and the scanner stops behind its closing quote. *)
Lemma parse_string_encode (s : string) (rest : bytes) :
  json.parse_string (json.string_body 0 (bytes_of s) ++ dquote :: rest)
  = Some (utf8.coerce_from 0 (bytes_of s), rest).
Proof.
  unfold json.parse_string. rewrite scan_string_body, unquote_unquote_rest.
  rewrite unquote_rest_body. reflexivity.
Qed.

(** ** JSON values *)

(** A run of digits ends at the first byte that is none. *)
Lemma scan_digits_all (s : string) (c : ascii) (rest : bytes) :
  all_digits s = true -> json.isDigit c = false ->
  json.scan_digits (bytes_of s ++ c :: rest) = (bytes_of s, c :: rest).
Proof.
  intros Hs Hc. induction s as [|d s IH]; cbn.
  - rewrite Hc. reflexivity.
  - cbn in Hs. apply andb_prop in Hs as [Hd Hs]. unfold json.isDigit at 1.
    rewrite Hd, (IH Hs). reflexivity.
Qed.


Lemma ends_number_tests (c : ascii) :
  ends_number c ->
  json.isDigit c = false /\ (code c =? 46) = false /\
  (code c =? 101) || (code c =? 69) = false /\ json.isSpace c = false.
Proof.
  unfold ends_number, json.isDigit, json.isSpace. intros H.
  repeat split;
    repeat match goal with
    | |- context [?a <=? ?b] => destruct (Z.leb_spec a b)
    | |- context [?a =? ?b] => destruct (Z.eqb_spec a b)
    end; try reflexivity; lia.
Qed.

(** The number scanner takes the digits of a natural number whole. *)
Lemma scan_number_utoa (m : Z) (sign : bytes) (c : ascii) (rest : bytes) :
  0 <= m < 10 ^ 20 -> ends_number c ->
  (sign = [] \/ (sign = [chr 45] /\ 0 < m)) ->
  json.scan_number (sign ++ bytes_of (strconv.utoa 20 m EmptyString) ++ c :: rest)
  = Some (sign ++ bytes_of (strconv.utoa 20 m EmptyString), c :: rest).
Proof.
  intros Hm Hc Hsign.
  destruct (ends_number_tests c Hc) as (Hd & Hdot & He & _).
  pose proof (utoa_all_digits 20 m EmptyString ltac:(lia) eq_refl) as Hall.
  destruct (utoa_head 19 m EmptyString Hm) as (c0 & s0 & Heq & H0 & Hp).
  rewrite Heq in *. cbn [all_digits] in Hall.
  apply andb_prop in Hall as [Hc0 Hs0]. apply andb_prop in Hc0 as [Hlo Hhi].
  assert (Hbody : forall sg,
            (if code c0 =? 48
             then json.scan_fraction (sg ++ [c0]) (bytes_of s0 ++ c :: rest)
             else if json.isDigit c0
                  then let (ds, rest0) := json.scan_digits (bytes_of s0 ++ c :: rest) in
                       json.scan_fraction (sg ++ c0 :: ds) rest0
                  else None)
            = Some (sg ++ c0 :: bytes_of s0, c :: rest)).
  { intros sg. destruct (Z.eqb_spec (code c0) 48) as [E48|N48].
    - assert (m = 0) as -> by (destruct (Z.eq_dec m 0); [assumption|]; lia).
      destruct (H0 eq_refl) as [_ ->]. cbn [bytes_of list_ascii_of_string app].
      unfold json.scan_fraction, json.scan_exponent. rewrite Hdot, He. reflexivity.
    - unfold json.isDigit at 1. rewrite Hlo, Hhi. cbn [andb].
      rewrite scan_digits_all by assumption.
      unfold json.scan_fraction, json.scan_exponent. rewrite Hdot, He. reflexivity. }
  unfold json.scan_number. destruct Hsign as [->|[-> Hpos]].
  - cbn [app bytes_of list_ascii_of_string].
    destruct (Z.eqb_spec (code c0) 45); [apply Z.leb_le in Hlo; lia|].
    apply (Hbody []).
  - cbn [app bytes_of list_ascii_of_string].
    replace (code (chr 45) =? 45) with true by reflexivity.
    apply (Hbody [chr 45]).
Qed.

Lemma bytes_of_Itoa (n : Z) :
  bytes_of (strconv.Itoa n)
  = (if n <? 0 then [chr 45] else []) ++
    bytes_of (strconv.utoa 20 (if n <? 0 then - n else n) EmptyString).
Proof. unfold strconv.Itoa. destruct (n <? 0); reflexivity. Qed.

(** A number written by the encoder is one value for the parser. *)
Lemma parse_value_int (fuel : nat) (n : Z) (c : ascii) (rest : bytes) :
  - 2 ^ 63 <= n < 2 ^ 63 -> ends_number c ->
  json.parse_value (S fuel) (json.encode_int n ++ c :: rest)
  = Some (json.JNumber (json.encode_int n), c :: rest).
Proof.
  intros Hn Hc. change (2 ^ 63) with 9223372036854775808 in Hn.
  assert (Hscan : json.scan_number (json.encode_int n ++ c :: rest)
                  = Some (json.encode_int n, c :: rest)).
  { unfold json.encode_int. rewrite bytes_of_Itoa, <- app_assoc.
    apply scan_number_utoa; [| exact Hc |].
    - change (10 ^ 20) with 100000000000000000000.
      destruct (Z.ltb_spec n 0); lia.
    - destruct (Z.ltb_spec n 0); [right; split; [reflexivity|lia]|left; reflexivity]. }
  assert (Hfirst : exists c0 s0, json.encode_int n = c0 :: s0 /\
            json.isSpace c0 = false /\ ((code c0 =? 45) || json.isDigit c0) = true).
  { unfold json.encode_int. rewrite bytes_of_Itoa.
    destruct (Z.ltb_spec n 0).
    - exists (chr 45), (bytes_of (strconv.utoa 20 (- n) EmptyString)).
      repeat split; reflexivity.
    - destruct (utoa_head 19 n EmptyString) as (c0 & s0 & Heq & H0 & Hp).
      { change (10 ^ Z.of_nat 20) with 100000000000000000000. lia. }
      pose proof (utoa_all_digits 20 n EmptyString ltac:(lia) eq_refl) as Hall.
      rewrite Heq in *. cbn [all_digits] in Hall.
      apply andb_prop in Hall as [Hc0 _].
      exists c0, (bytes_of s0). split; [reflexivity|].
      unfold json.isDigit. rewrite Hc0, orb_true_r. split; [|reflexivity].
      apply andb_prop in Hc0 as [Hlo Hhi]. unfold json.isSpace.
      repeat match goal with
      | |- context [?a =? ?b] => destruct (Z.eqb_spec a b)
      end; try reflexivity; lia. }
  destruct Hfirst as (c0 & s0 & Heq & Hsp & Hnum).
  rewrite Heq in *. cbn [json.parse_value app json.skip_space]. rewrite Hsp.
  assert (code c0 <> 123 /\ code c0 <> 91 /\ code c0 <> 34) as (N1 & N2 & N3).
  { apply orb_prop in Hnum as [H|H].
    - apply Z.eqb_eq in H. lia.
    - unfold json.isDigit in H. apply andb_prop in H as [Hlo Hhi]. lia. }
  destruct (Z.eqb_spec (code c0) 123); [contradiction|].
  destruct (Z.eqb_spec (code c0) 91); [contradiction|].
  destruct (Z.eqb_spec (code c0) 34); [contradiction|].
  rewrite Hnum. cbn [app] in Hscan. rewrite Hscan. reflexivity.
Qed.

(** A string written by the encoder is one value for the parser: the
    string coerced to valid UTF-8. *)
Lemma parse_value_string (fuel : nat) (s : string) (rest : bytes) :
  json.parse_value (S fuel) (json.encode_string s ++ rest)
  = Some (json.JString (utf8.coerce_from 0 (bytes_of s)), rest).
Proof.
  unfold json.encode_string. cbn [app json.parse_value json.skip_space].
  change (json.isSpace dquote) with false. cbv iota.
  change (code dquote =? 123) with false. change (code dquote =? 91) with false.
  change (code dquote =? 34) with true. cbv iota.
  rewrite <- app_assoc. cbn [app]. rewrite parse_string_encode. reflexivity.
Qed.

Lemma parse_value_bool (fuel : nat) (b : bool) (rest : bytes) :
  json.parse_value (S fuel) (json.encode_bool b ++ rest)
  = Some (json.JBool b, rest).
Proof. destruct b; reflexivity. Qed.

Lemma parse_value_null (fuel : nat) (rest : bytes) :
  json.parse_value (S fuel) (bytes_of "null" ++ rest) = Some (json.JNull, rest).
Proof. reflexivity. Qed.


Lemma join_comma_cons (a b : bytes) (l : list bytes) :
  json.join_comma (a :: b :: l) = a ++ chr 44 :: json.join_comma (b :: l).
Proof. reflexivity. Qed.

(** The elements of an array written by the encoder, up to the bracket. *)
Lemma parse_elements_strings (l : list string) (x : string) (fuel : nat) (rest : bytes) :
  (length l + 2 <= fuel)%nat ->
  json.parse_elements fuel
    (json.join_comma (map json.encode_string (x :: l)) ++ chr 93 :: rest)
  = Some (map parsed_string (x :: l), rest).
Proof.
  revert x fuel. induction l as [|y l IH]; intros x fuel Hf.
  - destruct fuel as [|[|fuel]]; [cbn in Hf; lia|cbn in Hf; lia|].
    cbn [map json.join_comma json.parse_elements].
    rewrite parse_value_string. reflexivity.
  - destruct fuel as [|[|fuel]]; [cbn in Hf; lia|cbn in Hf; lia|].
    change (map json.encode_string (x :: y :: l))
      with (json.encode_string x :: json.encode_string y :: map json.encode_string l).
    rewrite join_comma_cons, <- app_assoc.
    change ((chr 44 :: json.join_comma (json.encode_string y :: map json.encode_string l))
              ++ chr 93 :: rest)
      with (chr 44 :: json.join_comma (map json.encode_string (y :: l)) ++ chr 93 :: rest).
    change (json.parse_elements (S (S fuel)) ?a) with
      (match json.parse_value (S fuel) a with
       | None => None
       | Some (v, rest0) =>
           match json.skip_space rest0 with
           | [] => None
           | c :: s1 =>
               if code c =? 44 then
                 match json.parse_elements (S fuel) s1 with
                 | Some (vs, rest') => Some (v :: vs, rest')
                 | None => None
                 end
               else if code c =? 93 then Some ([v], s1)
               else None
           end
       end).
    rewrite parse_value_string.
    cbn [json.skip_space]. change (json.isSpace (chr 44)) with false. cbv iota.
    change (code (chr 44) =? 44) with true. cbv iota.
    rewrite (IH y (S fuel)) by (cbn in Hf |- *; lia).
    reflexivity.
Qed.


(** A slice written by the encoder is one value for the parser. *)
Lemma parse_value_slice (v : slice string) (fuel : nat) (rest : bytes) :
  (length (default [] v) + 2 <= fuel)%nat ->
  json.parse_value (S fuel) (json.encode_slice v ++ rest)
  = Some (parsed_slice v, rest).
Proof.
  intros Hf. destruct v as [[|x l]|]; cbn [json.encode_slice parsed_slice].
  - reflexivity.
  - simpl in Hf.
    cbn [app json.parse_value json.skip_space].
    change (json.isSpace (chr 91)) with false. cbv iota.
    change (code (chr 91) =? 123) with false. change (code (chr 91) =? 91) with true.
    cbv iota. rewrite <- app_assoc. cbn [app].
    destruct (json.join_comma (map json.encode_string (x :: l))) as [|c0 t] eqn:E.
    { cbn [map json.join_comma] in E. destruct l; discriminate E. }
    assert (c0 = dquote) as ->.
    { cbn [map json.join_comma] in E. destruct l; inversion E; reflexivity. }
    cbn [app json.skip_space]. change (json.isSpace dquote) with false. cbv iota.
    change (code dquote =? 93) with false. cbv iota.
    change (dquote :: t ++ chr 93 :: rest) with ((dquote :: t) ++ chr 93 :: rest).
    rewrite <- E, parse_elements_strings by lia. reflexivity.
  - apply parse_value_null.
Qed.

(** ** The object of a report *)

Lemma member_app (name : string) (venc X : bytes) :
  json.member name venc ++ X
  = dquote :: bytes_of name ++ dquote :: chr 58 :: (venc ++ X).
Proof. unfold json.member. cbn [app]. rewrite <- app_assoc. reflexivity. Qed.

(** One member written by the encoder, and the comma or brace behind it. *)
Lemma parse_members_step (fuel : nat) (name : string) (venc : bytes)
    (v : json.value) (c : ascii) (rest : bytes) :
  (forall Y, json.parse_string (bytes_of name ++ dquote :: Y) = Some (bytes_of name, Y)) ->
  json.parse_value fuel (venc ++ c :: rest) = Some (v, c :: rest) ->
  json.isSpace c = false ->
  json.parse_members (S fuel) (json.member name venc ++ c :: rest)
  = if code c =? 44 then
      match json.parse_members fuel rest with
      | Some (ms, rest') => Some ((bytes_of name, v) :: ms, rest')
      | None => None
      end
    else if code c =? 125 then Some ([(bytes_of name, v)], rest)
    else None.
Proof.
  intros Hname Hval Hsp. rewrite member_app.
  cbn [json.parse_members json.skip_space].
  change (json.isSpace dquote) with false. cbv iota.
  change (code dquote =? 34) with true. cbv iota.
  rewrite Hname. cbn [json.skip_space].
  change (json.isSpace (chr 58)) with false. cbv iota.
  change (code (chr 58) =? 58) with true. cbv iota.
  rewrite Hval. cbn [json.skip_space]. rewrite Hsp. reflexivity.
Qed.

(** The opening brace, with a member behind it. *)
Lemma parse_value_object (fuel : nat) (name : string) (venc X : bytes) :
  json.parse_value (S fuel) (chr 123 :: json.member name venc ++ X)
  = match json.parse_members fuel (json.member name venc ++ X) with
    | Some (ms, rest) => Some (json.JObject ms, rest)
    | None => None
    end.
Proof. reflexivity. Qed.



Lemma comma_ends : ends_number (chr 44).
Proof. left. reflexivity. Qed.

(** The parser reads the object that the encoder writes for a report. *)
Lemma parse_value_struct (r : TLSReport) (g : nat) (rest : bytes) :
  - 2 ^ 63 <= Port r < 2 ^ 63 ->
  (elements r + 2 <= g)%nat ->
  json.parse_value (S (10 + S g)) (json.encode_struct r ++ rest)
  = Some (json.JObject (parsed_members r), rest).
Proof.
  intros Hport Hg. unfold elements in Hg.
  unfold json.encode_struct, json.fieldNames, json.fieldValues.
  cbn [zip_with json.join_comma].
  repeat (rewrite <- app_assoc; cbn [app]).
  rewrite parse_value_object. cbn [Nat.add].
  rewrite (parse_members_step _ _ _ (parsed_string (DateTime r)));
    [|intros; reflexivity|apply parse_value_string|reflexivity].
  change (code (chr 44) =? 44) with true. cbv iota.
  rewrite (parse_members_step _ _ _ (parsed_string (Hostname r)));
    [|intros; reflexivity|apply parse_value_string|reflexivity].
  change (code (chr 44) =? 44) with true. cbv iota.
  rewrite (parse_members_step _ _ _ (json.JNumber (json.encode_int (Port r))));
    [|intros; reflexivity|apply parse_value_int; [exact Hport|exact comma_ends]|reflexivity].
  change (code (chr 44) =? 44) with true. cbv iota.
  rewrite (parse_members_step _ _ _ (parsed_string (EffectiveExpirationDate r)));
    [|intros; reflexivity|apply parse_value_string|reflexivity].
  change (code (chr 44) =? 44) with true. cbv iota.
  rewrite (parse_members_step _ _ _ (json.JBool (IncludeSubdomains r)));
    [|intros; reflexivity|apply parse_value_bool|reflexivity].
  change (code (chr 44) =? 44) with true. cbv iota.
  rewrite (parse_members_step _ _ _ (parsed_string (NotedHostname r)));
    [|intros; reflexivity|apply parse_value_string|reflexivity].
  change (code (chr 44) =? 44) with true. cbv iota.
  rewrite (parse_members_step _ _ _ (parsed_slice (ServedCertificateChain r)));
    [|intros; reflexivity|apply parse_value_slice; lia|reflexivity].
  change (code (chr 44) =? 44) with true. cbv iota.
  rewrite (parse_members_step _ _ _ (parsed_slice (ValidatedCertificateChain r)));
    [|intros; reflexivity|apply parse_value_slice; lia|reflexivity].
  change (code (chr 44) =? 44) with true. cbv iota.
  rewrite (parse_members_step _ _ _ (parsed_slice (KnownPins r)));
    [|intros; reflexivity|apply parse_value_slice; lia|reflexivity].
  change (code (chr 44) =? 44) with true. cbv iota.
  rewrite (parse_members_step _ _ _ (parsed_string (AppVersion r)));
    [|intros; reflexivity|apply parse_value_string|reflexivity].
  reflexivity.
Qed.

(** ** Storing the parsed object *)

Lemma string_of_bytes_of (s : string) : string_of (bytes_of s) = s.
Proof. apply string_of_list_ascii_of_string. Qed.

(** Valid UTF-8 survives the coercion. *)
Lemma ToValidUTF8_valid (s : string) :
  utf8.ValidString s = true -> utf8.ToValidUTF8 s = s.
Proof.
  intros H. unfold utf8.ToValidUTF8. rewrite coerce_from_valid by exact H.
  apply string_of_bytes_of.
Qed.

Lemma store_int_encode (n old : Z) :
  - 2 ^ 63 <= n < 2 ^ 63 ->
  json.store_int (json.JNumber (json.encode_int n)) old = (n, None).
Proof.
  intros Hn. unfold json.store_int, json.encode_int.
  rewrite string_of_bytes_of, ParseInt_Itoa by exact Hn. reflexivity.
Qed.

(** The array loop on parsed strings: the slice grows by one element for
    each of them, whatever its backing array held. *)
Lemma store_elements_strings (l : list string) (i : nat) (b : list string)
    (err : option json.UnmarshalError) :
  (i <= length b)%nat ->
  exists b',
    json.store_elements (map parsed_string l) i b i err
    = (b', (i + length l)%nat, (i + length l)%nat, err) /\
    take (i + length l) b' = take i b ++ map utf8.ToValidUTF8 l.
Proof.
  revert i b err. induction l as [|s l IH]; intros i b err Hi.
  - exists b. cbn [map json.store_elements length]. rewrite Nat.add_0_r, app_nil_r.
    split; reflexivity.
  - cbn [map json.store_elements].
    set (b1 := if (length b <=? i)%nat then _ else b).
    assert (Hb1 : (i < length b1)%nat /\ take i b1 = take i b).
    { subst b1. destruct (Nat.leb_spec (length b) i) as [Hle|Hgt].
      - assert (i = length b) as -> by lia.
        set (newcap := if (_ <? 4)%nat then 4%nat else _).
        assert (length b < newcap)%nat.
        { subst newcap.
          destruct (Nat.ltb_spec (length b + length b / 2) 4) as [H4|H4].
          - pose proof (Nat.Div0.mul_div_le (length b) 2). lia.
          - destruct (Nat.le_gt_cases 2 (length b)) as [H2|H2].
            + assert (1 <= length b / 2)%nat; [|lia].
              apply Nat.div_le_lower_bound; lia.
            + rewrite Nat.div_small in H4 by lia. lia. }
        rewrite firstn_all. split.
        + rewrite length_app, length_replicate. lia.
        + rewrite take_app_length. reflexivity.
      - split; [lia|reflexivity]. }
    destruct Hb1 as [Hlt Htake].
    replace (if (i <=? i)%nat then S i else i) with (S i)
      by (rewrite Nat.leb_refl; reflexivity).
    unfold parsed_string at 1. cbn [json.store_string].
    replace (json.saveError err None) with err by (destruct err; reflexivity).
    destruct (IH (S i) (<[i := string_of (utf8.coerce_from 0 (bytes_of s))]> b1) err)
      as (b' & Hrun & Hres).
    { rewrite length_insert. lia. }
    exists b'. cbn [length]. rewrite Nat.add_succ_r. split; [exact Hrun|].
    cbn [Nat.add] in Hres. rewrite Hres.
    rewrite (take_S_r _ _ (utf8.ToValidUTF8 s))
      by (apply list_lookup_insert_eq; exact Hlt).
    rewrite take_insert_ge by lia. rewrite Htake, <- app_assoc. reflexivity.
Qed.

(** Storing a parsed slice into a nil slice. *)
Lemma store_slice_encode (v : slice string) :
  exists spare,
    json.store_slice (parsed_slice v) None []
    = (option_map (map utf8.ToValidUTF8) v, spare, None).
Proof.
  destruct v as [l|]; [|exists []; reflexivity].
  cbn [parsed_slice json.store_slice default app length option_map].
  destruct (store_elements_strings l 0 [] None) as (b' & Hrun & Hres);
    [cbn; lia|].
  cbn [Nat.add] in Hrun, Hres. rewrite Hrun.
  rewrite Nat.ltb_irrefl.
  destruct l as [|s l].
  - exists []. reflexivity.
  - exists (drop (length (s :: l)) b'). cbn [length Nat.eqb].
    cbn [length] in Hres. rewrite Hres. reflexivity.
Qed.


(** Each name finds its own field. *)
Lemma find_field_names (i : nat) (n : string) :
  json.fieldNames !! i = Some n -> json.find_field (bytes_of n) = Some i.
Proof.
  intros H. do 10 (destruct i as [|i]; [injection H as <-; vm_compute; reflexivity|]).
  discriminate H.
Qed.

Lemma store_members_cons (key : bytes) (v : json.value)
    (ms : list (bytes * json.value)) (st : json.decodeState) (i : nat) :
  json.find_field key = Some i ->
  json.store_members ((key, v) :: ms) st
  = json.store_members ms (json.store_field i v st).
Proof. intros H. cbn [json.store_members]. rewrite H. reflexivity. Qed.

Ltac store_step i name :=
  rewrite (store_members_cons _ _ _ _ i (find_field_names i name eq_refl));
  cbn [json.store_field json.target json.spareServed json.spareValidated
       json.spareKnown json.savedError
       DateTime Hostname Port EffectiveExpirationDate IncludeSubdomains
       NotedHostname ServedCertificateChain ValidatedCertificateChain KnownPins
       AppVersion parsed_string json.store_string json.store_bool json.saveError].

(** Storing the members of a report into the zero report. *)
Lemma store_members_encode (r : TLSReport) :
  - 2 ^ 63 <= Port r < 2 ^ 63 ->
  exists s1 s2 s3,
    json.store_members (parsed_members r) (json.mkState json.zero [] [] [] None)
    = json.mkState (coerce_report r) s1 s2 s3 None.
Proof.
  intros Hport.
  destruct (store_slice_encode (ServedCertificateChain r)) as (s1 & H1).
  destruct (store_slice_encode (ValidatedCertificateChain r)) as (s2 & H2).
  destruct (store_slice_encode (KnownPins r)) as (s3 & H3).
  exists s1, s2, s3. unfold parsed_members, json.zero.
  store_step 0%nat "date-time".
  store_step 1%nat "hostname".
  store_step 2%nat "port". rewrite store_int_encode by exact Hport.
  store_step 3%nat "effective-expiration-date".
  store_step 4%nat "include-subdomains".
  store_step 5%nat "noted-hostname".
  store_step 6%nat "served-certificate-chain". rewrite H1.
  store_step 7%nat "validated-certificate-chain". rewrite H2.
  store_step 8%nat "known-pins". rewrite H3.
  store_step 9%nat "app-version".
  reflexivity.
Qed.

(** ** The round trip *)

Lemma join_comma_length (l : list string) :
  (length l <= length (json.join_comma (map json.encode_string l)))%nat.
Proof.
  induction l as [|x [|y l] IH]; [cbn; lia| |].
  - cbn [map json.join_comma length]. unfold json.encode_string. cbn [length]. lia.
  - change (map json.encode_string (x :: y :: l))
      with (json.encode_string x :: json.encode_string y :: map json.encode_string l).
    rewrite join_comma_cons, length_app. cbn [length] in IH |- *.
    change (json.encode_string y :: map json.encode_string l)
      with (map json.encode_string (y :: l)). lia.
Qed.

Lemma encode_slice_length (v : slice string) :
  (length (default [] v) <= length (json.encode_slice v))%nat.
Proof.
  destruct v as [l|]; [|cbn; lia].
  change (default [] (Some l)) with l.
  cbn [json.encode_slice length]. rewrite length_app.
  pose proof (join_comma_length l). lia.
Qed.

(** The text of a report is long enough to give the parser its fuel. *)
Lemma encode_struct_length (r : TLSReport) :
  (elements r + 12 <= 2 * length (json.encode_struct r))%nat.
Proof.
  unfold elements, json.encode_struct, json.fieldNames, json.fieldValues, json.member.
  cbn [zip_with json.join_comma].
  pose proof (encode_slice_length (ServedCertificateChain r)).
  pose proof (encode_slice_length (ValidatedCertificateChain r)).
  pose proof (encode_slice_length (KnownPins r)).
  repeat (rewrite length_app || rewrite length_cons).
  lia.
Qed.

(** The parser reads the text of a report as its object. *)
Lemma parse_encode_struct (r : TLSReport) :
  - 2 ^ 63 <= Port r < 2 ^ 63 ->
  json.parse (json.encode_struct r) = Some (json.JObject (parsed_members r)).
Proof.
  intros Hport. unfold json.parse.
  pose proof (encode_struct_length r) as Hlen.
  replace (2 * length (json.encode_struct r) + 2)%nat
    with (S (10 + S (2 * length (json.encode_struct r) - 10)))%nat by lia.
  rewrite <- (app_nil_r (json.encode_struct r)) at 2.
  rewrite parse_value_struct by (try exact Hport; lia).
  reflexivity.
Qed.

(** Marshalling a report and unmarshalling the text into a zero report gives
    the report with its strings coerced to valid UTF-8, and no error. *)
Lemma Unmarshal_encode_struct (r : TLSReport) :
  - 2 ^ 63 <= Port r < 2 ^ 63 ->
  json.Unmarshal (json.encode_struct r) = (coerce_report r, None).
Proof.
  intros Hport. unfold json.Unmarshal. rewrite parse_encode_struct by exact Hport.
  cbn [json.store_struct].
  destruct (store_members_encode r Hport) as (s1 & s2 & s3 & ->). reflexivity.
Qed.

Lemma forallb_valid (l : list string) :
  forallb utf8.ValidString l = true -> map utf8.ToValidUTF8 l = l.
Proof.
  induction l as [|s l IH]; [reflexivity|]. cbn [forallb map]. intros H.
  apply andb_prop in H as [Hs Hl].
  rewrite ToValidUTF8_valid, IH by assumption. reflexivity.
Qed.

Lemma slice_valid (v : slice string) :
  forallb utf8.ValidString (default [] v) = true ->
  option_map (map utf8.ToValidUTF8) v = v.
Proof.
  destruct v as [l|]; [|reflexivity]. intros H. cbn [option_map].
  rewrite forallb_valid by exact H. reflexivity.
Qed.

(** C6, as the claim states it, fails: a host name that is not UTF-8 comes
    back as U+FFFD, three other bytes. *)
Lemma Marshal_Unmarshal_counterexample :
  exists data,
    json.Marshal latin1_report = Ok data /\
    snd (json.Unmarshal data) = None /\
    Hostname latin1_report = String (chr 255) EmptyString /\
    Hostname (fst (json.Unmarshal data))
    = String (chr 239) (String (chr 191) (String (chr 189) EmptyString)) /\
    Hostname (fst (json.Unmarshal data)) <> Hostname latin1_report.
Proof.
  exists (json.encode_struct latin1_report).
  split; [reflexivity|]. split; [vm_compute; reflexivity|].
  split; [reflexivity|]. split; [vm_compute; reflexivity|].
  vm_compute. discriminate.
Qed.

(** C6, amended.  For a report whose port is in the int range and whose
    strings other than [DateTime] are valid UTF-8, [json.Marshal] succeeds;
    its text is an object with exactly the ten names of the struct tags, in
    the order of the struct, with a string for each string field, an integer
    literal for the port, a boolean for [IncludeSubdomains] and, for each
    slice, an array of strings or null when the slice is nil; and
    [json.Unmarshal] of that text into a zero report returns no error and a
    report whose nine fields other than [DateTime] are the original ones. *)
Theorem Marshal_Unmarshal_report (r : TLSReport) :
  - 2 ^ 63 <= Port r < 2 ^ 63 ->
  valid_utf8 r = true ->
  exists data r',
    json.Marshal r = Ok data /\
    json.parse data = Some (json.JObject (parsed_members r)) /\
    map fst (parsed_members r) = map bytes_of json.fieldNames /\
    json.Unmarshal data = (r', None) /\
    Hostname r' = Hostname r /\
    Port r' = Port r /\
    EffectiveExpirationDate r' = EffectiveExpirationDate r /\
    IncludeSubdomains r' = IncludeSubdomains r /\
    NotedHostname r' = NotedHostname r /\
    ServedCertificateChain r' = ServedCertificateChain r /\
    ValidatedCertificateChain r' = ValidatedCertificateChain r /\
    KnownPins r' = KnownPins r /\
    AppVersion r' = AppVersion r.
Proof.
  intros Hport Hvalid. unfold valid_utf8 in Hvalid.
  repeat (apply andb_prop in Hvalid as [Hvalid ?]).
  exists (json.encode_struct r), (coerce_report r).
  split; [reflexivity|].
  split; [apply parse_encode_struct, Hport|].
  split; [reflexivity|].
  split; [apply Unmarshal_encode_struct, Hport|].
  unfold coerce_report.
  cbn [Hostname Port EffectiveExpirationDate IncludeSubdomains NotedHostname
       ServedCertificateChain ValidatedCertificateChain KnownPins AppVersion].
  rewrite !ToValidUTF8_valid, !slice_valid by assumption.
  repeat split; reflexivity.
Qed.

(** ** Instances *)

(** The report of the scenario goes through JSON and back. *)
Lemma Marshal_Unmarshal_report_witness :
  exists data r',
    json.Marshal example_report = Ok data /\
    json.parse data = Some (json.JObject (parsed_members example_report)) /\
    map fst (parsed_members example_report) = map bytes_of json.fieldNames /\
    json.Unmarshal data = (r', None) /\
    Hostname r' = Hostname example_report /\
    Port r' = Port example_report /\
    EffectiveExpirationDate r' = EffectiveExpirationDate example_report /\
    IncludeSubdomains r' = IncludeSubdomains example_report /\
    NotedHostname r' = NotedHostname example_report /\
    ServedCertificateChain r' = ServedCertificateChain example_report /\
    ValidatedCertificateChain r' = ValidatedCertificateChain example_report /\
    KnownPins r' = KnownPins example_report /\
    AppVersion r' = AppVersion example_report.
Proof.
  apply (Marshal_Unmarshal_report example_report).
  - change (Port example_report) with 443. lia.
  - vm_compute. reflexivity.
Defined.

(** The three failures, each at an instance where it happens. *)
Lemma postCertIssueReport_absorbs_errors_witness :
  trace (postCertIssueReport 3 marshal_fails url_parses transport_answers
           example_report "bridge/1.0")
  = [entry_error "json: unsupported value" "Failed to marshal TLS report"] /\
  trace (postCertIssueReport 3 json.Marshal url_rejected transport_answers
           example_report "bridge/1.0")
  = [entry_error "parse: invalid URI for request" "Failed to create http request"] /\
  trace (postCertIssueReport 3 json.Marshal url_parses transport_down
           example_report "bridge/1.0")
  = [EvLog (logrus.mkEntry logrus.WarnLevel
              [("request",
                logrus.VRequest
                  (the_request 3 (json.encode_struct example_report)
                     example_report "bridge/1.0"))]
              "Reporting TLS mismatch");
     EvDo (the_request 3 (json.encode_struct example_report) example_report
             "bridge/1.0");
     entry_error "dial tcp: connection refused" "Failed to report TLS mismatch"].
Proof.
  split; [|split].
  - apply (proj1 (proj2 (postCertIssueReport_absorbs_errors 3 marshal_fails
             url_parses transport_answers example_report "bridge/1.0"))).
    reflexivity.
  - apply (proj1 (proj2 (proj2 (postCertIssueReport_absorbs_errors 3 json.Marshal
             url_rejected transport_answers example_report "bridge/1.0")))
             (json.encode_struct example_report));
      reflexivity.
  - apply (proj2 (proj2 (proj2 (postCertIssueReport_absorbs_errors 3 json.Marshal
             url_parses transport_down example_report "bridge/1.0")))
             (json.encode_struct example_report));
      reflexivity.
Defined.



(** The request of the scenario, as the transport receives it. *)
Lemma postCertIssueReport_request_witness :
  let req := the_request 3 (json.encode_struct example_report) example_report
               "bridge/1.0" in
  http.Method req = "POST" /\ http.URL req = TLSReportURI /\
  json.Marshal example_report = Ok (http.ReqBody req) /\
  http.ReqHeader req !! "Content-Type" = Some ["application/json"] /\
  http.ReqHeader req !! "User-Agent" = Some ["bridge/1.0"] /\
  http.ReqHeader req !! "X-Pm-Apiversion" = Some [strconv.Itoa 3] /\
  http.ReqHeader req !! "X-Pm-Appversion" = Some [AppVersion example_report] /\
  dom (http.ReqHeader req)
  = ({["Content-Type"; "User-Agent"; "X-Pm-Apiversion"; "X-Pm-Appversion"]}
     : gset string) /\
  http.Get (http.ReqHeader req) "Content-Type" = "application/json" /\
  http.Get (http.ReqHeader req) "User-Agent" = "bridge/1.0" /\
  http.Get (http.ReqHeader req) "x-pm-apiversion" = strconv.Itoa 3 /\
  http.Get (http.ReqHeader req) "x-pm-appversion" = AppVersion example_report /\
  strconv.Atoi (strconv.Itoa 3) = (3, None).
Proof.
  cbv zeta.
  assert (H := postCertIssueReport_request 3 json.Marshal url_parses
                 transport_answers example_report "bridge/1.0").
  destruct H as (Hreq & Hsent & Hint).
  destruct (Hreq _ (Hsent (json.encode_struct example_report) eq_refl eq_refl))
    as (H1 & H2 & H3 & H4 & H5 & H6 & H7 & H8 & H9 & H10 & H11 & H12).
  pose proof (Hint ltac:(lia)) as Hatoi.
  repeat split; assumption.
Defined.

(** A response with status 503: the diagnostic says 200. *)
Lemma postCertIssueReport_status_field_witness :
  let run := postCertIssueReport 3 json.Marshal url_parses transport_answers
               example_report "bridge/1.0" in
  let diagnostic := logrus.mkEntry logrus.ErrorLevel [("status", logrus.VInt 200)]
                      "StatusCode was not OK" in
  logrus.Data diagnostic = [("status", logrus.VInt 200)] /\
  In (EvLog diagnostic) (trace run) /\
  forall e, In (EvLog e) (trace run) ->
    logrus.Message e = "StatusCode was not OK" ->
    ~ In ("status", logrus.VInt (http.StatusCode example_response)) (logrus.Data e).
Proof.
  cbv zeta.
  assert (H := postCertIssueReport_status_field 3 json.Marshal url_parses
                 transport_answers example_report "bridge/1.0").
  destruct H as (Hall & Hnot200).
  assert (Hstatus : http.StatusCode example_response <> 200)
    by (intros E; discriminate E).
  destruct (Hnot200 (json.encode_struct example_report) example_response
              eq_refl eq_refl eq_refl Hstatus) as (Hin & Hnever).
  split; [exact (Hall _ Hin eq_refl)|]. split; [exact Hin|exact Hnever].
Defined.

(** * Further properties *)

(** ** More on the port *)

(** The digits of a string weigh less than the next power of ten. *)
Lemma dval_bound (s : string) (k : Z) :
  all_digits s = true -> 0 <= k -> dval s k < (k + 1) * 10 ^ len s.
Proof.
  revert k. induction s as [|c s IH]; intros k Hd Hk.
  - change (10 ^ len EmptyString) with 1. cbn [dval]. lia.
  - cbn [all_digits] in Hd. apply andb_prop in Hd as [Hc Hd].
    apply andb_prop in Hc as [H1 H2]. apply Z.leb_le in H1, H2.
    cbn [dval]. specialize (IH (k * 10 + (code c - 48)) Hd ltac:(lia)).
    unfold len in *. cbn [String.length]. rewrite Nat2Z.inj_succ, Z.pow_succ_r by lia.
    assert (0 < 10 ^ Z.of_nat (String.length s)) by (apply Z.pow_pos_nonneg; lia).
    nia.
Qed.

(** A byte that is no digit stops the fast path of [Atoi]. *)
Lemma atoi_fast_loop_nondigit (s : string) (k : Z) :
  all_digits s = false -> strconv.atoi_fast_loop s k = None.
Proof.
  revert k. induction s as [|c s IH]; intros k Hd; [discriminate|].
  cbn [all_digits] in Hd. cbn [strconv.atoi_fast_loop].
  pose proof (code_range c) as Hc.
  destruct (Z.leb_spec 48 (code c)) as [H1|H1];
    [destruct (Z.leb_spec (code c) 57) as [H2|H2]|]; cbn [andb] in Hd.
  - rewrite Z.mod_small by lia.
    destruct (Z.ltb_spec 9 (code c - 48)); [lia|]. apply IH, Hd.
  - rewrite Z.mod_small by lia.
    destruct (Z.ltb_spec 9 (code c - 48)); [reflexivity|lia].
  - replace ((code c - 48) mod 256) with (code c + 208)
      by (Z.div_mod_to_equations; lia).
    destruct (Z.ltb_spec 9 (code c + 208)); [reflexivity|lia].
Qed.

(** The loop of [ParseUint] on digits followed by more text: it gives up
    with a range error when the digits overflow 64 bits, and goes on with
    their value otherwise. *)
Lemma parseUint_loop_app (d t : string) (k : Z) :
  all_digits d = true -> 0 <= k <= strconv.maxUint64 ->
  strconv.parseUint_loop (String.append d t) k
  = if dval d k <=? strconv.maxUint64 then strconv.parseUint_loop t (dval d k)
    else (strconv.maxUint64, Some strconv.ErrRange).
Proof.
  revert k. induction d as [|c d IH]; intros k Hd Hk.
  - change (String.append EmptyString t) with t. cbn [dval].
    destruct (Z.leb_spec k strconv.maxUint64); [reflexivity|lia].
  - cbn [all_digits] in Hd. apply andb_prop in Hd as [Hc Hd].
    change (String.append (String c d) t) with (String c (String.append d t)).
    cbn [strconv.parseUint_loop dval]. rewrite Hc.
    apply andb_prop in Hc as [H1 H2]. apply Z.leb_le in H1, H2.
    pose proof (dval_mono d (k * 10 + (code c - 48)) Hd ltac:(lia)) as Hm.
    change strconv.maxUint64 with 18446744073709551615 in *.
    change (18446744073709551615 / 10 + 1) with 1844674407370955162.
    change (2 ^ 64) with 18446744073709551616.
    destruct (Z.leb_spec 1844674407370955162 k).
    { destruct (Z.leb_spec (dval d (k * 10 + (code c - 48))) 18446744073709551615);
        [lia|reflexivity]. }
    destruct (Z.ltb_spec (k * 10 + (code c - 48)) 18446744073709551616) as [Hfit|Hwrap].
    + rewrite Z.mod_small by lia.
      destruct (Z.ltb_spec (k * 10 + (code c - 48)) (k * 10)); [lia|].
      destruct (Z.ltb_spec 18446744073709551615 (k * 10 + (code c - 48))); [lia|].
      cbn [orb]. apply IH; [exact Hd|lia].
    + replace ((k * 10 + (code c - 48)) mod 18446744073709551616)
        with (k * 10 + (code c - 48) - 18446744073709551616)
        by (Z.div_mod_to_equations; lia).
      destruct (Z.ltb_spec (k * 10 + (code c - 48) - 18446744073709551616) (k * 10));
        [|lia].
      cbn [orb].
      destruct (Z.leb_spec (dval d (k * 10 + (code c - 48))) 18446744073709551615);
        [lia|reflexivity].
Qed.

(** On digits alone, the loop of [ParseUint] computes [dval] as long as it
    fits 64 bits, and stops with the largest value and a range error when
    it does not. *)
Lemma parseUint_loop_saturates (s : string) (k : Z) :
  all_digits s = true -> 0 <= k <= strconv.maxUint64 ->
  strconv.parseUint_loop s k
  = if dval s k <=? strconv.maxUint64 then (dval s k, None)
    else (strconv.maxUint64, Some strconv.ErrRange).
Proof.
  intros Hd Hk.
  assert (Hnil : String.append s EmptyString = s).
  { clear. induction s as [|c s IH]; [reflexivity|].
    change (String.append (String c s) EmptyString)
      with (String c (String.append s EmptyString)).
    rewrite IH. reflexivity. }
  rewrite <- Hnil at 1. rewrite parseUint_loop_app by assumption. reflexivity.
Qed.

(** The loop of [ParseUint] never returns a negative number. *)
Lemma parseUint_loop_nonneg (s : string) (k : Z) :
  0 <= k -> 0 <= fst (strconv.parseUint_loop s k).
Proof.
  revert k. induction s as [|c s IH]; intros k Hk; [exact Hk|].
  cbn [strconv.parseUint_loop].
  destruct (_ && _); [|cbn; lia].
  destruct (_ <=? k); [cbn; unfold strconv.maxUint64; lia|].
  destruct (_ || _); [cbn; unfold strconv.maxUint64; lia|].
  apply IH. apply Z.mod_pos_bound. lia.
Qed.

(** [ParseInt] stays in the int range. *)
Lemma ParseInt_in_range (s : string) :
  - 2 ^ 63 <= fst (strconv.ParseInt s) < 2 ^ 63.
Proof.
  unfold strconv.ParseInt. destruct s as [|c0 s']; [cbn; lia|].
  assert (Hun : 0 <= fst (strconv.ParseUint
                   (if (code c0 =? 43) || (code c0 =? 45) then s' else String c0 s'))).
  { unfold strconv.ParseUint.
    destruct (if (code c0 =? 43) || (code c0 =? 45) then s' else String c0 s');
      [cbn; lia|apply parseUint_loop_nonneg; lia]. }
  destruct (strconv.ParseUint _) as [un e]. cbn [fst] in Hun.
  change (2 ^ (strconv.intSize - 1)) with 9223372036854775808.
  change (2 ^ 63) with 9223372036854775808.
  assert (Hcases :
    - 9223372036854775808 <=
      fst (if negb (code c0 =? 45) && (9223372036854775808 <=? un)
           then (9223372036854775808 - 1, Some strconv.ErrRange)
           else if (code c0 =? 45) && (9223372036854775808 <? un)
                then (- 9223372036854775808, Some strconv.ErrRange)
                else (if code c0 =? 45 then - un else un, None))
    < 9223372036854775808).
  { destruct (code c0 =? 45); cbn [negb andb].
    - destruct (Z.ltb_spec 9223372036854775808 un); cbn [fst]; lia.
    - destruct (Z.leb_spec 9223372036854775808 un); cbn [fst]; lia. }
  destruct e as [[]|]; [cbn; lia|exact Hcases|exact Hcases].
Qed.

(** What the fast path of [Atoi] returns is the value of a digit string. *)
Lemma atoi_fast_loop_Some (s : string) (k n : Z) :
  strconv.atoi_fast_loop s k = Some n -> all_digits s = true /\ n = dval s k.
Proof.
  intros H. destruct (all_digits s) eqn:Hd.
  - rewrite atoi_fast_loop_digits in H by exact Hd. injection H as <-. split; reflexivity.
  - rewrite atoi_fast_loop_nondigit in H by exact Hd. discriminate.
Qed.

(** [Atoi] stays in the int range, on both of its paths. *)
Lemma Atoi_in_range (s : string) :
  - 2 ^ 63 <= fst (strconv.Atoi s) < 2 ^ 63.
Proof.
  unfold strconv.Atoi.
  destruct (Z.ltb_spec 0 (len s)) as [Hpos|]; [|apply ParseInt_in_range].
  destruct (Z.ltb_spec (len s) 19) as [Hshort|]; [|apply ParseInt_in_range].
  cbn [andb]. destruct s as [|c0 s']; [cbn; lia|].
  change (2 ^ 63) with 9223372036854775808.
  assert (Hlen : len (String c0 s') = len s' + 1).
  { unfold len. cbn [String.length]. lia. }
  assert (Hfast : forall d n, len d <= 18 -> strconv.atoi_fast_loop d 0 = Some n ->
                    0 <= n < 1000000000000000000).
  { intros d n Hd Hn. apply atoi_fast_loop_Some in Hn as [Hdig ->].
    pose proof (dval_bound d 0 Hdig ltac:(lia)) as Hb.
    pose proof (dval_mono d 0 Hdig ltac:(lia)).
    assert (10 ^ len d <= 10 ^ 18)
      by (apply Z.pow_le_mono_r; [lia|unfold len in *; lia]).
    change (10 ^ 18) with 1000000000000000000 in *. lia. }
  destruct ((code c0 =? 45) || (code c0 =? 43)).
  - cbn [andb]. destruct (len s' <? 1); [cbn; lia|].
    destruct (strconv.atoi_fast_loop s' 0) as [n|] eqn:Hn; [|cbn; lia].
    specialize (Hfast s' n ltac:(lia) Hn).
    destruct (code c0 =? 45); cbn [fst]; lia.
  - cbn [andb].
    destruct (strconv.atoi_fast_loop (String c0 s') 0) as [n|] eqn:Hn; [|cbn; lia].
    specialize (Hfast (String c0 s') n ltac:(lia) Hn).
    destruct (code c0 =? 45); cbn [fst]; lia.
Qed.

(** [ParseInt] on an unsigned numeral. *)
Lemma ParseInt_digits (d : string) :
  all_digits d = true -> 0 < len d ->
  strconv.ParseInt d
  = if dval d 0 <? 2 ^ 63 then (dval d 0, None)
    else (2 ^ 63 - 1, Some strconv.ErrRange).
Proof.
  intros Hd Hlen. destruct d as [|c0 s']; [unfold len in Hlen; cbn in Hlen; lia|].
  unfold strconv.ParseInt.
  assert (Hc : 48 <= code c0 <= 57).
  { cbn [all_digits] in Hd. apply andb_prop in Hd as [Hc _].
    apply andb_prop in Hc as [H1 H2]. apply Z.leb_le in H1, H2. lia. }
  destruct (Z.eqb_spec (code c0) 45); [lia|].
  destruct (Z.eqb_spec (code c0) 43); [lia|].
  cbn [orb negb andb]. unfold strconv.ParseUint.
  rewrite parseUint_loop_saturates by (try exact Hd; unfold strconv.maxUint64; lia).
  pose proof (dval_mono (String c0 s') 0 Hd ltac:(lia)) as Hm.
  change strconv.maxUint64 with 18446744073709551615.
  change (2 ^ (strconv.intSize - 1)) with 9223372036854775808.
  change (2 ^ 63) with 9223372036854775808.
  destruct (Z.leb_spec (dval (String c0 s') 0) 18446744073709551615).
  - destruct (Z.leb_spec 9223372036854775808 (dval (String c0 s') 0));
      destruct (Z.ltb_spec (dval (String c0 s') 0) 9223372036854775808);
      try lia; reflexivity.
  - destruct (Z.ltb_spec (dval (String c0 s') 0) 9223372036854775808); [lia|].
    reflexivity.
Qed.

(** [ParseInt] on a numeral with a sign. *)
Lemma ParseInt_signed (c : ascii) (d : string) :
  is_sign c = true -> all_digits d = true -> 0 < len d ->
  strconv.ParseInt (String c d)
  = if code c =? 45
    then (if dval d 0 <=? 2 ^ 63 then (- dval d 0, None)
          else (- 2 ^ 63, Some strconv.ErrRange))
    else (if dval d 0 <? 2 ^ 63 then (dval d 0, None)
          else (2 ^ 63 - 1, Some strconv.ErrRange)).
Proof.
  intros Hs Hd Hlen. unfold is_sign in Hs. unfold strconv.ParseInt. rewrite Hs.
  assert (Hne : exists c0 s', d = String c0 s').
  { destruct d as [|c0 s']; [unfold len in Hlen; cbn in Hlen; lia|eauto]. }
  destruct Hne as (c0 & s' & Heq).
  unfold strconv.ParseUint. rewrite Heq, <- Heq.
  rewrite parseUint_loop_saturates by (try exact Hd; unfold strconv.maxUint64; lia).
  pose proof (dval_mono d 0 Hd ltac:(lia)) as Hm.
  change strconv.maxUint64 with 18446744073709551615.
  change (2 ^ (strconv.intSize - 1)) with 9223372036854775808.
  change (2 ^ 63) with 9223372036854775808.
  destruct (code c =? 45); cbn [negb andb];
    destruct (Z.leb_spec (dval d 0) 18446744073709551615);
    destruct (Z.leb_spec (dval d 0) 9223372036854775808);
    destruct (Z.ltb_spec (dval d 0) 9223372036854775808);
    try lia;
    repeat match goal with
           | |- context [Z.ltb ?a ?b] => destruct (Z.ltb_spec a b); try lia
           | |- context [Z.leb ?a ?b] => destruct (Z.leb_spec a b); try lia
           end; reflexivity.
Qed.

(** A numeral of fewer than 19 bytes is below 10^18. *)
Lemma dval_short (d : string) :
  all_digits d = true -> len d < 19 -> 0 <= dval d 0 < 10 ^ 18.
Proof.
  intros Hd Hlen.
  pose proof (dval_bound d 0 Hd ltac:(lia)) as Hb.
  pose proof (dval_mono d 0 Hd ltac:(lia)).
  assert (10 ^ len d <= 10 ^ 18)
    by (apply Z.pow_le_mono_r; [lia|unfold len in *; lia]).
  lia.
Qed.

(** [Atoi] on an unsigned numeral, of any length. *)
Lemma Atoi_digits (d : string) :
  all_digits d = true -> 0 < len d ->
  strconv.Atoi d
  = if dval d 0 <? 2 ^ 63 then (dval d 0, None)
    else (2 ^ 63 - 1, Some strconv.ErrRange).
Proof.
  intros Hd Hlen. unfold strconv.Atoi.
  destruct (Z.ltb_spec 0 (len d)); [|lia].
  destruct (Z.ltb_spec (len d) 19) as [Hshort|]; [|apply ParseInt_digits; assumption].
  cbn [andb]. destruct d as [|c0 s'] eqn:Heq; [unfold len in Hlen; cbn in Hlen; lia|].
  assert (Hc : 48 <= code c0 <= 57).
  { cbn [all_digits] in Hd. apply andb_prop in Hd as [Hc _].
    apply andb_prop in Hc as [H1 H2]. apply Z.leb_le in H1, H2. lia. }
  destruct (Z.eqb_spec (code c0) 45); [lia|].
  destruct (Z.eqb_spec (code c0) 43); [lia|].
  cbn [orb andb]. rewrite atoi_fast_loop_digits by exact Hd.
  pose proof (dval_short _ Hd Hshort) as Hb.
  change (10 ^ 18) with 1000000000000000000 in Hb.
  change (2 ^ 63) with 9223372036854775808.
  destruct (Z.ltb_spec (dval (String c0 s') 0) 9223372036854775808); [reflexivity|lia].
Qed.

(** [Atoi] on a numeral with a sign, of any length. *)
Lemma Atoi_signed (c : ascii) (d : string) :
  is_sign c = true -> all_digits d = true -> 0 < len d ->
  strconv.Atoi (String c d)
  = if code c =? 45
    then (if dval d 0 <=? 2 ^ 63 then (- dval d 0, None)
          else (- 2 ^ 63, Some strconv.ErrRange))
    else (if dval d 0 <? 2 ^ 63 then (dval d 0, None)
          else (2 ^ 63 - 1, Some strconv.ErrRange)).
Proof.
  intros Hs Hd Hlen. unfold strconv.Atoi.
  assert (Hl : len (String c d) = len d + 1).
  { unfold len. cbn [String.length]. lia. }
  destruct (Z.ltb_spec 0 (len (String c d))); [|lia].
  destruct (Z.ltb_spec (len (String c d)) 19) as [Hshort|];
    [|apply ParseInt_signed; assumption].
  cbn [andb]. unfold is_sign in Hs. rewrite orb_comm in Hs. rewrite Hs.
  destruct (Z.ltb_spec (len d) 1); [lia|]. cbn [andb].
  rewrite atoi_fast_loop_digits by exact Hd.
  pose proof (dval_short d Hd ltac:(lia)) as Hb.
  change (10 ^ 18) with 1000000000000000000 in Hb.
  change (2 ^ 63) with 9223372036854775808.
  destruct (code c =? 45).
  - destruct (Z.leb_spec (dval d 0) 9223372036854775808); [reflexivity|lia].
  - destruct (Z.ltb_spec (dval d 0) 9223372036854775808); [reflexivity|lia].
Qed.

(** A short string that is no numeral is a syntax error. *)
Lemma Atoi_short_malformed (s : string) :
  len s < 19 -> is_decimal s = false -> strconv.Atoi s = (0, Some strconv.ErrSyntax).
Proof.
  intros Hshort Hdec. unfold strconv.Atoi.
  destruct (Z.ltb_spec 0 (len s)) as [Hpos|Hz].
  - destruct (Z.ltb_spec (len s) 19); [|lia]. cbn [andb].
    destruct s as [|c0 s']; [reflexivity|].
    cbn [is_decimal] in Hdec. unfold is_sign in Hdec.
    rewrite (orb_comm (code c0 =? 45)).
    destruct ((code c0 =? 43) || (code c0 =? 45)).
    + cbn [andb]. destruct (Z.ltb_spec (len s') 1) as [|Hlen]; [reflexivity|].
      destruct (Z.ltb_spec 0 (len s')); [|lia]. cbn [andb] in Hdec.
      rewrite atoi_fast_loop_nondigit by exact Hdec. reflexivity.
    + cbn [andb]. rewrite atoi_fast_loop_nondigit by exact Hdec. reflexivity.
  - cbn [andb]. destruct s as [|c0 s']; [reflexivity|].
    unfold len in Hz. cbn [String.length] in Hz. lia.
Qed.

(** X1.  The port of a report is an int: whatever the port string, the value
    that [NewTLSReport] keeps lies between the bounds of the 64-bit int,
    so that every report the builder returns can be marshalled and read
    back. *)
Theorem NewTLSReport_port_in_range
    (Format_RFC3339 : time.Time -> string) (now : time.Time)
    (host port server : string) (certChain knownPins : slice string)
    (appVersion : string) :
  - 2 ^ 63 <= Port (NewTLSReport Format_RFC3339 now host port server certChain
                                 knownPins appVersion) < 2 ^ 63.
Proof. apply Atoi_in_range. Qed.

(** X2.  A port that is a decimal numeral, with or without a sign and with
    any number of leading zeros, is stored as its value when that is an
    int, and as the nearest bound of the int range when it is not. *)
Theorem NewTLSReport_port_numeral
    (Format_RFC3339 : time.Time -> string) (now : time.Time)
    (host digits server : string) (certChain knownPins : slice string)
    (appVersion : string) :
  all_digits digits = true -> 0 < len digits ->
  let build port := Port (NewTLSReport Format_RFC3339 now host port server
                                       certChain knownPins appVersion) in
  build digits = Z.min (dval digits 0) (2 ^ 63 - 1) /\
  build (String (chr 43) digits) = Z.min (dval digits 0) (2 ^ 63 - 1) /\
  build (String (chr 45) digits) = Z.max (- dval digits 0) (- 2 ^ 63).
Proof.
  intros Hd Hlen build. unfold build. cbn [NewTLSReport Port].
  rewrite Atoi_digits, !Atoi_signed by (reflexivity || assumption).
  replace (code (chr 43) =? 45) with false by reflexivity.
  replace (code (chr 45) =? 45) with true by reflexivity.
  change (2 ^ 63) with 9223372036854775808.
  destruct (Z.ltb_spec (dval digits 0) 9223372036854775808);
    destruct (Z.leb_spec (dval digits 0) 9223372036854775808);
    cbn [fst]; lia.
Qed.

(** The port 443 with a leading zero, bare and behind each sign. *)
Lemma NewTLSReport_port_numeral_witness :
  let build port := Port (NewTLSReport example_format example_now "mail.example.com"
                            port "example.com" None None "1.0.0") in
  build "0443" = Z.min (dval "0443" 0) (2 ^ 63 - 1) /\
  build (String (chr 43) "0443") = Z.min (dval "0443" 0) (2 ^ 63 - 1) /\
  build (String (chr 45) "0443") = Z.max (- dval "0443" 0) (- 2 ^ 63).
Proof.
  apply (NewTLSReport_port_numeral example_format example_now "mail.example.com"
           "0443" "example.com" None None "1.0.0").
  - reflexivity.
  - reflexivity.
Defined.

(** X3.  A port of fewer than 19 bytes that is not a decimal numeral (an
    empty string, a lone sign, or any byte that is no digit after the
    optional sign: a space, a letter, an underscore) is stored as 0. *)
Theorem NewTLSReport_port_malformed
    (Format_RFC3339 : time.Time -> string) (now : time.Time)
    (host port server : string) (certChain knownPins : slice string)
    (appVersion : string) :
  len port < 19 -> is_decimal port = false ->
  Port (NewTLSReport Format_RFC3339 now host port server certChain knownPins
                     appVersion) = 0 /\
  snd (strconv.Atoi port) = Some strconv.ErrSyntax.
Proof.
  intros Hshort Hdec. cbn [NewTLSReport Port].
  rewrite Atoi_short_malformed by assumption. split; reflexivity.
Qed.

(** A port with a space in front. *)
Lemma NewTLSReport_port_malformed_witness :
  Port (NewTLSReport example_format example_now "mail.example.com" " 443"
          "example.com" None None "1.0.0") = 0 /\
  snd (strconv.Atoi " 443") = Some strconv.ErrSyntax.
Proof.
  apply (NewTLSReport_port_malformed example_format example_now "mail.example.com"
           " 443" "example.com" None None "1.0.0").
  - reflexivity.
  - reflexivity.
Defined.

(** *** Digits followed by something else *)

Lemma all_digits_app (d : string) (c : ascii) (t : string) :
  (48 <=? code c) && (code c <=? 57) = false ->
  all_digits (String.append d (String c t)) = false.
Proof.
  intros Hc. induction d as [|x d IH].
  - change (String.append EmptyString (String c t)) with (String c t).
    cbn [all_digits]. rewrite Hc. reflexivity.
  - change (String.append (String x d) (String c t))
      with (String x (String.append d (String c t))).
    cbn [all_digits]. rewrite IH. apply andb_false_r.
Qed.

Lemma len_app (d t : string) : len (String.append d t) = len d + len t.
Proof.
  unfold len. induction d as [|x d IH]; [reflexivity|].
  change (String.append (String x d) t) with (String x (String.append d t)).
  cbn [String.length]. lia.
Qed.

(** [ParseUint] on digits followed by a byte that is no digit. *)
Lemma ParseUint_trailing (d : string) (c : ascii) (t : string) :
  all_digits d = true -> (48 <=? code c) && (code c <=? 57) = false ->
  strconv.ParseUint (String.append d (String c t))
  = if dval d 0 <=? strconv.maxUint64 then (0, Some strconv.ErrSyntax)
    else (strconv.maxUint64, Some strconv.ErrRange).
Proof.
  intros Hd Hc.
  assert (Hloop : strconv.parseUint_loop (String.append d (String c t)) 0
                  = if dval d 0 <=? strconv.maxUint64 then (0, Some strconv.ErrSyntax)
                    else (strconv.maxUint64, Some strconv.ErrRange)).
  { rewrite parseUint_loop_app by (try exact Hd; unfold strconv.maxUint64; lia).
    cbn [strconv.parseUint_loop]. rewrite Hc. reflexivity. }
  unfold strconv.ParseUint.
  destruct (String.append d (String c t)) eqn:E; [|exact Hloop].
  destruct d; discriminate E.
Qed.

(** [Atoi] on a numeral followed by a byte that is no digit: a syntax
    error, unless the digits in front overflow 64 bits, which is found
    first. *)
Lemma Atoi_trailing (d : string) (c : ascii) (t : string) :
  all_digits d = true -> 0 < len d ->
  (48 <=? code c) && (code c <=? 57) = false ->
  strconv.Atoi (String.append d (String c t))
  = if dval d 0 <=? strconv.maxUint64 then (0, Some strconv.ErrSyntax)
    else (2 ^ 63 - 1, Some strconv.ErrRange).
Proof.
  intros Hd Hlen Hc.
  destruct d as [|c0 d'] eqn:Ed; [unfold len in Hlen; cbn in Hlen; lia|].
  rewrite <- Ed in *.
  assert (Hc0 : 48 <= code c0 <= 57).
  { rewrite Ed in Hd. cbn [all_digits] in Hd. apply andb_prop in Hd as [H0 _].
    apply andb_prop in H0 as [H1 H2]. apply Z.leb_le in H1, H2. lia. }
  assert (Hs : String.append d (String c t) = String c0 (String.append d' (String c t)))
    by (rewrite Ed; reflexivity).
  unfold strconv.Atoi.
  destruct ((0 <? len (String.append d (String c t)))
            && (len (String.append d (String c t)) <? 19)) eqn:Hpath.
  - apply andb_prop in Hpath as [_ Hshort]. apply Z.ltb_lt in Hshort.
    rewrite len_app in Hshort.
    assert (0 <= len (String c t)) by (unfold len; lia).
    pose proof (dval_short d Hd ltac:(lia)) as Hb.
    change (10 ^ 18) with 1000000000000000000 in Hb.
    destruct (Z.leb_spec (dval d 0) strconv.maxUint64);
      [|unfold strconv.maxUint64 in *; lia].
    rewrite Hs at 1.
    destruct (Z.eqb_spec (code c0) 45); [lia|].
    destruct (Z.eqb_spec (code c0) 43); [lia|].
    cbn [orb andb].
    rewrite atoi_fast_loop_nondigit by (apply all_digits_app; exact Hc).
    reflexivity.
  - unfold strconv.ParseInt. rewrite Hs at 1.
    destruct (Z.eqb_spec (code c0) 45); [lia|].
    destruct (Z.eqb_spec (code c0) 43); [lia|].
    cbn [orb]. rewrite ParseUint_trailing by assumption.
    destruct (dval d 0 <=? strconv.maxUint64); [reflexivity|].
    cbn [negb andb]. reflexivity.
Qed.

(** The same behind a sign. *)
Lemma Atoi_signed_trailing (sg : ascii) (d : string) (c : ascii) (t : string) :
  is_sign sg = true -> all_digits d = true ->
  (48 <=? code c) && (code c <=? 57) = false ->
  strconv.Atoi (String sg (String.append d (String c t)))
  = if dval d 0 <=? strconv.maxUint64 then (0, Some strconv.ErrSyntax)
    else (if code sg =? 45 then - 2 ^ 63 else 2 ^ 63 - 1, Some strconv.ErrRange).
Proof.
  intros Hsg Hd Hc. unfold is_sign in Hsg.
  unfold strconv.Atoi.
  assert (Hl : len (String sg (String.append d (String c t))) = 2 + len d + len t).
  { pose proof (len_app d (String c t)) as E. unfold len in *.
    cbn [String.length] in *. lia. }
  destruct ((0 <? len (String sg (String.append d (String c t))))
            && (len (String sg (String.append d (String c t))) <? 19)) eqn:Hpath.
  - apply andb_prop in Hpath as [_ Hshort]. apply Z.ltb_lt in Hshort.
    assert (0 <= len t) by (unfold len; lia).
    assert (0 <= len d) by (unfold len; lia).
    pose proof (dval_short d Hd ltac:(lia)) as Hb.
    change (10 ^ 18) with 1000000000000000000 in Hb.
    destruct (Z.leb_spec (dval d 0) strconv.maxUint64);
      [|unfold strconv.maxUint64 in *; lia].
    rewrite (orb_comm (code sg =? 45)), Hsg. cbn [andb].
    assert (Hl2 : len (String.append d (String c t)) = 1 + len d + len t).
    { rewrite len_app. unfold len. cbn [String.length]. lia. }
    destruct (Z.ltb_spec (len (String.append d (String c t))) 1); [lia|].
    rewrite atoi_fast_loop_nondigit by (apply all_digits_app; exact Hc).
    reflexivity.
  - unfold strconv.ParseInt. rewrite Hsg.
    rewrite ParseUint_trailing by assumption.
    destruct (dval d 0 <=? strconv.maxUint64); [reflexivity|].
    change (2 ^ (strconv.intSize - 1)) with 9223372036854775808.
    change (2 ^ 63) with 9223372036854775808.
    change strconv.maxUint64 with 18446744073709551615.
    destruct (code sg =? 45); reflexivity.
Qed.

(** X4.  A port that is a numeral followed by a byte that is no digit (a
    unit, a space, a line break) is stored as 0 as long as the digits in
    front fit 64 bits, whatever the length; when they do not, the overflow
    is found before the trailing byte and the port is the bound of the int
    range on the side of the sign. *)
Theorem NewTLSReport_port_trailing
    (Format_RFC3339 : time.Time -> string) (now : time.Time)
    (host digits : string) (c : ascii) (tail server : string)
    (certChain knownPins : slice string) (appVersion : string) :
  all_digits digits = true -> 0 < len digits ->
  (48 <=? code c) && (code c <=? 57) = false ->
  let build port := Port (NewTLSReport Format_RFC3339 now host port server
                                       certChain knownPins appVersion) in
  let rest := String.append digits (String c tail) in
  let fits := dval digits 0 <=? 2 ^ 64 - 1 in
  build rest = (if fits then 0 else 2 ^ 63 - 1) /\
  build (String (chr 43) rest) = (if fits then 0 else 2 ^ 63 - 1) /\
  build (String (chr 45) rest) = (if fits then 0 else - 2 ^ 63).
Proof.
  intros Hd Hlen Hc build rest fits. unfold build, rest, fits.
  cbn [NewTLSReport Port].
  rewrite Atoi_trailing, !Atoi_signed_trailing by (reflexivity || assumption).
  change (2 ^ 64 - 1) with strconv.maxUint64.
  replace (code (chr 43) =? 45) with false by reflexivity.
  replace (code (chr 45) =? 45) with true by reflexivity.
  destruct (dval digits 0 <=? strconv.maxUint64); repeat split; reflexivity.
Qed.

(** A port with the protocol behind it. *)
Lemma NewTLSReport_port_trailing_witness :
  let build port := Port (NewTLSReport example_format example_now "mail.example.com"
                            port "example.com" None None "1.0.0") in
  let rest := String.append "443" (String "/"%char "tcp") in
  let fits := dval "443" 0 <=? 2 ^ 64 - 1 in
  build rest = (if fits then 0 else 2 ^ 63 - 1) /\
  build (String (chr 43) rest) = (if fits then 0 else 2 ^ 63 - 1) /\
  build (String (chr 45) rest) = (if fits then 0 else - 2 ^ 63).
Proof.
  apply (NewTLSReport_port_trailing example_format example_now "mail.example.com"
           "443" "/"%char "tcp" "example.com" None None "1.0.0").
  - reflexivity.
  - reflexivity.
  - reflexivity.
Defined.

(** ** The expiry *)

(** X5.  The expiry of a report is the formatted instant 31 536 000
    seconds after the clock reading, with the nanoseconds and the zone of
    the reading; for a reading less than that before the last second that
    a [time.Time] can hold, it is that last second.  The duration is a
    constant that fits the 64-bit [Duration]. *)
Theorem NewTLSReport_expiry_instant
    (Format_RFC3339 : time.Time -> string) (now : time.Time)
    (host port server : string) (certChain knownPins : slice string)
    (appVersion : string) :
  0 <= time.nsec now < 1000000000 ->
  - 2 ^ 63 <= time.sec now + time.unixToInternal < 2 ^ 63 ->
  EffectiveExpirationDate (NewTLSReport Format_RFC3339 now host port server
                             certChain knownPins appVersion)
  = Format_RFC3339
      (time.mkTime
         (Z.min (time.sec now + 31536000) (2 ^ 63 - 1 - time.unixToInternal))
         (time.nsec now) (time.zone now)) /\
  365 * 24 * 60 * 60 * time.Second = 31536000 * 1000000000 /\
  365 * 24 * 60 * 60 * time.Second < 2 ^ 63.
Proof.
  intros Hns Hsec. cbn [NewTLSReport EffectiveExpirationDate].
  rewrite Add_365_days by assumption.
  split; [reflexivity|]. split; reflexivity.
Qed.

(** The clock reading of the examples, a year later, and a reading in the
    last year of the clock, with a formatter that shows the seconds. *)
Lemma NewTLSReport_expiry_instant_witness :
  time.sec example_now = 1577836800 /\
  EffectiveExpirationDate (NewTLSReport seconds_format example_now
                             "mail.example.com" "443" "example.com" None None "1.0.0")
  = "1609372800" /\
  time.sec late_now = 9223371974719178007 /\
  EffectiveExpirationDate (NewTLSReport seconds_format late_now
                             "mail.example.com" "443" "example.com" None None "1.0.0")
  = "9223371974719179007".
Proof.
  split; [reflexivity|]. split; [|split; [reflexivity|]].
  - rewrite (proj1 (NewTLSReport_expiry_instant seconds_format example_now
               "mail.example.com" "443" "example.com" None None "1.0.0"
               ltac:(cbn; lia) ltac:(vm_compute; split; [discriminate|reflexivity]))).
    vm_compute. reflexivity.
  - rewrite (proj1 (NewTLSReport_expiry_instant seconds_format late_now
               "mail.example.com" "443" "example.com" None None "1.0.0"
               ltac:(cbn; lia) ltac:(vm_compute; split; [discriminate|reflexivity]))).
    vm_compute. reflexivity.
Defined.

(** ** The report on the wire *)

(** X6.  The JSON text of a report that the builder returns, for every
    input: it parses as one object whose ten members are in the order of
    the struct, with the empty string under [date-time], [false] under
    [include-subdomains], the empty array (never [null]) under
    [validated-certificate-chain], and under [served-certificate-chain]
    and [known-pins] an array, or [null] for a nil argument. *)
Theorem NewTLSReport_payload
    (Format_RFC3339 : time.Time -> string) (now : time.Time)
    (host port server : string) (certChain knownPins : slice string)
    (appVersion : string) :
  let r := NewTLSReport Format_RFC3339 now host port server certChain knownPins
                        appVersion in
  exists data,
    json.Marshal r = Ok data /\
    json.parse data
    = Some (json.JObject
        [(bytes_of "date-time", json.JString []);
         (bytes_of "hostname", parsed_string host);
         (bytes_of "port", json.JNumber (bytes_of (strconv.Itoa (Port r))));
         (bytes_of "effective-expiration-date",
          parsed_string (EffectiveExpirationDate r));
         (bytes_of "include-subdomains", json.JBool false);
         (bytes_of "noted-hostname", parsed_string server);
         (bytes_of "served-certificate-chain",
          match certChain with
          | None => json.JNull
          | Some l => json.JArray (map parsed_string l)
          end);
         (bytes_of "validated-certificate-chain", json.JArray []);
         (bytes_of "known-pins",
          match knownPins with
          | None => json.JNull
          | Some l => json.JArray (map parsed_string l)
          end);
         (bytes_of "app-version", parsed_string appVersion)]).
Proof.
  intros r. exists (json.encode_struct r). split; [reflexivity|].
  rewrite parse_encode_struct by apply Atoi_in_range. reflexivity.
Qed.

(** A report whose strings are valid UTF-8 is its own coercion. *)
Lemma coerce_report_valid (r : TLSReport) :
  utf8.ValidString (DateTime r) = true -> valid_utf8 r = true ->
  coerce_report r = r.
Proof.
  intros Hdate Hvalid. unfold valid_utf8 in Hvalid.
  repeat (apply andb_prop in Hvalid as [Hvalid ?]).
  destruct r as [f1 f2 f3 f4 f5 f6 f7 f8 f9 f10]. unfold coerce_report.
  cbn [DateTime Hostname Port EffectiveExpirationDate IncludeSubdomains NotedHostname
       ServedCertificateChain ValidatedCertificateChain KnownPins AppVersion] in *.
  rewrite !ToValidUTF8_valid, !slice_valid by assumption.
  reflexivity.
Qed.

(** X7.  A report that the builder returns, with strings that are valid
    UTF-8, comes back from [json.Marshal] and [json.Unmarshal] as the very
    same report, all ten fields, whatever the port string was. *)
Theorem NewTLSReport_round_trip
    (Format_RFC3339 : time.Time -> string) (now : time.Time)
    (host port server : string) (certChain knownPins : slice string)
    (appVersion : string) :
  let r := NewTLSReport Format_RFC3339 now host port server certChain knownPins
                        appVersion in
  valid_utf8 r = true ->
  exists data, json.Marshal r = Ok data /\ json.Unmarshal data = (r, None).
Proof.
  intros r Hvalid. exists (json.encode_struct r). split; [reflexivity|].
  rewrite Unmarshal_encode_struct by apply Atoi_in_range.
  rewrite coerce_report_valid by (reflexivity || exact Hvalid). reflexivity.
Qed.

(** The report of a mismatch against the trusted pins. *)
Lemma NewTLSReport_round_trip_witness :
  let r := NewTLSReport example_format example_now "mail.example.com" "443"
             "example.com" (Some ["PEM1"]) TrustedAPIPins "1.0.0" in
  exists data, json.Marshal r = Ok data /\ json.Unmarshal data = (r, None).
Proof.
  apply (NewTLSReport_round_trip example_format example_now "mail.example.com"
           "443" "example.com" (Some ["PEM1"]) TrustedAPIPins "1.0.0").
  vm_compute. reflexivity.
Defined.

(** ** Runs of the submitter *)

Section SubmitterRuns.

Variable Version : Z.
Variable Marshal : TLSReport -> result bytes.
Variable url_Parse : string -> option error.
Variable Do : http.Request -> result http.Response.

(** A request that reaches the transport is the request of the payload. *)
Lemma sent_request (report : TLSReport) (userAgent : string) (req : http.Request) :
  In (EvDo req)
     (trace (postCertIssueReport Version Marshal url_Parse Do report userAgent)) ->
  exists b, Marshal report = Ok b /\ url_Parse TLSReportURI = None /\
            req = the_request Version b report userAgent.
Proof.
  rewrite postCertIssueReport_trace. intros Hin.
  destruct (Marshal report) as [b|err]; [|destruct Hin as [H|[]]; discriminate H].
  exists b. split; [reflexivity|].
  destruct (url_Parse TLSReportURI); [destruct Hin as [H|[]]; discriminate H|].
  split; [reflexivity|].
  cbn zeta in Hin. destruct Hin as [H|[H|Hin]]; [discriminate H|congruence|].
  destruct (Do _) as [res|err].
  - destruct Hin as [H|Hin]; [discriminate H|].
    apply in_app_or in Hin. destruct Hin as [Hin|Hin].
    + destruct (negb _); [destruct Hin as [H|[]]; discriminate H|destruct Hin].
    + destruct Hin as [H|[H|[]]]; discriminate H.
  - destruct Hin as [H|[]]; discriminate H.
Qed.

(** X8.  One run makes at most one network call, whatever the transport
    answers: a failed call is not repeated.  The call is made exactly when
    the report was marshalled and the URL parsed.  [ioutil.ReadAll] and
    [Close] are called on the response body equally often, at most once
    each and never without a network call, and exactly once each when the
    call returned a response.  This counts the calls; what a call of
    [ReadAll] reads depends on the body. *)
Theorem postCertIssueReport_single_call (report : TLSReport) (userAgent : string) :
  let t := trace (postCertIssueReport Version Marshal url_Parse Do report userAgent) in
  (count is_Do t <= 1)%nat /\
  (count is_Do t = 1%nat <->
   exists b, Marshal report = Ok b /\ url_Parse TLSReportURI = None) /\
  count is_ReadAll t = count is_Close t /\
  (count is_Close t <= count is_Do t)%nat /\
  (count is_Close t = 1%nat <->
   exists b res, Marshal report = Ok b /\ url_Parse TLSReportURI = None /\
                 Do (the_request Version b report userAgent) = Ok res).
Proof.
  cbv zeta. rewrite postCertIssueReport_trace.
  destruct (Marshal report) as [b|err].
  - destruct (url_Parse TLSReportURI) as [err|].
    + cbn. repeat split; try lia; try discriminate.
      * intros (b' & _ & H). discriminate H.
      * intros (b' & res & _ & H & _). discriminate H.
    + cbn zeta. destruct (Do (the_request Version b report userAgent)) as [res|err] eqn:HD.
      * destruct (negb _); cbn; repeat split; try lia; eauto.
      * cbn. repeat split; try lia; try discriminate; eauto.
        intros (b' & res & Hb & _ & H). injection Hb as <-. congruence.
  - cbn. repeat split; try lia; try discriminate.
    + intros (b' & H & _). discriminate H.
    + intros (b' & res & H & _). discriminate H.
Qed.

(** X9.  Every run writes to the log, between one and three entries, and
    the last entry of every run is at error level: also the run in which
    the server answers 200, whose log is the warning that announces the
    request and the error-level entry that carries the response.  The only
    entry below error level is that announcement. *)
Theorem postCertIssueReport_log (report : TLSReport) (userAgent : string) :
  let t := trace (postCertIssueReport Version Marshal url_Parse Do report userAgent) in
  (1 <= length (logged t) <= 3)%nat /\
  (exists e, last (logged t) = Some e /\ logrus.level e = logrus.ErrorLevel) /\
  (forall e, In e (logged t) -> logrus.level e = logrus.WarnLevel ->
     logrus.Message e = "Reporting TLS mismatch") /\
  (forall b res, Marshal report = Ok b -> url_Parse TLSReportURI = None ->
     Do (the_request Version b report userAgent) = Ok res ->
     http.StatusCode res = 200 ->
     logged t
     = [logrus.mkEntry logrus.WarnLevel
          [("request", logrus.VRequest (the_request Version b report userAgent))]
          "Reporting TLS mismatch";
        logrus.mkEntry logrus.ErrorLevel [("response", logrus.VResponse res)]
          "Reported TLS mismatch"]).
Proof.
  cbv zeta. rewrite postCertIssueReport_trace.
  destruct (Marshal report) as [b|err].
  - destruct (url_Parse TLSReportURI) as [err|].
    + cbn. repeat split; try lia; eauto.
      * intros e [<-|[]] H. discriminate H.
      * intros b' res _ H. discriminate H.
    + cbn zeta. destruct (Do (the_request Version b report userAgent)) as [res|err] eqn:HD.
      * destruct (Z.eqb_spec (http.StatusCode res) http.StatusOK) as [Heq|Hne];
          cbn; repeat split; try lia; eauto.
        -- intros e [<-|[<-|[]]] H; [reflexivity|discriminate H].
        -- intros b' res' Hb _ Hd _. injection Hb as <-. rewrite HD in Hd.
           injection Hd as <-. reflexivity.
        -- intros e [<-|[<-|[<-|[]]]] H; [reflexivity|discriminate H|discriminate H].
        -- intros b' res' Hb _ Hd Hs. injection Hb as <-. rewrite HD in Hd.
           injection Hd as <-. contradiction.
      * cbn. repeat split; try lia; eauto.
        -- intros e [<-|[<-|[]]] H; [reflexivity|discriminate H].
        -- intros b' res' Hb _ Hd _. injection Hb as <-. congruence.
  - cbn. repeat split; try lia; eauto.
    + intros e [<-|[]] H. discriminate H.
    + intros b' res H. discriminate H.
Qed.

End SubmitterRuns.

(** The run in which everything succeeds. *)
Lemma postCertIssueReport_log_witness :
  logged (trace (postCertIssueReport 3 json.Marshal url_parses transport_ok
                   example_report "bridge/1.0"))
  = [logrus.mkEntry logrus.WarnLevel
       [("request",
         logrus.VRequest (the_request 3 (json.encode_struct example_report)
                            example_report "bridge/1.0"))]
       "Reporting TLS mismatch";
     logrus.mkEntry logrus.ErrorLevel
       [("response", logrus.VResponse ok_response)]
       "Reported TLS mismatch"].
Proof.
  apply (proj2 (proj2 (proj2 (postCertIssueReport_log 3 json.Marshal url_parses
           transport_ok example_report "bridge/1.0")))
           (json.encode_struct example_report) ok_response);
    reflexivity.
Defined.

(** X10.  What the builder returns is what the collector reads: the body of
    every request sent for a built report with valid UTF-8 strings decodes,
    with [json.Unmarshal], to that report and no error, and the
    [x-pm-appversion] header repeats the [app-version] of the decoded
    body. *)
Theorem postCertIssueReport_body_decodes
    (Version : Z) (url_Parse : string -> option error)
    (Do : http.Request -> result http.Response)
    (Format_RFC3339 : time.Time -> string) (now : time.Time)
    (host port server : string) (certChain knownPins : slice string)
    (appVersion userAgent : string) (req : http.Request) :
  let r := NewTLSReport Format_RFC3339 now host port server certChain knownPins
                        appVersion in
  valid_utf8 r = true ->
  In (EvDo req)
     (trace (postCertIssueReport Version json.Marshal url_Parse Do r userAgent)) ->
  json.Unmarshal (http.ReqBody req) = (r, None) /\
  http.Get (http.ReqHeader req) "x-pm-appversion"
  = AppVersion (fst (json.Unmarshal (http.ReqBody req))).
Proof.
  intros r Hvalid Hin.
  apply sent_request in Hin as (b & Hb & _ & ->). injection Hb as <-.
  assert (Hbody : json.Unmarshal (json.encode_struct r) = (r, None)).
  { rewrite Unmarshal_encode_struct by apply Atoi_in_range.
    rewrite coerce_report_valid by (reflexivity || exact Hvalid). reflexivity. }
  change (http.ReqBody (the_request Version (json.encode_struct r) r userAgent))
    with (json.encode_struct r).
  rewrite Hbody. split; [reflexivity|].
  unfold http.Get. rewrite canonical_appversion, the_request_header.
  rewrite lookup_insert_eq. reflexivity.
Qed.

(** The request for a report of a mismatch against the trusted pins. *)
Lemma postCertIssueReport_body_decodes_witness :
  let r := NewTLSReport example_format example_now "mail.example.com" "443"
             "example.com" (Some ["PEM1"]) TrustedAPIPins "1.0.0" in
  let req := the_request 3 (json.encode_struct r) r "bridge/1.0" in
  json.Unmarshal (http.ReqBody req) = (r, None) /\
  http.Get (http.ReqHeader req) "x-pm-appversion"
  = AppVersion (fst (json.Unmarshal (http.ReqBody req))).
Proof.
  apply (postCertIssueReport_body_decodes 3 url_parses transport_answers
           example_format example_now "mail.example.com" "443" "example.com"
           (Some ["PEM1"]) TrustedAPIPins "1.0.0" "bridge/1.0").
  - vm_compute. reflexivity.
  - right. left. reflexivity.
Defined.

(** ** The bytes of the payload *)

Lemma escape_safe (c : ascii) : forallb wire_safe (json.escape c) = true.
Proof. destruct c as [[] [] [] [] [] [] [] []]; vm_compute; reflexivity. Qed.

Lemma high_safe (c : ascii) : 128 <= code c -> wire_safe c = true.
Proof.
  intros H. unfold wire_safe.
  destruct (Z.leb_spec 32 (code c)); [|lia].
  destruct (Z.eqb_spec (code c) 60); [lia|].
  destruct (Z.eqb_spec (code c) 62); [lia|].
  destruct (Z.eqb_spec (code c) 38); [lia|]. reflexivity.
Qed.

Lemma htmlSafe_safe (c : ascii) : json.htmlSafe (code c) = true -> wire_safe c = true.
Proof.
  unfold json.htmlSafe, wire_safe. intros H.
  apply andb_prop in H as [H Hn]. apply andb_prop in H as [H1 _]. rewrite H1.
  destruct (code c =? 34), (code c =? 92), (code c =? 60), (code c =? 62),
    (code c =? 38); try discriminate Hn; reflexivity.
Qed.

(** What [encodeState.string] writes between the quotes. *)
Lemma string_body_safe (s : bytes) (k : nat) :
  forallb wire_safe (json.string_body k s) = true.
Proof.
  revert k. induction s as [|c s IH]; intros k; [reflexivity|].
  cbn [json.string_body]. destruct k as [|k]; [|apply IH].
  destruct (Z.ltb_spec (code c) utf8.RuneSelf) as [Hlow|Hhigh].
  - destruct (json.htmlSafe (code c)) eqn:Hs.
    + cbn [forallb]. rewrite htmlSafe_safe by exact Hs. apply IH.
    + rewrite forallb_app, escape_safe. apply IH.
  - destruct (utf8.DecodeRune (c :: s)) as [r size] eqn:Hdec.
    destruct (rune_cases r size) as [Hbad|[[Hok Hr]|[Hok Hr]]]; rewrite Hbad || rewrite Hok.
    + change (json.backslash :: bytes_of "ufffd" ++ json.string_body 0 s)
        with ((json.backslash :: bytes_of "ufffd") ++ json.string_body 0 s).
      rewrite forallb_app, IH. reflexivity.
    + replace ((r =? 8232) || (r =? 8233)) with true
        by (destruct Hr as [->| ->]; reflexivity).
      change (json.backslash :: bytes_of "u202" ++ [json.hex (Z.land r 15)]
              ++ json.string_body (Z.to_nat size - 1) s)
        with ((json.backslash :: bytes_of "u202" ++ [json.hex (Z.land r 15)])
              ++ json.string_body (Z.to_nat size - 1) s).
      rewrite forallb_app, IH, andb_true_r.
      destruct Hr as [->| ->]; reflexivity.
    + rewrite Hr. rewrite forallb_app, IH, andb_true_r.
      destruct (DecodeRune_valid c s r size Hdec Hok) as (_ & _ & _ & Hhi & _).
      unfold utf8.RuneSelf in Hhigh.
      destruct (Hhi Hhigh) as [_ Hall].
      apply forallb_forall. intros x Hx.
      apply high_safe. rewrite List.Forall_forall in Hall. apply Hall, Hx.
Qed.

Lemma encode_string_safe (s : string) : forallb wire_safe (json.encode_string s) = true.
Proof.
  unfold json.encode_string. cbn [forallb].
  rewrite forallb_app, string_body_safe. reflexivity.
Qed.

Lemma utoa_safe (fuel : nat) (n : Z) (acc : string) :
  forallb wire_safe (bytes_of acc) = true ->
  forallb wire_safe (bytes_of (strconv.utoa fuel n acc)) = true.
Proof.
  revert n acc. induction fuel as [|f IH]; intros n acc Hacc; [exact Hacc|].
  cbn [strconv.utoa].
  assert (Hd : forallb wire_safe (bytes_of (String (chr (48 + n mod 10)) acc)) = true).
  { cbn [list_ascii_of_string forallb]. rewrite Hacc, andb_true_r.
    unfold wire_safe. pose proof (Z.mod_pos_bound n 10 ltac:(lia)).
    rewrite code_chr by lia.
    destruct (Z.leb_spec 32 (48 + n mod 10)); [|lia].
    destruct (Z.eqb_spec (48 + n mod 10) 60); [lia|].
    destruct (Z.eqb_spec (48 + n mod 10) 62); [lia|].
    destruct (Z.eqb_spec (48 + n mod 10) 38); [lia|]. reflexivity. }
  destruct (n <? 10); [exact Hd|]. apply IH, Hd.
Qed.

Lemma encode_int_safe (n : Z) : forallb wire_safe (json.encode_int n) = true.
Proof.
  unfold json.encode_int, strconv.Itoa. destruct (n <? 0).
  - cbn [list_ascii_of_string forallb]. rewrite utoa_safe by reflexivity. reflexivity.
  - apply utoa_safe. reflexivity.
Qed.

Lemma join_comma_safe (l : list bytes) :
  Forall (fun x => forallb wire_safe x = true) l ->
  forallb wire_safe (json.join_comma l) = true.
Proof.
  induction 1 as [|x l Hx Hl IH]; [reflexivity|].
  destruct l as [|y l]; [exact Hx|].
  rewrite join_comma_cons, forallb_app, Hx. cbn [forallb andb].
  rewrite IH. reflexivity.
Qed.

Lemma encode_slice_safe (v : slice string) :
  forallb wire_safe (json.encode_slice v) = true.
Proof.
  destruct v as [l|]; [|reflexivity].
  cbn [json.encode_slice forallb]. rewrite forallb_app, join_comma_safe; [reflexivity|].
  induction l as [|s l IH]; constructor; [apply encode_string_safe|exact IH].
Qed.

Lemma member_safe (name : string) (v : bytes) :
  forallb wire_safe (bytes_of name) = true -> forallb wire_safe v = true ->
  forallb wire_safe (json.member name v) = true.
Proof.
  intros Hn Hv. unfold json.member. cbn [forallb].
  rewrite forallb_app, Hn. cbn [forallb]. rewrite Hv. reflexivity.
Qed.

Lemma encode_struct_safe (r : TLSReport) :
  forallb wire_safe (json.encode_struct r) = true.
Proof.
  unfold json.encode_struct. cbn [forallb].
  rewrite forallb_app, join_comma_safe; [reflexivity|].
  unfold json.fieldNames, json.fieldValues. cbn [zip_with].
  repeat constructor;
    (apply member_safe;
     [reflexivity
     |first [apply encode_string_safe | apply encode_int_safe | apply encode_slice_safe
            | destruct (IncludeSubdomains r); reflexivity]]).
Qed.

(** X11.  The body of every request that the submitter sends, with the
    marshaller of the Go runtime, is one line of text that is safe inside
    HTML: it holds no control byte (the line breaks of a PEM certificate
    are written as escapes) and none of [<], [>] and [&], whatever the
    strings of the report are. *)
Theorem postCertIssueReport_body_bytes
    (Version : Z) (url_Parse : string -> option error)
    (Do : http.Request -> result http.Response)
    (report : TLSReport) (userAgent : string) (req : http.Request) :
  In (EvDo req)
     (trace (postCertIssueReport Version json.Marshal url_Parse Do report userAgent)) ->
  forallb wire_safe (http.ReqBody req) = true.
Proof.
  intros Hin.
  apply sent_request in Hin as (b & Hb & _ & ->). injection Hb as <-.
  apply encode_struct_safe.
Qed.

(** A report with a line break in a certificate and markup in a name. *)
Lemma postCertIssueReport_body_bytes_witness :
  let r := NewTLSReport example_format example_now "<mail>&" "443" "example.com"
             (Some [String (chr 10) "PEM1"]) TrustedAPIPins "1.0.0" in
  forallb wire_safe
    (http.ReqBody (the_request 3 (json.encode_struct r) r "bridge/1.0")) = true.
Proof.
  apply (postCertIssueReport_body_bytes 3 url_parses transport_answers
           (NewTLSReport example_format example_now "<mail>&" "443" "example.com"
              (Some [String (chr 10) "PEM1"]) TrustedAPIPins "1.0.0")
           "bridge/1.0").
  right. left. reflexivity.
Defined.

(** ** The payload is UTF-8 *)

Lemma valid_from_skip (p q : bytes) :
  utf8.valid_from (length p) (p ++ q) = utf8.valid_from 0 q.
Proof.
  induction p as [|c p IH]; [reflexivity|]. exact IH.
Qed.

Lemma valid_from_ascii (c : ascii) (q : bytes) :
  is_ascii c = true -> utf8.valid_from 0 (c :: q) = utf8.valid_from 0 q.
Proof.
  unfold is_ascii. intros H. apply Z.ltb_lt in H.
  cbn [utf8.valid_from]. rewrite DecodeRune_ascii by exact H.
  pose proof (code_range c).
  destruct (Z.eqb_spec (code c) utf8.RuneError) as [E|_];
    [unfold utf8.RuneError in E; lia|].
  reflexivity.
Qed.

(** ASCII text in front changes nothing. *)
Lemma valid_from_ascii_app (x q : bytes) :
  forallb is_ascii x = true -> utf8.valid_from 0 (x ++ q) = utf8.valid_from 0 q.
Proof.
  induction x as [|c x IH]; intros H; [reflexivity|].
  cbn [forallb] in H. apply andb_prop in H as [Hc Hx].
  change ((c :: x) ++ q) with (c :: (x ++ q)).
  rewrite valid_from_ascii by exact Hc. apply IH, Hx.
Qed.

(** Nor does a rune that decodes. *)
Lemma valid_from_rune (c : ascii) (s q : bytes) (r size : Z) :
  utf8.DecodeRune (c :: s) = (r, size) ->
  (r =? utf8.RuneError) && (size =? 1) = false ->
  utf8.valid_from 0 (take (Z.to_nat size) (c :: s) ++ q) = utf8.valid_from 0 q.
Proof.
  intros Hdec Hok.
  pose proof (DecodeRune_prefix c s q r size Hdec Hok) as Hpre.
  destruct (DecodeRune_valid c s r size Hdec Hok) as (_ & Hsize & Hlen & _).
  destruct (Z.to_nat size) as [|n] eqn:En; [lia|].
  cbn [take] in Hpre |- *. change ((c :: take n s) ++ q) with (c :: (take n s ++ q)) in *.
  cbn [utf8.valid_from]. rewrite Hpre, Hok.
  replace (Z.to_nat size - 1)%nat with (length (take n s)).
  - apply valid_from_skip.
  - cbn [length] in Hlen. rewrite length_take. lia.
Qed.

Lemma escape_ascii (c : ascii) : is_ascii c = true -> forallb is_ascii (json.escape c) = true.
Proof. destruct c as [[] [] [] [] [] [] [] []]; vm_compute; intros H; congruence. Qed.

(** What [encodeState.string] writes between the quotes is UTF-8, whatever
    it reads. *)
Lemma string_body_valid (s : bytes) (k : nat) (q : bytes) :
  utf8.valid_from 0 (json.string_body k s ++ q) = utf8.valid_from 0 q.
Proof.
  revert k q. induction s as [|c s IH]; intros k q; [reflexivity|].
  cbn [json.string_body]. destruct k as [|k]; [|apply IH].
  destruct (Z.ltb_spec (code c) utf8.RuneSelf) as [Hlow|Hhigh].
  - assert (Hc : is_ascii c = true) by (apply Z.ltb_lt; exact Hlow).
    destruct (json.htmlSafe (code c)) eqn:Hs.
    + change ((c :: json.string_body 0 s) ++ q) with (c :: (json.string_body 0 s ++ q)).
      rewrite valid_from_ascii by exact Hc. apply IH.
    + rewrite <- app_assoc, valid_from_ascii_app by (apply escape_ascii, Hc). apply IH.
  - destruct (utf8.DecodeRune (c :: s)) as [r size] eqn:Hdec.
    destruct (rune_cases r size) as [Hbad|[[Hok Hr]|[Hok Hr]]]; rewrite Hbad || rewrite Hok.
    + change ((json.backslash :: bytes_of "ufffd" ++ json.string_body 0 s) ++ q)
        with ((json.backslash :: bytes_of "ufffd") ++ (json.string_body 0 s ++ q)).
      rewrite valid_from_ascii_app by reflexivity. apply IH.
    + replace ((r =? 8232) || (r =? 8233)) with true
        by (destruct Hr as [->| ->]; reflexivity).
      change ((json.backslash :: bytes_of "u202" ++ [json.hex (Z.land r 15)]
               ++ json.string_body (Z.to_nat size - 1) s) ++ q)
        with ((json.backslash :: bytes_of "u202" ++ [json.hex (Z.land r 15)])
              ++ (json.string_body (Z.to_nat size - 1) s ++ q)).
      rewrite valid_from_ascii_app by (destruct Hr as [->| ->]; reflexivity).
      apply IH.
    + rewrite Hr, <- app_assoc, (valid_from_rune c s _ r size Hdec Hok). apply IH.
Qed.

Lemma encode_string_valid (s : string) (q : bytes) :
  utf8.valid_from 0 (json.encode_string s ++ q) = utf8.valid_from 0 q.
Proof.
  unfold json.encode_string.
  change ((dquote :: json.string_body 0 (bytes_of s) ++ [dquote]) ++ q)
    with (dquote :: ((json.string_body 0 (bytes_of s) ++ [dquote]) ++ q)).
  rewrite valid_from_ascii by reflexivity.
  rewrite <- app_assoc, string_body_valid.
  apply (valid_from_ascii dquote q). reflexivity.
Qed.

Lemma utoa_ascii (fuel : nat) (n : Z) (acc : string) :
  forallb is_ascii (bytes_of acc) = true ->
  forallb is_ascii (bytes_of (strconv.utoa fuel n acc)) = true.
Proof.
  revert n acc. induction fuel as [|f IH]; intros n acc Hacc; [exact Hacc|].
  cbn [strconv.utoa].
  assert (Hd : forallb is_ascii (bytes_of (String (chr (48 + n mod 10)) acc)) = true).
  { cbn [list_ascii_of_string forallb]. rewrite Hacc, andb_true_r.
    unfold is_ascii. pose proof (Z.mod_pos_bound n 10 ltac:(lia)).
    rewrite code_chr by lia. apply Z.ltb_lt. lia. }
  destruct (n <? 10); [exact Hd|]. apply IH, Hd.
Qed.

Lemma encode_int_ascii (n : Z) : forallb is_ascii (json.encode_int n) = true.
Proof.
  unfold json.encode_int, strconv.Itoa. destruct (n <? 0).
  - cbn [list_ascii_of_string forallb]. rewrite utoa_ascii by reflexivity. reflexivity.
  - apply utoa_ascii. reflexivity.
Qed.

Lemma join_comma_valid (l : list bytes) (q : bytes) :
  Forall (fun x => forall q, utf8.valid_from 0 (x ++ q) = utf8.valid_from 0 q) l ->
  utf8.valid_from 0 (json.join_comma l ++ q) = utf8.valid_from 0 q.
Proof.
  induction 1 as [|x l Hx Hl IH]; [reflexivity|].
  destruct l as [|y l]; [apply Hx|].
  rewrite join_comma_cons, <- app_assoc, Hx.
  change ((chr 44 :: json.join_comma (y :: l)) ++ q)
    with (chr 44 :: (json.join_comma (y :: l) ++ q)).
  rewrite valid_from_ascii by reflexivity. exact IH.
Qed.

Lemma encode_slice_valid (v : slice string) (q : bytes) :
  utf8.valid_from 0 (json.encode_slice v ++ q) = utf8.valid_from 0 q.
Proof.
  destruct v as [l|]; [|apply valid_from_ascii_app; reflexivity].
  cbn [json.encode_slice].
  change ((chr 91 :: json.join_comma (map json.encode_string l) ++ [chr 93]) ++ q)
    with (chr 91 :: ((json.join_comma (map json.encode_string l) ++ [chr 93]) ++ q)).
  rewrite valid_from_ascii by reflexivity.
  rewrite <- app_assoc, join_comma_valid.
  - apply (valid_from_ascii (chr 93) q). reflexivity.
  - induction l as [|s l IH]; constructor; [apply encode_string_valid|exact IH].
Qed.

Lemma member_valid (name : string) (v : bytes) :
  forallb is_ascii (bytes_of name) = true ->
  (forall q, utf8.valid_from 0 (v ++ q) = utf8.valid_from 0 q) ->
  forall q, utf8.valid_from 0 (json.member name v ++ q) = utf8.valid_from 0 q.
Proof.
  intros Hn Hv q. rewrite member_app.
  rewrite valid_from_ascii by reflexivity.
  rewrite valid_from_ascii_app by exact Hn.
  rewrite !valid_from_ascii by reflexivity. apply Hv.
Qed.

Lemma encode_struct_valid (r : TLSReport) :
  utf8.valid_from 0 (json.encode_struct r) = true.
Proof.
  unfold json.encode_struct.
  rewrite valid_from_ascii by reflexivity.
  rewrite join_comma_valid; [reflexivity|].
  unfold json.fieldNames, json.fieldValues. cbn [zip_with].
  repeat constructor;
    (apply member_valid;
     [reflexivity
     |first [ apply encode_string_valid | apply encode_slice_valid
            | intros q; apply valid_from_ascii_app;
              first [apply encode_int_ascii | destruct (IncludeSubdomains r); reflexivity]]]).
Qed.

(** X12.  The body of every request that the submitter sends, with the
    marshaller of the Go runtime, is valid UTF-8, also when strings of the
    report are not: the encoder writes each byte that starts no rune as an
    escape. *)
Theorem postCertIssueReport_body_utf8
    (Version : Z) (url_Parse : string -> option error)
    (Do : http.Request -> result http.Response)
    (report : TLSReport) (userAgent : string) (req : http.Request) :
  In (EvDo req)
     (trace (postCertIssueReport Version json.Marshal url_Parse Do report userAgent)) ->
  utf8.ValidString (string_of (http.ReqBody req)) = true.
Proof.
  intros Hin.
  apply sent_request in Hin as (b & Hb & _ & ->). injection Hb as <-.
  unfold utf8.ValidString. rewrite list_ascii_of_string_of_list_ascii.
  apply encode_struct_valid.
Qed.

(** The report whose host name is not UTF-8. *)
Lemma postCertIssueReport_body_utf8_witness :
  utf8.ValidString (Hostname latin1_report) = false /\
  utf8.ValidString
    (string_of (http.ReqBody (the_request 3 (json.encode_struct latin1_report)
                                latin1_report "bridge/1.0"))) = true.
Proof.
  split; [reflexivity|].
  apply (postCertIssueReport_body_utf8 3 url_parses transport_answers
           latin1_report "bridge/1.0").
  right. left. reflexivity.
Defined.

(** ** Header names in any case *)

Lemma code_inj (c d : ascii) : code c = code d -> c = d.
Proof. intros H. rewrite <- (chr_code c), <- (chr_code d), H. reflexivity. Qed.

(** Two bytes with the same lower-case form are equal, or a letter in its
    two cases. *)
Lemma lower_cases (c d : ascii) :
  lower (code c) = lower (code d) ->
  c = d \/ (65 <= code d <= 90 /\ code c = code d + 32)
        \/ (65 <= code c <= 90 /\ code d = code c + 32).
Proof.
  unfold lower. intros H.
  destruct (Z.leb_spec 65 (code c)); destruct (Z.leb_spec (code c) 90);
    destruct (Z.leb_spec 65 (code d)); destruct (Z.leb_spec (code d) 90);
    cbn [andb] in H;
    first [left; apply code_inj; lia | right; left; lia | right; right; lia].
Qed.

Lemma letter_valid (c : ascii) :
  65 <= code c <= 90 \/ 97 <= code c <= 122 -> http.validHeaderFieldByte c = true.
Proof.
  intros H. unfold http.validHeaderFieldByte. cbv zeta.
  destruct (Z.leb_spec 65 (code c)); destruct (Z.leb_spec (code c) 90);
    destruct (Z.leb_spec 97 (code c)); destruct (Z.leb_spec (code c) 122);
    cbn [andb]; rewrite ?orb_true_r; try reflexivity; lia.
Qed.

Lemma valid_fold_byte (c d : ascii) :
  lower (code c) = lower (code d) ->
  http.validHeaderFieldByte c = http.validHeaderFieldByte d.
Proof.
  intros H. destruct (lower_cases c d H) as [->|[[Hd Hc]|[Hc Hd]]]; [reflexivity| |];
    rewrite (letter_valid c), (letter_valid d) by lia; reflexivity.
Qed.

Lemma valid_fold (s t : string) :
  same_fold s t = true ->
  http.all_bytes http.validHeaderFieldByte s = http.all_bytes http.validHeaderFieldByte t.
Proof.
  revert t. induction s as [|c s IH]; intros [|d t] H; try discriminate H; [reflexivity|].
  cbn [same_fold] in H. apply andb_prop in H as [Hcd Hst]. apply Z.eqb_eq in Hcd.
  cbn [http.all_bytes]. rewrite (valid_fold_byte c d Hcd), (IH t Hst). reflexivity.
Qed.

Lemma canonicalize_fold (s t : string) (upper : bool) :
  same_fold s t = true -> http.canonicalize upper s = http.canonicalize upper t.
Proof.
  revert t upper. induction s as [|c s IH]; intros [|d t] upper H;
    try discriminate H; [reflexivity|].
  cbn [same_fold] in H. apply andb_prop in H as [Hcd Hst]. apply Z.eqb_eq in Hcd.
  cbn [http.canonicalize]. cbv zeta.
  assert (Hhead :
    (if upper && (97 <=? code c) && (code c <=? 122) then chr (code c - 32)
     else if negb upper && (65 <=? code c) && (code c <=? 90) then chr (code c + 32)
     else c)
    = (if upper && (97 <=? code d) && (code d <=? 122) then chr (code d - 32)
       else if negb upper && (65 <=? code d) && (code d <=? 90) then chr (code d + 32)
       else d)).
  { destruct (lower_cases c d Hcd) as [->|[[Hd Hc]|[Hc Hd]]]; [reflexivity| |];
      destruct upper; cbn [negb andb];
      destruct (Z.leb_spec 97 (code c)); destruct (Z.leb_spec (code c) 122);
      destruct (Z.leb_spec 97 (code d)); destruct (Z.leb_spec (code d) 122);
      destruct (Z.leb_spec 65 (code c)); destruct (Z.leb_spec (code c) 90);
      destruct (Z.leb_spec 65 (code d)); destruct (Z.leb_spec (code d) 90);
      cbn [andb]; try lia;
      first [ reflexivity
            | replace (code c - 32) with (code d) by lia; apply chr_code
            | replace (code d + 32) with (code c) by lia; symmetry; apply chr_code
            | replace (code d - 32) with (code c) by lia; symmetry; apply chr_code
            | replace (code c + 32) with (code d) by lia; apply chr_code ]. }
  rewrite Hhead. f_equal. apply IH, Hst.
Qed.

(** A header name has one canonical form, whatever the case of its
    letters. *)
Lemma CanonicalMIMEHeaderKey_fold (s t : string) :
  same_fold s t = true ->
  http.CanonicalMIMEHeaderKey t
  = if http.all_bytes http.validHeaderFieldByte s
    then http.CanonicalMIMEHeaderKey s else t.
Proof.
  intros H. unfold http.CanonicalMIMEHeaderKey. rewrite <- (valid_fold s t H).
  destruct (http.all_bytes _ s); [|reflexivity].
  symmetry. apply canonicalize_fold, H.
Qed.

(** X13.  The four headers of a request that the submitter sends are found
    under their names in any letter case: [Header.Get] with a key that
    differs from the name only in the case of its letters returns the
    value that the submitter set. *)
Theorem postCertIssueReport_header_any_case
    (Version : Z) (Marshal : TLSReport -> result bytes)
    (url_Parse : string -> option error)
    (Do : http.Request -> result http.Response)
    (report : TLSReport) (userAgent : string) (req : http.Request) (key : string) :
  In (EvDo req)
     (trace (postCertIssueReport Version Marshal url_Parse Do report userAgent)) ->
  (same_fold "content-type" key = true ->
   http.Get (http.ReqHeader req) key = "application/json") /\
  (same_fold "user-agent" key = true ->
   http.Get (http.ReqHeader req) key = userAgent) /\
  (same_fold "x-pm-apiversion" key = true ->
   http.Get (http.ReqHeader req) key = strconv.Itoa Version) /\
  (same_fold "x-pm-appversion" key = true ->
   http.Get (http.ReqHeader req) key = AppVersion report).
Proof.
  intros Hin. apply sent_request in Hin as (b & _ & _ & ->).
  unfold http.Get. rewrite the_request_header.
  repeat split; intros Hk; rewrite (CanonicalMIMEHeaderKey_fold _ _ Hk);
    cbn [http.all_bytes];
    match goal with
    | |- context [http.CanonicalMIMEHeaderKey ?s] =>
        let v := eval vm_compute in (http.CanonicalMIMEHeaderKey s) in
        change (http.CanonicalMIMEHeaderKey s) with v
    end;
    match goal with
    | |- context [if ?b then _ else _] =>
        let v := eval vm_compute in b in change b with v
    end; cbv iota;
    repeat (first [rewrite lookup_insert_eq | rewrite lookup_insert_ne by discriminate]);
    reflexivity.
Qed.

(** The request of the scenario, read with names in other cases. *)
Lemma postCertIssueReport_header_any_case_witness :
  let req := the_request 3 (json.encode_struct example_report) example_report
               "bridge/1.0" in
  http.Get (http.ReqHeader req) "X-PM-AppVersion" = AppVersion example_report /\
  http.Get (http.ReqHeader req) "X-PM-APIVERSION" = strconv.Itoa 3 /\
  http.Get (http.ReqHeader req) "USER-AGENT" = "bridge/1.0" /\
  http.Get (http.ReqHeader req) "content-TYPE" = "application/json".
Proof.
  cbv zeta.
  assert (Hin : In (EvDo (the_request 3 (json.encode_struct example_report)
                            example_report "bridge/1.0"))
                  (trace (postCertIssueReport 3 json.Marshal url_parses
                            transport_answers example_report "bridge/1.0")))
    by (right; left; reflexivity).
  split; [|split; [|split]].
  - apply (proj2 (proj2 (proj2 (postCertIssueReport_header_any_case 3 json.Marshal
             url_parses transport_answers example_report "bridge/1.0" _
             "X-PM-AppVersion" Hin)))). reflexivity.
  - apply (proj1 (proj2 (proj2 (postCertIssueReport_header_any_case 3 json.Marshal
             url_parses transport_answers example_report "bridge/1.0" _
             "X-PM-APIVERSION" Hin)))). reflexivity.
  - apply (proj1 (proj2 (postCertIssueReport_header_any_case 3 json.Marshal
             url_parses transport_answers example_report "bridge/1.0" _
             "USER-AGENT" Hin))). reflexivity.
  - apply (proj1 (postCertIssueReport_header_any_case 3 json.Marshal
             url_parses transport_answers example_report "bridge/1.0" _
             "content-TYPE" Hin)). reflexivity.
Defined.

(** ** The text determines the report *)

(** X14.  Two reports with the same JSON text are the same report, up to the
    coercion of their strings to valid UTF-8: the text determines every
    field.  Reports whose strings are valid UTF-8 and whose texts are equal
    are equal. *)
Theorem Marshal_injective (r1 r2 : TLSReport) :
  - 2 ^ 63 <= Port r1 < 2 ^ 63 -> - 2 ^ 63 <= Port r2 < 2 ^ 63 ->
  json.Marshal r1 = json.Marshal r2 ->
  coerce_report r1 = coerce_report r2 /\
  (utf8.ValidString (DateTime r1) && valid_utf8 r1 = true ->
   utf8.ValidString (DateTime r2) && valid_utf8 r2 = true -> r1 = r2).
Proof.
  intros H1 H2 Heq.
  apply (f_equal (fun x => match x with Ok b => b | Err _ => [] end)) in Heq.
  change (json.encode_struct r1 = json.encode_struct r2) in Heq.
  assert (Hc : coerce_report r1 = coerce_report r2).
  { pose proof (Unmarshal_encode_struct r1 H1) as E1.
    pose proof (Unmarshal_encode_struct r2 H2) as E2.
    rewrite Heq in E1. congruence. }
  split; [exact Hc|].
  intros V1 V2. apply andb_prop in V1 as [D1 V1]. apply andb_prop in V2 as [D2 V2].
  rewrite <- (coerce_report_valid r1 D1 V1), <- (coerce_report_valid r2 D2 V2).
  exact Hc.
Qed.

(** Two reports that differ and have the same text: each byte that is not
    UTF-8 is written as the escape of U+FFFD. *)
Lemma Marshal_injective_witness :
  coerce_report latin1_report = coerce_report latin1_report_fe /\
  (utf8.ValidString (DateTime latin1_report) && valid_utf8 latin1_report = true ->
   utf8.ValidString (DateTime latin1_report_fe) && valid_utf8 latin1_report_fe = true ->
   latin1_report = latin1_report_fe).
Proof.
  apply (Marshal_injective latin1_report latin1_report_fe).
  - change (Port latin1_report) with 443. lia.
  - change (Port latin1_report_fe) with 443. lia.
  - vm_compute. reflexivity.
Defined.

(** X15.  [TrustedAPIPins] is a slice of seven pins, no two of them equal,
    and a report built with them as the known pins carries them through
    JSON unchanged and in order, whatever the other arguments are. *)
Theorem TrustedAPIPins_in_report
    (Format_RFC3339 : time.Time -> string) (now : time.Time)
    (host port server : string) (certChain : slice string) (appVersion : string) :
  let r := NewTLSReport Format_RFC3339 now host port server certChain
                        TrustedAPIPins appVersion in
  exists pins,
    TrustedAPIPins = Some pins /\ length pins = 7%nat /\ NoDup pins /\
    json.Unmarshal (json.encode_struct r) = (coerce_report r, None) /\
    KnownPins (coerce_report r) = Some pins.
Proof.
  intros r. eexists. split; [reflexivity|]. split; [reflexivity|].
  split; [apply (bool_decide_eq_true_1 _); vm_compute; reflexivity|].
  split; [apply Unmarshal_encode_struct, Atoi_in_range|].
  vm_compute. reflexivity.
Qed.
